(** * MigratorX: the orchestration core, embedded and verified

    A shallow embedding of the Go packages [workflow], [state], [checks],
    [cdc] and [mysql] of MigratorX.  Go maps are [gmap]s, slices are lists
    (a nil slice is the empty list), [(T, error)] results are pairs whose
    second component is [None] for a nil error, and the mutable objects the
    code shares (the checkpoint store, the logger, the collaborators behind
    the inspector and action interfaces) are threaded explicitly. *)

From Stdlib Require Import ZArith Ascii String List Lia.
From stdpp Require Import base strings gmap list pretty.

Local Open Scope string_scope.
Local Open Scope list_scope.
Local Open Scope Z_scope.

(* ===================================================================== *)
(** ** Go library functions used by the code *)
(* ===================================================================== *)

Module Go.

(** An [error] is represented by the text its [Error()] method returns;
    this is also what the verb [%v] prints for it. *)
Definition error := string.

(** The six bytes of [strings.asciiSpace]. *)
Definition asciiSpace (c : ascii) : bool :=
  let n := N_of_ascii c in
  ((n =? 9) || (n =? 10) || (n =? 11) || (n =? 12) || (n =? 13) || (n =? 32))%N.

(** UTF-8 encodings of the white-space runes of [unicode.IsSpace] outside
    ASCII: U+0085 and U+00A0 take two bytes; U+1680, U+2000..U+200A,
    U+2028, U+2029, U+202F, U+205F and U+3000 take three. *)
Definition space2 (a b : ascii) : bool :=
  let x := N_of_ascii a in
  let y := N_of_ascii b in
  ((x =? 194) && ((y =? 133) || (y =? 160)))%N.

Definition space3 (a b c : ascii) : bool :=
  let x := N_of_ascii a in
  let y := N_of_ascii b in
  let z := N_of_ascii c in
  (((x =? 225) && (y =? 154) && (z =? 128))
   || ((x =? 226) && (y =? 128)
       && (((128 <=? z) && (z <=? 138)) || (z =? 168) || (z =? 169) || (z =? 175)))
   || ((x =? 226) && (y =? 129) && (z =? 159))
   || ((x =? 227) && (y =? 128) && (z =? 128)))%N.

(** [strings.TrimLeftFunc(s, unicode.IsSpace)]: drop white-space runes
    from the front. *)
Fixpoint trimLeft (l : list ascii) : list ascii :=
  match l with
  | [] => []
  | a :: r1 =>
      if asciiSpace a then trimLeft r1
      else match r1 with
           | [] => l
           | b :: r2 =>
               if space2 a b then trimLeft r2
               else match r2 with
                    | [] => l
                    | c :: r3 => if space3 a b c then trimLeft r3 else l
                    end
           end
  end.

(** [strings.TrimRightFunc(s, unicode.IsSpace)], on the reversed byte
    sequence: the head of [l] is the last byte of the string. *)
Fixpoint trimRightRev (l : list ascii) : list ascii :=
  match l with
  | [] => []
  | a :: r1 =>
      if asciiSpace a then trimRightRev r1
      else match r1 with
           | [] => l
           | b :: r2 =>
               if space2 b a then trimRightRev r2
               else match r2 with
                    | [] => l
                    | c :: r3 => if space3 c b a then trimRightRev r3 else l
                    end
           end
  end.

(** [strings.TrimSpace]. *)
Definition TrimSpace (s : string) : string :=
  string_of_list_ascii
    (rev (trimRightRev (rev (trimLeft (list_ascii_of_string s))))).

(** A byte below 128 that is not ASCII white space starts no
    white-space rune and ends none. *)
Definition solid (c : ascii) : Prop :=
  asciiSpace c = false ∧ (N_of_ascii c <? 128)%N = true.

(** [strings.Join]. *)
Fixpoint Join (elems : list string) (sep : string) : string :=
  match elems with
  | [] => ""
  | [x] => x
  | x :: rest => x +:+ sep +:+ Join rest sep
  end.

(** The verb [%d]. *)
Definition itoa (n : Z) : string := pretty n.

(** The formatting routines whose output depends on Unicode tables or
    on unit selection are kept abstract: [fmt_q] is the verb [%q]
    ([strconv.Quote]) and [duration_String] is [time.Duration.String]. *)
Class Fmt := {
  fmt_q : string → string;
  duration_String : Z → string
}.

(** [time.Duration] is an [int64] count of nanoseconds. *)
Definition minDuration : Z := - 2 ^ 63.
Definition maxDuration : Z := 2 ^ 63 - 1.
Definition Minute : Z := 60 * 1000000000.

(** [time.Since(t)] is [time.Now().Sub(t)]: the difference of the two
    instants (here in nanoseconds), saturated to the range of a
    [Duration]. *)
Definition time_Since (now t : Z) : Z :=
  Z.max minDuration (Z.min maxDuration (now - t)).

End Go.

(* ===================================================================== *)
(** ** The severity model

    The packages [workflow], [checks] and [mysql] each declare the same
    three types [Severity], [Finding] and [Summary]; one definition stands
    for the three copies. *)
(* ===================================================================== *)

Inductive Severity := SeverityInfo | SeverityWarn | SeverityBlock.

#[global] Instance Severity_eq_dec : EqDecision Severity.
Proof. solve_decision. Defined.

(** Values stored behind [interface{}]: in checkpoint stores and in the
    [Meta] maps of findings. *)
Inductive Value :=
| VNil
| VBool (b : bool)
| VInt (n : Z)
| VString (s : string)
| VStrings (l : list string)
| VOptString (o : option string).

Record Finding := mkFinding {
  Severity_of : Severity;
  Message : string;
  Meta : gmap string Value
}.

Record Summary := mkSummary { Info : Z; Warn : Z; Block : Z }.

Definition Summary_zero : Summary := mkSummary 0 0 0.

(** The body of the counting [switch], shared by [workflow.Runner.Run],
    [ResultAggregator.AddFindings], [checks.applySummary] and
    [mysql.applySummary]. *)
Definition count_one (s : Summary) (f : Finding) : Summary :=
  match Severity_of f with
  | SeverityInfo => mkSummary (Info s + 1) (Warn s) (Block s)
  | SeverityWarn => mkSummary (Info s) (Warn s + 1) (Block s)
  | SeverityBlock => mkSummary (Info s) (Warn s) (Block s + 1)
  end.

Definition applySummary (s : Summary) (findings : list Finding) : Summary :=
  fold_left count_one findings s.

Definition is_block (f : Finding) : bool :=
  bool_decide (Severity_of f = SeverityBlock).

(** [mysql.hasBlock]; also the [blocked] flag of the workflow runner. *)
Definition hasBlock (findings : list Finding) : bool := existsb is_block findings.

Definition countSeverity (findings : list Finding) (sv : Severity) : Z :=
  Z.of_nat (length (filter (λ f, Severity_of f = sv) findings)).

(* ===================================================================== *)
(** ** Checkpoint state: the [workflow.State] interface *)
(* ===================================================================== *)

Class State (S : Type) := {
  Get : S → string → option Value;
  Set_ : string → Value → S → S;
  MarkCompleted : string → S → S;
  IsCompleted : S → string → bool
}.

(** [workflow.MemoryState]: two separate maps. *)
Module MemoryState.

Record t := mk {
  values : gmap string Value;
  completed : gset string
}.

Definition NewMemoryState : t := mk ∅ ∅.

Definition Get (m : t) (key : string) : option Value := values m !! key.

Definition Set_ (key : string) (value : Value) (m : t) : t :=
  mk (<[key := value]> (values m)) (completed m).

Definition MarkCompleted (stepName : string) (m : t) : t :=
  mk (values m) ({[stepName]} ∪ completed m).

Definition IsCompleted (m : t) (stepName : string) : bool :=
  bool_decide (stepName ∈ completed m).

#[global] Instance state : State t :=
  Build_State t Get Set_ MarkCompleted IsCompleted.

End MemoryState.

(** [state.FileState]: one map holds the values and the completion
    markers.  The JSON file it writes after every update is outside the
    model; [persist]'s error is discarded by the code as well. *)
Module FileState.

Record t := mk {
  path : string;
  data : gmap string Value
}.

Definition completedKey (step : string) : string :=
  "workflow:" +:+ step +:+ ":completed".

Definition Get (s : t) (key : string) : option Value := data s !! key.

Definition Set_ (key : string) (value : Value) (s : t) : t :=
  mk (path s) (<[key := value]> (data s)).

Definition MarkCompleted (stepName : string) (s : t) : t :=
  mk (path s) (<[completedKey stepName := VBool true]> (data s)).

Definition IsCompleted (s : t) (stepName : string) : bool :=
  match data s !! completedKey stepName with
  | None => false
  | Some (VBool b) => b
  | Some _ => false
  end.

#[global] Instance state : State t :=
  Build_State t Get Set_ MarkCompleted IsCompleted.

End FileState.

(** What the orchestration code relies on from an implementation of
    [State]: a value that was set is read back, setting one key leaves the
    other keys alone, and a step that was marked is reported completed. *)
Class LawfulState (S : Type) `{!State S} : Prop := {
  Get_Set_eq : ∀ (s : S) k v, Get (Set_ k v s) k = Some v;
  Get_Set_ne : ∀ (s : S) k k' v, k ≠ k' → Get (Set_ k v s) k' = Get s k';
  IsCompleted_MarkCompleted : ∀ (s : S) n, IsCompleted (MarkCompleted n s) n = true
}.

(** A stand-in for the abstract formatting routines, used to evaluate the
    code on sample inputs: it quotes by wrapping in double quotes, which
    is what [%q] prints for printable ASCII text without quotes and
    backslashes, and it prints a duration as its count of nanoseconds. *)
Definition sampleFmt : Go.Fmt :=
  {| Go.fmt_q := λ s, String (ascii_of_nat 34) s +:+ String (ascii_of_nat 34) EmptyString;
     Go.duration_String := λ d, Go.itoa d +:+ "ns" |}.

(* ===================================================================== *)
(** ** The workflow runner (package [workflow]) *)
(* ===================================================================== *)

Module Workflow.
Section Runner.

(** [S] is the checkpoint store behind the [State] interface and [W] is
    everything else a step can observe or change.  Whether the context
    is done is read off the world: [ctx_Err w] is what [ctx.Err()]
    returns in [w], with [None] while [ctx.Done()] is still open. *)
Context {S : Type} `{!State S} {W : Type} `{!Go.Fmt}.
Variable ctx_Err : W → option Go.error.

Record StepResult := mkStepResult { Findings : list Finding }.

Record Step := mkStep {
  Name : string;
  Run : S → W → (StepResult * option Go.error) * (S * W);
  Idempotent : bool;
  Mutates : bool
}.

(** [Logger] holds the lines written so far. *)
Record Runner := mkRunner {
  Steps : list Step;
  State_ : S;
  AllowMutations : bool;
  Logger : list string;
  results : gmap string StepResult
}.

Definition NewRunner (steps : list Step) (state : S) (allowMutations : bool) : Runner :=
  mkRunner steps state allowMutations [] ∅.

Definition Printf (r : Runner) (line : string) : Runner :=
  mkRunner (Steps r) (State_ r) (AllowMutations r) (Logger r ++ [line]) (results r).

Definition set_State (r : Runner) (st : S) : Runner :=
  mkRunner (Steps r) st (AllowMutations r) (Logger r) (results r).

Definition set_result (r : Runner) (name : string) (res : StepResult) : Runner :=
  mkRunner (Steps r) (State_ r) (AllowMutations r) (Logger r) (<[name := res]> (results r)).

Definition mutationBlocked (step : Step) : Finding :=
  mkFinding SeverityBlock "mutating step blocked by Runner configuration"
    {[ "step" := VString (Name step) ]}.

Definition stepError (step : Step) (err : Go.error) : Finding :=
  mkFinding SeverityBlock ("step error: " +:+ err) {[ "step" := VString (Name step) ]}.

(** The findings recorded for a step: its own, then the Block made from
    a returned error. *)
Definition recorded (step : Step) (res : StepResult) (err : option Go.error) : StepResult :=
  match err with
  | Some e => mkStepResult (Findings res ++ [stepError step e])
  | None => res
  end.

(** The aggregation loop of [Run]: counts and the [blocked] flag. *)
Fixpoint aggregate (summary : Summary) (blocked : bool) (findings : list Finding)
  : Summary * bool :=
  match findings with
  | [] => (summary, blocked)
  | f :: rest =>
      match Severity_of f with
      | SeverityInfo =>
          aggregate (mkSummary (Info summary + 1) (Warn summary) (Block summary)) blocked rest
      | SeverityWarn =>
          aggregate (mkSummary (Info summary) (Warn summary + 1) (Block summary)) blocked rest
      | SeverityBlock =>
          aggregate (mkSummary (Info summary) (Warn summary) (Block summary + 1)) true rest
      end
  end.

Definition completedLine (name : string) (res : StepResult) : string :=
  "completed step: " +:+ name
    +:+ " (INFO=" +:+ Go.itoa (countSeverity (Findings res) SeverityInfo)
    +:+ " WARN=" +:+ Go.itoa (countSeverity (Findings res) SeverityWarn)
    +:+ " BLOCK=" +:+ Go.itoa (countSeverity (Findings res) SeverityBlock) +:+ ")".

(** How one iteration of the main loop ends: it falls through to the
    next step, or it returns from [Run]. *)
Inductive Outcome :=
| Continue (r : Runner) (w : W) (summary : Summary)
| Return (r : Runner) (w : W) (summary : Summary) (err : option Go.error).

(** The body of the main loop of [Run]. *)
Definition iteration (r : Runner) (w : W) (summary : Summary) (step : Step) : Outcome :=
  match ctx_Err w with
  | Some e =>
      Return (Printf r ("context canceled before step " +:+ Name step)) w summary (Some e)
  | None =>
      if IsCompleted (State_ r) (Name step) then
        Continue (Printf r ("skipping completed step: " +:+ Name step)) w summary
      else if Mutates step && negb (AllowMutations r) then
        let r := set_result r (Name step) (mkStepResult [mutationBlocked step]) in
        let r := Printf r ("BLOCK: step " +:+ Name step
                           +:+ " mutates but Runner.AllowMutations is false") in
        Return r w (mkSummary (Info summary) (Warn summary) (Block summary + 1)) None
      else
        let r := Printf r ("running step: " +:+ Name step) in
        let '((res, err), (st, w)) := Run step (State_ r) w in
        let r := set_State r st in
        let res := recorded step res err in
        let '(summary, blocked) := aggregate summary false (Findings res) in
        let r := set_result r (Name step) res in
        if blocked then
          Return (Printf r ("BLOCK encountered in step " +:+ Name step
                            +:+ "; halting plan execution")) w summary None
        else
          let r := set_State r (MarkCompleted (Name step) (State_ r)) in
          Continue (Printf r (completedLine (Name step) res)) w summary
  end.

(** The main loop over the steps still to visit. *)
Fixpoint loop (steps : list Step) (r : Runner) (w : W) (summary : Summary) : Outcome :=
  match steps with
  | [] => Continue r w summary
  | step :: rest =>
      match iteration r w summary step with
      | Continue r w summary => loop rest r w summary
      | Return r w summary err => Return r w summary err
      end
  end.

Definition notIdempotent (step : Step) : Go.error :=
  "step " +:+ Go.fmt_q (Name step) +:+ " is not idempotent; all steps must be idempotent".

(** [Runner.Run]: the summary, the error, and the runner and world it
    leaves behind. *)
(** What [Run] returns once the main loop is over: the [return] taken
    inside the loop, or the final [return summary, nil]. *)
Definition returned (o : Outcome) : (Summary * option Go.error) * (Runner * W) :=
  match o with
  | Continue r w summary => ((summary, None), (r, w))
  | Return r w summary err => ((summary, err), (r, w))
  end.

Definition Runner_Run (r : Runner) (w : W) : (Summary * option Go.error) * (Runner * W) :=
  match List.find (λ s, negb (Idempotent s)) (Steps r) with
  | Some s => ((Summary_zero, Some (notIdempotent s)), (r, w))
  | None => returned (loop (Steps r) r w Summary_zero)
  end.

(** The runner right after a step that was executed and recorded
    findings [res]: halted on a Block, or marked completed. *)
Definition halted (r : Runner) (step : Step) (st : S) (res : StepResult) : Runner :=
  mkRunner (Steps r) st (AllowMutations r)
    (Logger r ++ ["running step: " +:+ Name step;
                  "BLOCK encountered in step " +:+ Name step +:+ "; halting plan execution"])
    (<[Name step := res]> (results r)).

Definition checkpointed (r : Runner) (step : Step) (st : S) (res : StepResult) : Runner :=
  mkRunner (Steps r) (MarkCompleted (Name step) st) (AllowMutations r)
    (Logger r ++ ["running step: " +:+ Name step; completedLine (Name step) res])
    (<[Name step := res]> (results r)).

End Runner.
End Workflow.

(* ===================================================================== *)
(** ** The migration plan (package [workflow], records only) *)
(* ===================================================================== *)

Record Topology := mkTopology { Topology_Primary : string; Replicas : list string }.

Record CDCConfig := mkCDCConfig { CDC_Type : string; CDC_Connector : string }.

Record MigrationPlan := mkMigrationPlan {
  Migration : string;
  SourceVersion : string;
  TargetVersion : string;
  Plan_Topology : Topology;
  CDC : CDCConfig;
  Plan_Steps : list string
}.

(* ===================================================================== *)
(** ** The checks runner and the schema parity engine (package [checks]) *)
(* ===================================================================== *)

Module Checks.
Section Checks.

(** [W] is the world the collaborators of the checks read. *)
Context {W : Type} `{!Go.Fmt}.

Record Input := mkInput { Plan : option MigrationPlan }.

Record PreflightCheck := mkCheck {
  Check_Name : string;
  Check_Run : Input → W → (list Finding * option Go.error) * W;
  ReadOnly : bool
}.

Record Runner := mkRunner {
  Checks : list PreflightCheck;
  Logger : list string
}.

Record Result := mkResult {
  CheckName : string;
  Findings : list Finding
}.

Definition NewRunner (checks : list PreflightCheck) (logger : list string) : Runner :=
  mkRunner checks logger.

Definition checkError (name : string) (err : Go.error) : Finding :=
  mkFinding SeverityBlock ("check error: " +:+ err) {[ "check" := VString name ]}.

Definition withoutMessage (checkName : string) : Finding :=
  mkFinding SeverityBlock
    ("check " +:+ Go.fmt_q checkName +:+ " emitted a finding without a message")
    {[ "check" := VString checkName ]}.

Fixpoint enforceMessages (checkName : string) (findings : list Finding) : list Finding :=
  match findings with
  | [] => []
  | f :: rest =>
      if decide (Go.TrimSpace (Message f) = "")
      then withoutMessage checkName :: enforceMessages checkName rest
      else f :: enforceMessages checkName rest
  end.

Definition notReadOnly (check : PreflightCheck) : Go.error :=
  "preflight check " +:+ Go.fmt_q (Check_Name check) +:+ " is not read-only".

(** The findings kept for a check: its own, then the Block made from a
    returned error, with blank messages replaced. *)
Definition kept (check : PreflightCheck) (findings : list Finding) (err : option Go.error)
  : list Finding :=
  enforceMessages (Check_Name check)
    match err with
    | Some e => findings ++ [checkError (Check_Name check) e]
    | None => findings
    end.

(** The loop of [Runner.Run] over the checks still to visit. *)
Fixpoint run_checks (checks : list PreflightCheck) (input : Input)
    (logger : list string) (w : W) (summary : Summary) (results : list Result)
  : (Summary * list Result * option Go.error) * (list string * W) :=
  match checks with
  | [] => ((summary, results, None), (logger, w))
  | check :: rest =>
      if negb (ReadOnly check) then
        ((Summary_zero, [], Some (notReadOnly check)), (logger, w))
      else
        let logger := logger ++ ["running preflight check: " +:+ Check_Name check] in
        let '((findings, err), w) := Check_Run check input w in
        let findings := kept check findings err in
        let summary := applySummary summary findings in
        run_checks rest input logger w summary
          (results ++ [mkResult (Check_Name check) findings])
  end.

(** [Runner.Run]: summary, per-check results and error, then the log and
    the world it leaves behind. *)
Definition Runner_Run (r : Runner) (input : Input) (w : W)
  : (Summary * list Result * option Go.error) * (list string * W) :=
  run_checks (Checks r) input (Logger r) w Summary_zero [].

(** What running the given checks one after another leaves behind (the
    log and the world), and the results it collects. *)
Fixpoint executed (checks : list PreflightCheck) (input : Input)
    (logger : list string) (w : W) : list string * W :=
  match checks with
  | [] => (logger, w)
  | check :: rest =>
      executed rest input (logger ++ ["running preflight check: " +:+ Check_Name check])
        (snd (Check_Run check input w))
  end.

Fixpoint collected (checks : list PreflightCheck) (input : Input) (w : W) : list Result :=
  match checks with
  | [] => []
  | check :: rest =>
      let '((findings, err), w) := Check_Run check input w in
      mkResult (Check_Name check) (kept check findings err) :: collected rest input w
  end.

Definition allFindings (results : list Result) : list Finding :=
  flat_map Findings results.

(** *** Schema snapshots *)

Record Column := mkColumn {
  Column_Name : string;
  Column_Type : string;
  Nullable : bool;
  Default : option string;
  Charset : string;
  Collation : string
}.

Record Table := mkTable {
  Table_Name : string;
  Columns : list Column;
  PrimaryKey : list string
}.

Record Schema := mkSchema { Tables : list Table }.

Definition SchemaInspector := string → W → (Schema * option Go.error) * W.

Record SchemaParityCheck := mkSchemaParityCheck {
  Inspector : option SchemaInspector;
  PrimaryHost : string;
  ReplicaHost : string
}.

(** [tableIndex] and [columnIndex]: a later entry of the same name
    replaces an earlier one. *)
Definition tableIndex (tables : list Table) : gmap string Table :=
  fold_left (λ idx t, <[Table_Name t := t]> idx) tables ∅.

Definition columnIndex (cols : list Column) : gmap string Column :=
  fold_left (λ idx c, <[Column_Name c := c]> idx) cols ∅.

(** The loop of [equalStrings], entered with slices of equal length. *)
Fixpoint equalElems (a b : list string) : bool :=
  match a, b with
  | x :: a', y :: b' => if decide (x = y) then equalElems a' b' else false
  | _, _ => true
  end.

Definition equalStrings (a b : list string) : bool :=
  if decide (length a = length b) then equalElems a b else false.

Definition equalDefaults (a b : option string) : bool :=
  match a, b with
  | None, None => true
  | Some x, Some y => bool_decide (x = y)
  | _, _ => false
  end.

Definition pkOnlyOnReplica (table : string) : Finding :=
  mkFinding SeverityWarn
    ("table " +:+ Go.fmt_q table +:+ " has primary key on replica but not on primary")
    {[ "table" := VString table ]}.

Definition pkMissingOnReplica (table : string) : Finding :=
  mkFinding SeverityBlock
    ("table " +:+ Go.fmt_q table +:+ " missing primary key on replica")
    {[ "table" := VString table ]}.

Definition pkMismatch (table : string) (primaryPK replicaPK : list string) : Finding :=
  mkFinding SeverityBlock
    ("table " +:+ Go.fmt_q table +:+ " primary key mismatch")
    (<[ "table" := VString table ]>
       (<[ "primary_pk" := VStrings primaryPK ]> {[ "replica_pk" := VStrings replicaPK ]})).

Definition comparePrimaryKey (table : string) (primaryPK replicaPK : list string)
  : list Finding :=
  if bool_decide (length primaryPK = 0%nat) && bool_decide (length replicaPK = 0%nat)
  then []
  else if bool_decide (length primaryPK = 0%nat) && bool_decide (0 < length replicaPK)%nat
  then [pkOnlyOnReplica table]
  else if bool_decide (0 < length primaryPK)%nat && bool_decide (length replicaPK = 0%nat)
  then [pkMissingOnReplica table]
  else if negb (equalStrings primaryPK replicaPK)
  then [pkMismatch table primaryPK replicaPK]
  else [].

Definition columnMeta (table name : string) : gmap string Value :=
  <[ "table" := VString table ]> {[ "column" := VString name ]}.

(** The findings of [compareColumns] for one column of the primary. *)
Definition compareColumn (table name : string) (pCol : Column)
    (replicaIndex : gmap string Column) : list Finding :=
  match replicaIndex !! name with
  | None =>
      [mkFinding SeverityBlock
         ("table " +:+ Go.fmt_q table +:+ " column " +:+ Go.fmt_q name
          +:+ " missing on replica")
         (columnMeta table name)]
  | Some rCol =>
      (if bool_decide (Column_Type pCol ≠ Column_Type rCol) then
         [mkFinding SeverityBlock
            ("table " +:+ Go.fmt_q table +:+ " column " +:+ Go.fmt_q name
             +:+ " type mismatch")
            (<[ "primary_type" := VString (Column_Type pCol) ]>
               (<[ "replica_type" := VString (Column_Type rCol) ]> (columnMeta table name)))]
       else [])
      ++ (if bool_decide (Nullable pCol ≠ Nullable rCol) then
            [mkFinding SeverityWarn
               ("table " +:+ Go.fmt_q table +:+ " column " +:+ Go.fmt_q name
                +:+ " nullability differs")
               (<[ "primary_nullable" := VBool (Nullable pCol) ]>
                  (<[ "replica_nullable" := VBool (Nullable rCol) ]> (columnMeta table name)))]
          else [])
      ++ (if negb (equalDefaults (Default pCol) (Default rCol)) then
            [mkFinding SeverityWarn
               ("table " +:+ Go.fmt_q table +:+ " column " +:+ Go.fmt_q name
                +:+ " default differs")
               (<[ "primary_default" := VOptString (Default pCol) ]>
                  (<[ "replica_default" := VOptString (Default rCol) ]> (columnMeta table name)))]
          else [])
      ++ (if bool_decide (Collation pCol ≠ Collation rCol) then
            [mkFinding SeverityWarn
               ("table " +:+ Go.fmt_q table +:+ " column " +:+ Go.fmt_q name
                +:+ " collation differs")
               (<[ "primary_collation" := VString (Collation pCol) ]>
                  (<[ "replica_collation" := VString (Collation rCol) ]> (columnMeta table name)))]
          else [])
  end.

(** Go leaves the order in which [range] visits a map unspecified; the
    model visits the entries in the order of [map_to_list], and nothing
    proved below depends on that order. *)
Definition compareColumns (table : string) (primaryCols replicaCols : list Column)
  : list Finding :=
  let primaryIndex := columnIndex primaryCols in
  let replicaIndex := columnIndex replicaCols in
  flat_map (λ '(name, pCol), compareColumn table name pCol replicaIndex)
    (map_to_list primaryIndex)
  ++ flat_map (λ '(name, _),
       match primaryIndex !! name with
       | None =>
           [mkFinding SeverityWarn
              ("table " +:+ Go.fmt_q table +:+ " has extra column " +:+ Go.fmt_q name
               +:+ " on replica")
              (columnMeta table name)]
       | Some _ => []
       end)
    (map_to_list replicaIndex).

(** The findings of [compareSchemas] for one table of the primary. *)
Definition compareTable (name : string) (pTable : Table)
    (replicaTables : gmap string Table) : list Finding :=
  match replicaTables !! name with
  | None =>
      [mkFinding SeverityBlock ("table " +:+ Go.fmt_q name +:+ " missing on replica")
         {[ "table" := VString name ]}]
  | Some rTable =>
      comparePrimaryKey name (PrimaryKey pTable) (PrimaryKey rTable)
      ++ compareColumns name (Columns pTable) (Columns rTable)
  end.

Definition compareSchemas (primary replica : Schema) : list Finding :=
  let primaryTables := tableIndex (Tables primary) in
  let replicaTables := tableIndex (Tables replica) in
  flat_map (λ '(name, pTable), compareTable name pTable replicaTables)
    (map_to_list primaryTables)
  ++ flat_map (λ '(name, _),
       match primaryTables !! name with
       | None =>
           [mkFinding SeverityWarn
              ("extra table " +:+ Go.fmt_q name +:+ " exists on replica")
              {[ "table" := VString name ]}]
       | Some _ => []
       end)
    (map_to_list replicaTables).

(** [SchemaParityCheck.Run]. *)
Definition SchemaParityCheck_Run (c : SchemaParityCheck) (input : Input) (w : W)
  : (list Finding * option Go.error) * W :=
  match Inspector c with
  | None => (([], Some "schema inspector is required"), w)
  | Some inspect =>
      if bool_decide (PrimaryHost c = "") || bool_decide (ReplicaHost c = "") then
        (([], Some "primary and replica hosts are required"), w)
      else
        let '((primary, err), w) := inspect (PrimaryHost c) w in
        match err with
        | Some e => (([], Some ("failed to read primary schema: " +:+ e)), w)
        | None =>
            let '((replica, err), w) := inspect (ReplicaHost c) w in
            match err with
            | Some e => (([], Some ("failed to read replica schema: " +:+ e)), w)
            | None => ((compareSchemas primary replica, None), w)
            end
        end
  end.

(** A [*SchemaParityCheck] seen through the [PreflightCheck] interface. *)
Definition SchemaParityCheck_check (c : SchemaParityCheck) : PreflightCheck :=
  mkCheck "schema_parity" (SchemaParityCheck_Run c) true.

End Checks.
End Checks.

(* ===================================================================== *)
(** ** The Debezium health check (package [cdc]) *)
(* ===================================================================== *)

Module Cdc.
Section Debezium.

Context {W : Type} `{!Go.Fmt}.

(** [time_Now w] is what [time.Now()] returns in the world [w], in
    nanoseconds. *)
Variable time_Now : W → Z.

Record TaskStatus := mkTaskStatus {
  ID : Z;
  Task_State : string;
  Task_Worker : string;
  Trace : string
}.

Record ConnectorStatus := mkConnectorStatus {
  Name : string;
  ConnectorState : string;
  ConnectorWorker : string;
  Tasks : list TaskStatus;
  RestartCount : Z;
  LastRestartAt : option Z
}.

Definition DebeziumInspector := string → W → (ConnectorStatus * option Go.error) * W.

Record DebeziumHealthCheck := mkDebeziumHealthCheck {
  Inspector : option DebeziumInspector;
  Connector : string;
  RestartLoopWindow : Z;
  RestartLoopMax : Z
}.

Definition isRestartLoop (status : ConnectorStatus) (window : Z) (max : Z) (now : Z) : bool :=
  match LastRestartAt status with
  | None => false
  | Some t =>
      if RestartCount status <? max then false
      else Go.time_Since now t <=? window
  end.

Definition statusUnreadable (connector : string) (err : Go.error) : Finding :=
  mkFinding SeverityBlock ("failed to read Debezium connector status: " +:+ err)
    {[ "connector" := VString connector ]}.

Definition connectorNotRunning (status : ConnectorStatus) : Finding :=
  mkFinding SeverityBlock
    ("connector " +:+ Go.fmt_q (Name status) +:+ " is " +:+ ConnectorState status
     +:+ " (expected RUNNING)")
    (<[ "connector" := VString (Name status) ]>
       {[ "state" := VString (ConnectorState status) ]}).

Definition taskNotRunning (status : ConnectorStatus) (task : TaskStatus) : Finding :=
  mkFinding SeverityBlock
    ("connector " +:+ Go.fmt_q (Name status) +:+ " task " +:+ Go.itoa (ID task)
     +:+ " is " +:+ Task_State task)
    (<[ "connector" := VString (Name status) ]>
       (<[ "task_id" := VInt (ID task) ]>
          (<[ "state" := VString (Task_State task) ]>
             {[ "trace" := VString (Trace task) ]}))).

Definition restartLoop (status : ConnectorStatus) (window : Z) : Finding :=
  mkFinding SeverityBlock
    ("connector " +:+ Go.fmt_q (Name status) +:+ " appears to be in a restart loop ("
     +:+ Go.itoa (RestartCount status) +:+ " restarts within "
     +:+ Go.duration_String window +:+ ")")
    (<[ "connector" := VString (Name status) ]>
       (<[ "restart_count" := VInt (RestartCount status) ]>
          {[ "window" := VString (Go.duration_String window) ]})).

Definition healthy (status : ConnectorStatus) : Finding :=
  mkFinding SeverityInfo
    ("connector " +:+ Go.fmt_q (Name status) +:+ " and tasks are RUNNING")
    {[ "connector" := VString (Name status) ]}.

(** The loop over [status.Tasks]. *)
Fixpoint taskFindings (status : ConnectorStatus) (tasks : list TaskStatus) : list Finding :=
  match tasks with
  | [] => []
  | task :: rest =>
      if bool_decide (Task_State task ≠ "RUNNING")
      then taskNotRunning status task :: taskFindings status rest
      else taskFindings status rest
  end.

(** The findings [Run] builds from a status it could read. *)
Definition statusFindings (status : ConnectorStatus) (window max now : Z) : list Finding :=
  let findings :=
    (if bool_decide (ConnectorState status ≠ "RUNNING")
     then [connectorNotRunning status] else [])
    ++ taskFindings status (Tasks status)
    ++ (if isRestartLoop status window max now then [restartLoop status window] else []) in
  match findings with
  | [] => [healthy status]
  | _ => findings
  end.

(** The defaults [Run] stores in the check before it reads the status. *)
Definition withDefaults (c : DebeziumHealthCheck) : DebeziumHealthCheck :=
  mkDebeziumHealthCheck (Inspector c) (Connector c)
    (if bool_decide (RestartLoopWindow c = 0) then 10 * Go.Minute else RestartLoopWindow c)
    (if bool_decide (RestartLoopMax c = 0) then 3 else RestartLoopMax c).

(** [DebeziumHealthCheck.Run]; it has a pointer receiver, so the check
    it leaves behind is part of the result. *)
Definition DebeziumHealthCheck_Run (c : DebeziumHealthCheck) (input : Checks.Input) (w : W)
  : (list Finding * option Go.error) * (DebeziumHealthCheck * W) :=
  match Inspector c with
  | None => (([], Some "debezium inspector is required"), (c, w))
  | Some inspect =>
      if bool_decide (Connector c = "") then
        (([], Some "connector name is required"), (c, w))
      else
        let c := withDefaults c in
        let '((status, err), w) := inspect (Connector c) w in
        match err with
        | Some e => (([statusUnreadable (Connector c) e], None), (c, w))
        | None =>
            ((statusFindings status (RestartLoopWindow c) (RestartLoopMax c) (time_Now w),
              None), (c, w))
        end
  end.

(** A [*DebeziumHealthCheck] seen through the [PreflightCheck]
    interface.  Storing the defaults twice stores the same values, so
    the check left behind by one run behaves like the original. *)
Definition DebeziumHealthCheck_check (c : DebeziumHealthCheck) : Checks.PreflightCheck :=
  Checks.mkCheck "cdc_debezium_health"
    (λ input w, let '(res, (_, w)) := DebeziumHealthCheck_Run c input w in (res, w))
    true.

End Debezium.
End Cdc.

(* ===================================================================== *)
(** ** The replica upgrade orchestrator (package [mysql]) *)
(* ===================================================================== *)

Module Mysql.
Section Orchestrator.

Context {S : Type} `{!State S} {W : Type} `{!Go.Fmt}.

Record ReplicationStatus := mkReplicationStatus {
  IOThreadRunning : bool;
  SQLThreadRunning : bool
}.

Record ReplicaInspector := mkReplicaInspector {
  IsPrimary : string → W → (bool * option Go.error) * W;
  ReplicationStatus_ : string → W → (ReplicationStatus * option Go.error) * W
}.

Record ReplicaActions := mkReplicaActions {
  StopReplication : string → W → option Go.error * W;
  RunUpgrade : string → W → option Go.error * W;
  StartReplication : string → W → option Go.error * W
}.

(** The calls made on the two collaborators, in order: the record by
    which a run is observed. *)
Inductive Call :=
| CallIsPrimary (host : string)
| CallReplicationStatus (replica : string)
| CallStopReplication (replica : string)
| CallRunUpgrade (replica : string)
| CallStartReplication (replica : string).

Definition isAction (c : Call) : bool :=
  match c with
  | CallStopReplication _ | CallRunUpgrade _ | CallStartReplication _ => true
  | _ => false
  end.

Definition isStop (c : Call) : bool :=
  match c with CallStopReplication _ => true | _ => false end.
Definition isUpgrade (c : Call) : bool :=
  match c with CallRunUpgrade _ => true | _ => false end.
Definition isStart (c : Call) : bool :=
  match c with CallStartReplication _ => true | _ => false end.

Definition invocations (kind : Call → bool) (calls : list Call) : nat :=
  length (List.filter kind calls).

Record UpgradeOrchestrator := mkUpgradeOrchestrator {
  Inspector : option ReplicaInspector;
  Actions : option ReplicaActions;
  State_ : option S;
  Primary : string;
  Logger : list string
}.

Definition stoppedKey (replica : string) : string :=
  "replica_upgrade:" +:+ replica +:+ ":stopped".
Definition upgradedKey (replica : string) : string :=
  "replica_upgrade:" +:+ replica +:+ ":upgraded".
Definition resumedKey (replica : string) : string :=
  "replica_upgrade:" +:+ replica +:+ ":resumed".

Definition getBool (state : option S) (key : string) : bool * bool :=
  match state with
  | None => (false, false)
  | Some st =>
      match Get st key with
      | None => (false, false)
      | Some (VBool b) => (b, true)
      | Some _ => (false, false)
      end
  end.

Definition setBool (state : option S) (key : string) (value : bool) : option S :=
  match state with
  | None => None
  | Some st => Some (Set_ key (VBool value) st)
  end.

Definition about (severity : Severity) (message replica : string) : Finding :=
  mkFinding severity message {[ "replica" := VString replica ]}.

Definition detectPartialProgress (replica : string) (status : ReplicationStatus)
    (state : option S) : list Finding :=
  let stopped := fst (getBool state (stoppedKey replica)) in
  let resumed := fst (getBool state (resumedKey replica)) in
  let threadsRunning := IOThreadRunning status && SQLThreadRunning status in
  let threadsStopped := negb (IOThreadRunning status) && negb (SQLThreadRunning status) in
  (if threadsStopped && negb stopped
   then [about SeverityWarn "replication appears stopped but checkpoint is missing" replica]
   else [])
  ++ (if threadsRunning && stopped && negb resumed
      then [about SeverityWarn
              "checkpoint indicates replication stopped but status is running" replica]
      else [])
  ++ (if threadsStopped && resumed
      then [about SeverityWarn
              "checkpoint indicates replication started but status is stopped" replica]
      else []).

(** The findings [Run] starts from: a single Warn when the replication
    status could not be read, else what [detectPartialProgress] says. *)
Definition statusReport (replica : string) (status : ReplicationStatus)
    (err : option Go.error) (state : option S) : list Finding :=
  match err with
  | Some e => [about SeverityWarn ("unable to read replication status: " +:+ e) replica]
  | None => detectPartialProgress replica status state
  end.

(** What [Run] has accumulated when it reaches the mutating phases. *)
Record Progress := mkProgress {
  p_state : option S;
  p_log : list string;
  p_world : W;
  p_calls : list Call;
  p_summary : Summary;
  p_findings : list Finding
}.

(** [findings = append(findings, f); applySummary(&summary, ...)] with
    the finding just appended. *)
Definition report (p : Progress) (f : Finding) : Progress :=
  mkProgress (p_state p) (p_log p) (p_world p) (p_calls p)
    (applySummary (p_summary p) [f]) (p_findings p ++ [f]).

(** [appendBlock]. *)
Definition appendBlock (p : Progress) (message : string) : Progress :=
  report p (mkFinding SeverityBlock message ∅).

(** The three mutating phases of [Run] are the same block of code up to
    the checkpoint key, the action and the texts; [phase] is that
    block.  [inl] goes on to the code after the block, [inr] is the
    [return appendBlock(...)] inside it. *)
Definition phase (key starting : string) (call : Call)
    (action : W → option Go.error * W) (failed done already replica : string)
    (p : Progress) : Progress + Progress :=
  if fst (getBool (p_state p) key) then
    inl (report p (about SeverityInfo already replica))
  else
    let '(err, w) := action (p_world p) in
    let p := mkProgress (p_state p) (p_log p ++ [starting +:+ replica]) w
               (p_calls p ++ [call]) (p_summary p) (p_findings p) in
    match err with
    | Some e => inr (appendBlock p (failed +:+ e))
    | None =>
        let p := mkProgress (setBool (p_state p) key true) (p_log p) (p_world p)
                   (p_calls p) (p_summary p) (p_findings p) in
        inl (report p (about SeverityInfo done replica))
    end.

Definition stopPhase (acts : ReplicaActions) (replica : string)
  : Progress → Progress + Progress :=
  phase (stoppedKey replica) "stopping replication on " (CallStopReplication replica)
    (StopReplication acts replica) "failed to stop replication: "
    "replication stopped" "replication already stopped" replica.

Definition upgradePhase (acts : ReplicaActions) (replica : string)
  : Progress → Progress + Progress :=
  phase (upgradedKey replica) "running upgrade on " (CallRunUpgrade replica)
    (RunUpgrade acts replica) "upgrade failed: "
    "upgrade completed" "upgrade already completed" replica.

Definition startPhase (acts : ReplicaActions) (replica : string)
  : Progress → Progress + Progress :=
  phase (resumedKey replica) "starting replication on " (CallStartReplication replica)
    (StartReplication acts replica) "failed to start replication: "
    "replication started" "replication already started" replica.

Definition andThen (r : Progress + Progress) (k : Progress → Progress + Progress)
  : Progress + Progress :=
  match r with
  | inl p => k p
  | inr p => inr p
  end.

(** Stop replication, run the upgrade, start replication. *)
Definition phases (acts : ReplicaActions) (replica : string) (p : Progress)
  : Progress + Progress :=
  andThen (andThen (stopPhase acts replica p) (upgradePhase acts replica))
    (startPhase acts replica).

(** The result of a run: summary, findings and error, then the
    orchestrator (store and log) and the world it leaves behind, and
    the calls it made. *)
Definition Outcome : Type :=
  (Summary * list Finding * option Go.error) * (UpgradeOrchestrator * W * list Call).

Definition returning (o : UpgradeOrchestrator) (r : Progress + Progress) : Outcome :=
  let p := match r with inl p => p | inr p => p end in
  ((p_summary p, p_findings p, None),
   (mkUpgradeOrchestrator (Inspector o) (Actions o) (p_state p) (Primary o) (p_log p),
    p_world p, p_calls p)).

Definition refused (message : string) (meta : gmap string Value)
  : Summary * list Finding * option Go.error :=
  (mkSummary 0 0 1, [mkFinding SeverityBlock message meta], None).

(** [UpgradeOrchestrator.Run]. *)
Definition Run (o : UpgradeOrchestrator) (replica : string) (w : W) : Outcome :=
  let replica := Go.TrimSpace replica in
  if bool_decide (replica = "") then
    (refused "replica is required" ∅, (o, w, []))
  else
    match Inspector o, Actions o with
    | Some inspector, Some acts =>
        let '((isPrimary, err), w) := IsPrimary inspector replica w in
        let calls := [CallIsPrimary replica] in
        match err with
        | Some e =>
            (refused ("failed to determine primary status: " +:+ e) ∅, (o, w, calls))
        | None =>
            if isPrimary || (bool_decide (Primary o ≠ "") && bool_decide (replica = Primary o))
            then
              (refused "refusing to upgrade primary" {[ "replica" := VString replica ]},
               (o, w, calls))
            else
              let '((status, err), w) := ReplicationStatus_ inspector replica w in
              let calls := calls ++ [CallReplicationStatus replica] in
              let findings := statusReport replica status err (State_ o) in
              let summary := applySummary Summary_zero findings in
              let p := mkProgress (State_ o) (Logger o) w calls summary findings in
              if hasBlock findings then returning o (inr p)
              else returning o (phases acts replica p)
        end
    | _, _ => ((Summary_zero, [], Some "inspector and actions are required"), (o, w, []))
    end.

Definition summary_of (out : Outcome) : Summary := fst (fst (fst out)).
Definition findings_of (out : Outcome) : list Finding := snd (fst (fst out)).
Definition error_of (out : Outcome) : option Go.error := snd (fst out).
Definition orchestrator_after (out : Outcome) : UpgradeOrchestrator := fst (fst (snd out)).
Definition world_after (out : Outcome) : W := snd (fst (snd out)).
Definition calls_of (out : Outcome) : list Call := snd (snd out).

(** A second run in sequence: with the orchestrator, hence the
    checkpoint store, and the world the first run left behind. *)
Definition rerun (out : Outcome) (replica : string) : Outcome :=
  Run (orchestrator_after out) replica (world_after out).

(** Two runs in sequence that call each of the three actions exactly
    once in total. *)
Definition each_action_once (o : UpgradeOrchestrator) (replica : string) (w : W) : Prop :=
  let first := Run o replica w in
  let second := rerun first replica in
  invocations isStop (calls_of first ++ calls_of second) = 1%nat
  ∧ invocations isUpgrade (calls_of first ++ calls_of second) = 1%nat
  ∧ invocations isStart (calls_of first ++ calls_of second) = 1%nat.

(** A run that refuses its target: exactly one finding, a Block, no
    call of an action, and no call of the inspector beyond the primary
    check. *)
Definition refuses (o : UpgradeOrchestrator) (target : string) (w : W) : Prop :=
  let out := Run o target w in
  (∃ f, findings_of out = [f] ∧ Severity_of f = SeverityBlock)
  ∧ invocations isAction (calls_of out) = 0%nat
  ∧ (calls_of out = [] ∨ calls_of out = [CallIsPrimary (Go.TrimSpace target)]).

End Orchestrator.
End Mysql.

(* ===================================================================== *)
(** ** The promotion gate (package [workflow]) *)
(* ===================================================================== *)

Module Promotion.
Section Gate.

Context {W : Type} `{!Go.Fmt}.

Record PromotionGate := mkPromotionGate {
  Checks : list (Checks.PreflightCheck (W:=W));
  RequiredCheckNames : list string;
  ConfirmationPhrase : string;
  Logger : list string
}.

Definition missingChecks (required : list string)
    (checksList : list (Checks.PreflightCheck (W:=W))) : list string :=
  let seen : gset string := list_to_set (map Checks.Check_Name checksList) in
  filter (λ name, name ∉ seen) required.

(** The body of the inner loop of [flattenResults]: a finding without a
    ["check"] entry gets the name of its check. *)
Definition tagged (checkName : string) (f : Finding) : Finding :=
  match Meta f !! "check" with
  | Some _ => f
  | None => mkFinding (Severity_of f) (Message f) (<[ "check" := VString checkName ]> (Meta f))
  end.

Definition flattenResults (results : list Checks.Result) : list Finding :=
  flat_map (λ r, map (tagged (Checks.CheckName r)) (Checks.Findings r)) results.

Definition confirmationRequired (g : PromotionGate) : Finding :=
  mkFinding SeverityBlock "promotion requires explicit confirmation"
    {[ "required" := VString (ConfirmationPhrase g) ]}.

Definition checksRequired (missing : list string) : Finding :=
  mkFinding SeverityBlock ("promotion requires checks: " +:+ Go.Join missing ", ")
    {[ "missing" := VStrings missing ]}.

Definition promotionBlocked (summary : Summary) : Finding :=
  mkFinding SeverityBlock
    ("promotion blocked due to WARN/BLOCK findings (WARN=" +:+ Go.itoa (Warn summary)
     +:+ ", BLOCK=" +:+ Go.itoa (Block summary) +:+ ")")
    (<[ "warn" := VInt (Warn summary) ]> {[ "block" := VInt (Block summary) ]}).

Definition requiredNames (g : PromotionGate) : list string :=
  match RequiredCheckNames g with
  | [] => ["cdc_debezium_health"; "schema_parity"]
  | required => required
  end.

(** [PromotionGate.Run]: summary, findings and error, then the log and
    the world it leaves behind. *)
Definition PromotionGate_Run (g : PromotionGate) (input : Checks.Input)
    (confirmation : string) (w : W)
  : (Summary * list Finding * option Go.error) * (list string * W) :=
  if bool_decide (Go.TrimSpace (ConfirmationPhrase g) = "") then
    ((Summary_zero, [], Some "confirmation phrase is required"), (Logger g, w))
  else if bool_decide (confirmation ≠ ConfirmationPhrase g) then
    ((mkSummary 0 0 1, [confirmationRequired g], None), (Logger g, w))
  else
    let missing := missingChecks (requiredNames g) (Checks g) in
    if bool_decide (0 < length missing)%nat then
      ((mkSummary 0 0 1, [checksRequired missing], None), (Logger g, w))
    else
      let runner := Checks.NewRunner (Checks g) (Logger g) in
      let '((summary, results, err), (logger, w)) := Checks.Runner_Run runner input w in
      match err with
      | Some e => ((Summary_zero, [], Some e), (logger, w))
      | None =>
          let findings := flattenResults results in
          if bool_decide (0 < Warn summary) || bool_decide (0 < Block summary) then
            ((mkSummary (Info summary) (Warn summary) (Block summary + 1),
              findings ++ [promotionBlocked summary], None), (logger, w))
          else
            ((summary, findings, None), (logger, w))
      end.

End Gate.
End Promotion.

(* ===================================================================== *)
(** ** Sample inputs

    The collaborators of the command line ([cmd/migratorx]) and the fakes
    of the tests, used below to evaluate the code. *)
(* ===================================================================== *)

Module Samples.

#[local] Existing Instance sampleFmt.

(** *** Workflow runner: steps in the style of [NewReadOnlyStep] *)

Definition ReadOnlyStep (name : string) (findings : list Finding)
    (err : option Go.error) : Workflow.Step (S:=MemoryState.t) (W:=unit) :=
  Workflow.mkStep name (λ st w, ((Workflow.mkStepResult findings, err), (st, w))) true false.

Definition preflight := ReadOnlyStep "preflight" [mkFinding SeverityInfo "preflight ok" ∅] None.

Definition validate_replica :=
  ReadOnlyStep "validate_replica" [mkFinding SeverityWarn "replica lag observed" ∅] None.

Definition cdc_check :=
  ReadOnlyStep "cdc_check" [mkFinding SeverityInfo "connector reachable" ∅]
    (Some "schema history topic unreachable").

Definition post_validation :=
  ReadOnlyStep "post_validation" [mkFinding SeverityInfo "schemas match" ∅] None.

(** In the style of [NewMutatingStep]. *)
Definition MutatingStep (name : string) (findings : list Finding)
    (err : option Go.error) : Workflow.Step (S:=MemoryState.t) (W:=unit) :=
  Workflow.mkStep name (λ st w, ((Workflow.mkStepResult findings, err), (st, w))) true true.

Definition upgrade_replica :=
  MutatingStep "upgrade_replica" [mkFinding SeverityInfo "upgraded" ∅] None.

(** [badStep] of the runner's tests. *)
Definition badStep : Workflow.Step (S:=MemoryState.t) (W:=unit) :=
  Workflow.mkStep "bad" (λ st w, ((Workflow.mkStepResult [], None), (st, w))) false false.

Definition neverDone : unit → option Go.error := λ _, None.

Definition runner (steps : list (Workflow.Step (S:=MemoryState.t) (W:=unit)))
  : Workflow.Runner :=
  Workflow.NewRunner steps MemoryState.NewMemoryState false.

(** *** Checks runner: the world counts the checks that have run *)

Definition countingCheck (name : string) (findings : list Finding)
    (err : option Go.error) (readOnly : bool) : Checks.PreflightCheck (W:=nat) :=
  Checks.mkCheck name (λ _ n, ((findings, err), Datatypes.S n)) readOnly.

Definition infoCheck := countingCheck "info" [mkFinding SeverityInfo "ok" ∅] None true.

(** [mutatingCheck] of the runner's tests. *)
Definition mutatingCheck :=
  countingCheck "mutating" [mkFinding SeverityInfo "should not run" ∅] None false.

Definition noInput : Checks.Input := Checks.mkInput None.

(** The checks of [TestRunner_ErrorBecomesBlock] and
    [TestRunner_RequiresMessage]. *)
Definition failsCheck := countingCheck "fails" [] (Some "context canceled") true.

Definition missingMessage :=
  countingCheck "missing-message" [mkFinding SeverityWarn "" ∅] None true.

(** *** Promotion gate: the checks of [TestPromotionGate_WarnBlocksPromotion] *)

Definition cdcLag : Checks.PreflightCheck (W:=unit) :=
  Checks.mkCheck "cdc_debezium_health"
    (λ _ w, (([mkFinding SeverityWarn "cdc lag" ∅], None), w)) true.

Definition schemaOk : Checks.PreflightCheck (W:=unit) :=
  Checks.mkCheck "schema_parity"
    (λ _ w, (([mkFinding SeverityInfo "ok" ∅], None), w)) true.

Definition gate : Promotion.PromotionGate (W:=unit) :=
  Promotion.mkPromotionGate [cdcLag; schemaOk] [] "PROMOTE" [].

(** *** Schema parity: [TestSchemaParity_PKMissingOnReplicaBlocks] *)

Definition primarySchema : Checks.Schema :=
  Checks.mkSchema [Checks.mkTable "t" [] ["id"]].

Definition replicaSchema : Checks.Schema :=
  Checks.mkSchema [Checks.mkTable "t" [] []].

(** A schema inspector whose reads fail. *)
Definition unreachable : Checks.SchemaInspector (W:=unit) :=
  λ _ w, ((Checks.mkSchema [], Some "connection refused"), w).

Definition parityCheck : Checks.SchemaParityCheck (W:=unit) :=
  Checks.mkSchemaParityCheck (Some unreachable) "mysql-primary" "mysql-replica-1".

(** *** Debezium: [TestDebeziumHealthCheck_RestartLoopBlocks]; the world
    is the clock *)

Definition restarting (now : Z) : Cdc.ConnectorStatus :=
  Cdc.mkConnectorStatus "mysql-prod" "RUNNING" ""
    [Cdc.mkTaskStatus 0 "RUNNING" "" ""] 5 (Some (now - 2 * Go.Minute)).

(** [TestDebeziumHealthCheck_ConnectorStoppedBlocks] and
    [TestDebeziumHealthCheck_HealthyInfo]. *)
Definition paused : Cdc.ConnectorStatus :=
  Cdc.mkConnectorStatus "mysql-prod" "PAUSED" "" [Cdc.mkTaskStatus 0 "RUNNING" "" ""] 0 None.

Definition steady : Cdc.ConnectorStatus :=
  Cdc.mkConnectorStatus "mysql-prod" "RUNNING" "" [Cdc.mkTaskStatus 0 "RUNNING" "" ""] 0 None.

Definition reporting (status : Cdc.ConnectorStatus) : Cdc.DebeziumHealthCheck (W:=Z) :=
  Cdc.mkDebeziumHealthCheck (Some (λ _ now, ((status, None), now))) "mysql-prod" 0 0.

Definition debeziumCheck : Cdc.DebeziumHealthCheck (W:=Z) :=
  Cdc.mkDebeziumHealthCheck (Some (λ _ now, ((restarting now, None), now)))
    "mysql-prod" (10 * Go.Minute) 3.

(** A connector restarted five times, the last time [2 ^ 64]
    nanoseconds (some 584 years) before the instant [0], and a check
    whose window is the largest duration. *)
Definition longAgo : Cdc.ConnectorStatus :=
  Cdc.mkConnectorStatus "mysql-prod" "RUNNING" ""
    [Cdc.mkTaskStatus 0 "RUNNING" "" ""] 5 (Some (- 2 ^ 64)).

Definition widestWindow : Cdc.DebeziumHealthCheck (W:=Z) :=
  Cdc.mkDebeziumHealthCheck (Some (λ _ now, ((longAgo, None), now)))
    "mysql-prod" Go.maxDuration 3.

(** *** Replica upgrade: [staticReplicaInspector] and [simulatedActions]
    of the command line *)

Definition running : Mysql.ReplicationStatus := Mysql.mkReplicationStatus true true.

Definition staticReplicaInspector (isPrimary : bool) (status : Mysql.ReplicationStatus)
  : Mysql.ReplicaInspector (W:=unit) :=
  Mysql.mkReplicaInspector (λ _ w, ((isPrimary, None), w)) (λ _ w, ((status, None), w)).

(** An inspector that answers the primary check and fails to read the
    replication status. *)
Definition statusUnreadable : Mysql.ReplicaInspector (W:=unit) :=
  Mysql.mkReplicaInspector (λ _ w, ((false, None), w))
    (λ _ w, ((Mysql.mkReplicationStatus false false, Some "connection refused"), w)).

Definition simulatedActions : Mysql.ReplicaActions (W:=unit) :=
  Mysql.mkReplicaActions (λ _ w, (None, w)) (λ _ w, (None, w)) (λ _ w, (None, w)).

(** The actions of [TestUpgradeOrchestrator_BlockStopsFlow]. *)
Definition failingUpgrade : Mysql.ReplicaActions (W:=unit) :=
  Mysql.mkReplicaActions (λ _ w, (None, w)) (λ _ w, (Some "boom", w)) (λ _ w, (None, w)).

Definition orchestrator (inspector : Mysql.ReplicaInspector (W:=unit))
    (actions : option (Mysql.ReplicaActions (W:=unit))) (store : MemoryState.t)
    (primary : string)
  : Mysql.UpgradeOrchestrator :=
  Mysql.mkUpgradeOrchestrator (Some inspector) actions (Some store) primary [].

(** The store of [TestUpgradeOrchestrator_IdempotentRerun]. *)
Definition upgradedStore : MemoryState.t :=
  Set_ "replica_upgrade:replica-1:resumed" (VBool true)
    (Set_ "replica_upgrade:replica-1:upgraded" (VBool true)
       (Set_ "replica_upgrade:replica-1:stopped" (VBool true) MemoryState.NewMemoryState)).

(** A first run on an empty store; a run on the store above; a plan whose
    primary hostname starts with a blank; an orchestrator built without
    actions; an orchestrator that cannot read the replication status. *)
Definition fresh : Mysql.UpgradeOrchestrator :=
  orchestrator (staticReplicaInspector false running) (Some simulatedActions)
    MemoryState.NewMemoryState "mysql-primary".

Definition upgraded : Mysql.UpgradeOrchestrator :=
  orchestrator (staticReplicaInspector false running) (Some simulatedActions)
    upgradedStore "mysql-primary".

Definition paddedPrimary : Mysql.UpgradeOrchestrator :=
  orchestrator (staticReplicaInspector false running) (Some simulatedActions)
    MemoryState.NewMemoryState " mysql-primary".

Definition withoutActions : Mysql.UpgradeOrchestrator :=
  orchestrator (staticReplicaInspector true running) None
    MemoryState.NewMemoryState "mysql-primary".

Definition blindToStatus : Mysql.UpgradeOrchestrator :=
  orchestrator statusUnreadable (Some simulatedActions)
    MemoryState.NewMemoryState "mysql-primary".

End Samples.

(* ===================================================================== *)
(** ** The result aggregator (package [workflow]) *)
(* ===================================================================== *)

Module Aggregator.

Record ResultAggregator := mkResultAggregator {
  summary : Summary;
  blocked : bool
}.

(** The zero value [&ResultAggregator{}]. *)
Definition empty : ResultAggregator := mkResultAggregator Summary_zero false.

(** [AddFindings]: its loop is the aggregation loop of [Runner.Run],
    entered with the fields of the aggregator; the result is the value
    returned and the aggregator left behind. *)
Definition AddFindings (a : ResultAggregator) (findings : list Finding)
  : bool * ResultAggregator :=
  let '(s, b) := Workflow.aggregate (summary a) (blocked a) findings in
  (negb b, mkResultAggregator s b).

Definition Summary_ (a : ResultAggregator) : Summary := summary a.

Definition Blocked (a : ResultAggregator) : bool := blocked a.

Definition SummaryString (a : ResultAggregator) : string :=
  "Summary: " +:+ Go.itoa (Info (summary a)) +:+ " INFO / "
  +:+ Go.itoa (Warn (summary a)) +:+ " WARN / "
  +:+ Go.itoa (Block (summary a)) +:+ " BLOCK".

End Aggregator.

(* ===================================================================== *)
(** ** Stores and steps that never take a completion mark back *)
(* ===================================================================== *)

(** A store on which marking one step leaves the marks of the others. *)
Class KeepsCompleted (S : Type) `{!State S} : Prop := {
  MarkCompleted_keeps :
    ∀ (s : S) n n', IsCompleted s n' = true → IsCompleted (MarkCompleted n s) n' = true
}.

(** A step whose [Run] leaves every mark it finds. *)
Definition keepsMarks {S W : Type} `{!State S} (step : Workflow.Step (S:=S) (W:=W)) : Prop :=
  ∀ st w n,
    IsCompleted st n = true →
    IsCompleted (fst (snd (Workflow.Run step st w))) n = true.

(* ===================================================================== *)
(** ** More sample inputs *)
(* ===================================================================== *)

Module MoreSamples.

(** A context that is already cancelled. *)
Definition cancelled : unit → option Go.error := λ _, Some "context canceled".

(** A store in which [preflight] and [validate_replica] are marked. *)
Definition bothMarked : MemoryState.t :=
  MarkCompleted "validate_replica" (MarkCompleted "preflight" MemoryState.NewMemoryState).

End MoreSamples.

(* ===================================================================== *)
(** ** The schema history check (package [cdc]) *)
(* ===================================================================== *)

Module Kafka.

(** [strings.ToLower] follows the Unicode case tables and is kept
    abstract. *)
Class Lower := { ToLower : string → string }.

Section SchemaHistory.

Context {W : Type} `{!Go.Fmt} `{!Lower}.

Record KafkaInspector := mkKafkaInspector {
  TopicExists : string → W → (bool * option Go.error) * W;
  TopicReadable : string → W → (bool * option Go.error) * W;
  SchemaHistoryTables : string → W → (list string * option Go.error) * W
}.

Record SchemaHistoryCheck := mkSchemaHistoryCheck {
  Inspector : option KafkaInspector;
  Topic : string;
  ExpectedTables : list string
}.

(** The key under which a table name is compared. *)
Definition key (t : string) : string := ToLower (Go.TrimSpace t).

(** The second loop of [missingTables]. *)
Fixpoint uncovered (coveredSet : gset string) (expected : list string) : list string :=
  match expected with
  | [] => []
  | t :: rest =>
      if decide (key t = "") then uncovered coveredSet rest
      else if decide (key t ∈ coveredSet) then uncovered coveredSet rest
      else t :: uncovered coveredSet rest
  end.

Definition missingTables (expected covered : list string) : list string :=
  match expected with
  | [] => []
  | _ => uncovered (list_to_set (map key covered)) expected
  end.

Definition about (severity : Severity) (message : string) (c : SchemaHistoryCheck) : Finding :=
  mkFinding severity message {[ "topic" := VString (Topic c) ]}.

Definition missingCoverage (c : SchemaHistoryCheck) (missing : list string) : Finding :=
  mkFinding SeverityBlock ("schema history missing tables: " +:+ Go.Join missing ", ")
    (<[ "topic" := VString (Topic c) ]> {[ "missing_tables" := VStrings missing ]}).

(** [SchemaHistoryCheck.Run]. *)
Definition SchemaHistoryCheck_Run (c : SchemaHistoryCheck) (input : Checks.Input) (w : W)
  : (list Finding * option Go.error) * W :=
  match Inspector c with
  | None => (([], Some "kafka inspector is required"), w)
  | Some inspector =>
      if bool_decide (Go.TrimSpace (Topic c) = "") then
        (([], Some "schema history topic is required"), w)
      else
        let '((exists_, err), w) := TopicExists inspector (Topic c) w in
        match err with
        | Some e =>
            (([about SeverityBlock
                 ("failed to check schema history topic " +:+ Go.fmt_q (Topic c)
                  +:+ ": " +:+ e) c], None), w)
        | None =>
            if negb exists_ then
              (([about SeverityBlock
                   ("schema history topic " +:+ Go.fmt_q (Topic c) +:+ " is missing") c],
                None), w)
            else
              let '((readable, err), w) := TopicReadable inspector (Topic c) w in
              match err with
              | Some e =>
                  (([about SeverityBlock
                       ("failed to read schema history topic " +:+ Go.fmt_q (Topic c)
                        +:+ ": " +:+ e) c], None), w)
              | None =>
                  if negb readable then
                    (([about SeverityBlock
                         ("schema history topic " +:+ Go.fmt_q (Topic c)
                          +:+ " is not readable") c], None), w)
                  else
                    let '((coveredTables, err), w) :=
                      SchemaHistoryTables inspector (Topic c) w in
                    match err with
                    | Some e =>
                        (([about SeverityBlock
                             ("failed to read schema history coverage for "
                              +:+ Go.fmt_q (Topic c) +:+ ": " +:+ e) c], None), w)
                    | None =>
                        let missing := missingTables (ExpectedTables c) coveredTables in
                        if bool_decide (0 < length missing)%nat then
                          (([missingCoverage c missing], None), w)
                        else
                          (([about SeverityInfo
                               ("schema history topic " +:+ Go.fmt_q (Topic c)
                                +:+ " is healthy") c], None), w)
                    end
              end
        end
  end.

(** A [*SchemaHistoryCheck] seen through the [PreflightCheck] interface. *)
Definition SchemaHistoryCheck_check (c : SchemaHistoryCheck) : Checks.PreflightCheck :=
  Checks.mkCheck "cdc_schema_history" (SchemaHistoryCheck_Run c) true.

End SchemaHistory.
End Kafka.

(** A stand-in for [strings.ToLower] that lowers the letters A to Z, which
    is what [ToLower] does on ASCII text. *)
Definition asciiLower : Kafka.Lower :=
  {| Kafka.ToLower :=
       λ s, string_of_list_ascii
              (map (λ c, let n := nat_of_ascii c in
                         if (65 <=? n)%nat && (n <=? 90)%nat
                         then ascii_of_nat (n + 32) else c)
                 (list_ascii_of_string s)) |}.

(* ===================================================================== *)
(** ** Validating a migration plan (package [workflow]) *)
(* ===================================================================== *)

Module Plan.
Section Validate.

Context `{!Go.Fmt}.

(** The canonical step order. *)
Definition SupportedSteps : list string :=
  ["preflight"; "upgrade_replica"; "validate_replica"; "cdc_check"; "promote";
   "post_validation"].

(** The loop of [supportedStepOrder] from index [i] on. *)
Fixpoint orderFrom (i : Z) (steps : list string) (order : gmap string Z) : gmap string Z :=
  match steps with
  | [] => order
  | s :: rest => orderFrom (i + 1) rest (<[ s := i ]> order)
  end.

Definition supportedStepOrder : gmap string Z := orderFrom 0 SupportedSteps ∅.

(** [if strings.TrimSpace(value) == "" { problems = append(problems, message) }]. *)
Definition required (value message : string) (problems : list string) : list string :=
  if decide (Go.TrimSpace value = "") then problems ++ [message] else problems.

(** The loop over the replicas, from index [i] on. *)
Fixpoint scanReplicas (i : Z) (replicas : list string) (problems : list string)
  : list string :=
  match replicas with
  | [] => problems
  | r :: rest =>
      scanReplicas (i + 1) rest
        (if decide (Go.TrimSpace r = "")
         then problems ++ ["topology.replicas[" +:+ Go.itoa i +:+ "] is empty"]
         else problems)
  end.

(** The loop over the steps, from index [i] on, with the names seen so
    far and the position of the last step accepted. *)
Fixpoint scanSteps (i : Z) (steps : list string) (seen : gset string) (lastPos : Z)
    (problems : list string) : list string :=
  match steps with
  | [] => problems
  | step :: rest =>
      let step := Go.TrimSpace step in
      if decide (step = "") then
        scanSteps (i + 1) rest seen lastPos
          (problems ++ ["steps[" +:+ Go.itoa i +:+ "] is empty"])
      else
        match supportedStepOrder !! step with
        | None =>
            scanSteps (i + 1) rest seen lastPos
              (problems ++ ["steps[" +:+ Go.itoa i +:+ "]=" +:+ Go.fmt_q step
                            +:+ " is not supported"])
        | Some pos =>
            if decide (step ∈ seen) then
              scanSteps (i + 1) rest seen lastPos
                (problems ++ ["steps[" +:+ Go.itoa i +:+ "]=" +:+ Go.fmt_q step
                              +:+ " is duplicated"])
            else if pos <? lastPos then
              scanSteps (i + 1) rest seen lastPos
                (problems ++ ["step order invalid at steps[" +:+ Go.itoa i +:+ "]="
                              +:+ Go.fmt_q step])
            else
              scanSteps (i + 1) rest ({[ step ]} ∪ seen) pos problems
        end
  end.

(** The problems [Validate] collects, in the order it finds them. *)
Definition problemsOf (p : MigrationPlan) : list string :=
  let problems := [] in
  let problems := required (Migration p) "migration is required" problems in
  let problems := required (SourceVersion p) "source_version is required" problems in
  let problems := required (TargetVersion p) "target_version is required" problems in
  let problems :=
    required (Topology_Primary (Plan_Topology p)) "topology.primary is required" problems in
  let problems :=
    match Replicas (Plan_Topology p) with
    | [] => problems ++ ["topology.replicas must include at least one replica"]
    | replicas => scanReplicas 0 replicas problems
    end in
  let problems := required (CDC_Type (CDC p)) "cdc.type is required" problems in
  let problems := required (CDC_Connector (CDC p)) "cdc.connector is required" problems in
  match Plan_Steps p with
  | [] => problems ++ ["steps must include at least one step"]
  | steps => scanSteps 0 steps ∅ (-1) problems
  end.

(** [MigrationPlan.Validate]. *)
Definition Validate (p : MigrationPlan) : option Go.error :=
  let problems := problemsOf p in
  if bool_decide (0 < length problems)%nat
  then Some ("migration plan validation failed: " +:+ Go.Join problems "; ")
  else None.

(** A plan with every required field, at least one replica and none
    blank, and at least one step, the steps being, once trimmed, a
    selection of the supported steps in their canonical order. *)
Definition wellFormed (p : MigrationPlan) : Prop :=
  Go.TrimSpace (Migration p) ≠ ""
  ∧ Go.TrimSpace (SourceVersion p) ≠ ""
  ∧ Go.TrimSpace (TargetVersion p) ≠ ""
  ∧ Go.TrimSpace (Topology_Primary (Plan_Topology p)) ≠ ""
  ∧ Replicas (Plan_Topology p) ≠ []
  ∧ Forall (λ r, Go.TrimSpace r ≠ "") (Replicas (Plan_Topology p))
  ∧ Go.TrimSpace (CDC_Type (CDC p)) ≠ ""
  ∧ Go.TrimSpace (CDC_Connector (CDC p)) ≠ ""
  ∧ Plan_Steps p ≠ []
  ∧ map Go.TrimSpace (Plan_Steps p) `sublist_of` SupportedSteps.

End Validate.
End Plan.

(* ===================================================================== *)
(** ** Sample inputs for the remaining packages *)
(* ===================================================================== *)

Module FurtherSamples.

#[local] Existing Instance sampleFmt.
#[local] Existing Instance asciiLower.

(** A replica whose replication was stopped by an earlier run. *)
Definition stoppedOnly : Mysql.UpgradeOrchestrator :=
  Samples.orchestrator (Samples.staticReplicaInspector false Samples.running)
    (Some Samples.simulatedActions)
    (Set_ "replica_upgrade:replica-1:stopped" (VBool true) MemoryState.NewMemoryState)
    "mysql-primary".

(** An orchestrator built without a checkpoint store. *)
Definition storeless : Mysql.UpgradeOrchestrator (S:=MemoryState.t) (W:=unit) :=
  Mysql.mkUpgradeOrchestrator
    (Some (Samples.staticReplicaInspector false Samples.running))
    (Some Samples.simulatedActions) None "mysql-primary" [].

(** The checks of [TestPromotionGate_AllowsWhenClean]. *)
Definition cdcOk : Checks.PreflightCheck (W:=unit) :=
  Checks.mkCheck "cdc_debezium_health"
    (λ _ w, (([mkFinding SeverityInfo "ok" ∅], None), w)) true.

Definition cleanGate : Promotion.PromotionGate (W:=unit) :=
  Promotion.mkPromotionGate [cdcOk; Samples.schemaOk] [] "PROMOTE" [].

(** Two snapshots of one table whose column [email] changed its type. *)
Definition email (type : string) : Checks.Column :=
  Checks.mkColumn "email" type false None "utf8mb4" "utf8mb4_0900_ai_ci".

Definition users (type : string) : Checks.Table :=
  Checks.mkTable "users" [email type] ["id"].

Definition usersOn (type : string) : Checks.Schema := Checks.mkSchema [users type].

(** A connector with one failed task. *)
Definition taskFailed : Cdc.ConnectorStatus :=
  Cdc.mkConnectorStatus "mysql-prod" "RUNNING" ""
    [Cdc.mkTaskStatus 0 "FAILED" "" "stack trace"] 0 None.

(** A schema history topic that exists and is readable; the world counts
    the reads. *)
Definition historyInspector (covered : list string) : Kafka.KafkaInspector (W:=nat) :=
  Kafka.mkKafkaInspector (λ _ n, ((true, None), Datatypes.S n))
    (λ _ n, ((true, None), Datatypes.S n))
    (λ _ n, ((covered, None), Datatypes.S n)).

Definition historyCheck (covered : list string) : Kafka.SchemaHistoryCheck (W:=nat) :=
  Kafka.mkSchemaHistoryCheck (Some (historyInspector covered)) "schema-history"
    ["app.users"; "app.orders"].

(** The plans of the validation tests. *)
Definition planWith (steps : list string) : MigrationPlan :=
  mkMigrationPlan "mysql_57_to_80" "5.7" "8.0"
    (mkTopology "mysql-primary" ["mysql-replica-1"])
    (mkCDCConfig "debezium" "mysql-prod") steps.

End FurtherSamples.

(* ===================================================================== *)
(** * Properties *)
(* ===================================================================== *)

(** *** The two checkpoint stores *)

#[global] Instance MemoryState_lawful : LawfulState MemoryState.t.
Proof.
  split.
  - intros s k v. cbn. unfold MemoryState.Get, MemoryState.Set_. cbn.
    apply lookup_insert_eq.
  - intros s k k' v Hne. cbn. unfold MemoryState.Get, MemoryState.Set_. cbn.
    by apply lookup_insert_ne.
  - intros s n. cbn. unfold MemoryState.IsCompleted, MemoryState.MarkCompleted. cbn.
    apply bool_decide_eq_true. set_solver.
Qed.

#[global] Instance FileState_lawful : LawfulState FileState.t.
Proof.
  split.
  - intros s k v. cbn. unfold FileState.Get, FileState.Set_. cbn.
    apply lookup_insert_eq.
  - intros s k k' v Hne. cbn. unfold FileState.Get, FileState.Set_. cbn.
    by apply lookup_insert_ne.
  - intros s n. cbn. unfold FileState.IsCompleted, FileState.MarkCompleted. cbn.
    by rewrite lookup_insert_eq.
Qed.

(** C10. In the file-backed store completion markers and user values
    share one key namespace: after [Set("workflow:"+s+":completed", true)]
    the step [s] is reported completed, and after [MarkCompleted(s)] the
    key ["workflow:"+s+":completed"] reads back as [true].  The in-memory
    store keeps the two in disjoint maps: the same [Set] leaves
    [IsCompleted(s)] as it was, false in particular on a store where [s]
    was not marked. *)
Theorem checkpoint_namespace_shared_in_file_state (s : string) :
  (∀ fs : FileState.t,
      IsCompleted (Set_ ("workflow:" +:+ s +:+ ":completed") (VBool true) fs) s = true)
  ∧ (∀ fs : FileState.t,
      Get (MarkCompleted s fs) ("workflow:" +:+ s +:+ ":completed") = Some (VBool true))
  ∧ (∀ m : MemoryState.t,
      IsCompleted (Set_ ("workflow:" +:+ s +:+ ":completed") (VBool true) m) s
      = IsCompleted m s)
  ∧ IsCompleted
      (Set_ ("workflow:" +:+ s +:+ ":completed") (VBool true) MemoryState.NewMemoryState) s
    = false.
Proof.
  split; [|split; [|split]].
  - intros fs. cbn. unfold FileState.IsCompleted, FileState.Set_, FileState.completedKey.
    cbn. by rewrite lookup_insert_eq.
  - intros fs. cbn. unfold FileState.Get, FileState.MarkCompleted, FileState.completedKey.
    cbn. by rewrite lookup_insert_eq.
  - intros m. reflexivity.
  - reflexivity.
Qed.

(** *** Counting findings *)

Lemma applySummary_cons s f fs :
  applySummary s (f :: fs) = applySummary (count_one s f) fs.
Proof. reflexivity. Qed.

Lemma applySummary_app s fs gs :
  applySummary s (fs ++ gs) = applySummary (applySummary s fs) gs.
Proof. unfold applySummary. apply fold_left_app. Qed.

Lemma hasBlock_app fs gs : hasBlock (fs ++ gs) = hasBlock fs || hasBlock gs.
Proof. unfold hasBlock. apply existsb_app. Qed.

(** *** The workflow runner *)

Section RunnerFacts.

Import Workflow.
Context {S : Type} `{!State S} {W : Type} `{!Go.Fmt}.
Variable ctx_Err : W → option Go.error.

Lemma aggregate_spec (findings : list Finding) : ∀ summary blocked,
  aggregate summary blocked findings
  = (applySummary summary findings, blocked || hasBlock findings).
Proof.
  induction findings as [|f fs IH]; intros summary blocked.
  - cbn. by rewrite orb_false_r.
  - rewrite applySummary_cons. unfold count_one. cbn [aggregate hasBlock existsb].
    unfold is_block at 1.
    destruct (Severity_of f); rewrite IH; cbn; try reflexivity.
    by rewrite orb_true_r.
Qed.

Lemma loop_app (pre post : list (Step (S:=S) (W:=W))) : ∀ r w summary,
  loop ctx_Err (pre ++ post) r w summary
  = match loop ctx_Err pre r w summary with
    | Continue r' w' summary' => loop ctx_Err post r' w' summary'
    | Return r' w' summary' err => Return r' w' summary' err
    end.
Proof.
  induction pre as [|s pre IH]; intros r w summary; cbn; [done|].
  destruct (iteration ctx_Err r w summary s); [apply IH | done].
Qed.

Lemma find_none_of_forallb (steps : list (Step (S:=S) (W:=W))) :
  forallb Idempotent steps = true →
  List.find (λ s, negb (Idempotent s)) steps = None.
Proof.
  induction steps as [|s steps IH]; cbn; [done|].
  intros [Hs Hrest]%andb_prop. rewrite Hs. cbn. by apply IH.
Qed.

Lemma iteration_executed r w summary step res err st w' :
  ctx_Err w = None →
  IsCompleted (State_ r) (Name step) = false →
  Mutates step && negb (AllowMutations r) = false →
  Run step (State_ r) w = ((res, err), (st, w')) →
  iteration ctx_Err r w summary step
  = let rec := recorded step res err in
    if hasBlock (Findings rec)
    then Return (halted r step st rec) w' (applySummary summary (Findings rec)) None
    else Continue (checkpointed r step st rec) w' (applySummary summary (Findings rec)).
Proof.
  intros Hctx Hdone Hmut Hrun. unfold iteration.
  rewrite Hctx, Hdone, Hmut. cbn. rewrite Hrun. cbn.
  rewrite aggregate_spec. cbn.
  destruct (hasBlock (Findings (recorded step res err))); unfold halted, checkpointed, Printf,
    set_result, set_State; cbn; by rewrite <- ?app_assoc.
Qed.

(** C1. Whenever the run reaches a step and executes it (the context is
    not done, the step is not yet completed and not refused for
    mutating): if the findings recorded for the step, its own followed
    by the Block made from a returned error, contain a Block, then [Run]
    returns there with the checkpoint store exactly as the step left it
    (the runner marks nothing) and the world as the step left it, so
    that no later step runs; otherwise the step is marked completed in
    the checkpoint store and [Run] goes on with the remaining steps. *)
Theorem block_halts_else_checkpoint_and_continue `{!LawfulState S}
    (r0 : Runner) (w0 : W) (pre post : list Step) (step : Step)
    (r : Runner) (w : W) (summary : Summary)
    (res : StepResult) (err : option Go.error) (st : S) (w' : W) :
  Steps r0 = (pre ++ step :: post) →
  forallb Idempotent (Steps r0) = true →
  loop ctx_Err pre r0 w0 Summary_zero = Continue r w summary →
  ctx_Err w = None →
  IsCompleted (State_ r) (Name step) = false →
  Mutates step && negb (AllowMutations r) = false →
  Run step (State_ r) w = ((res, err), (st, w')) →
  let rec := recorded step res err in
  (hasBlock (Findings rec) = true →
     Runner_Run ctx_Err r0 w0
     = ((applySummary summary (Findings rec), None), (halted r step st rec, w'))
     ∧ State_ (halted r step st rec) = st)
  ∧ (hasBlock (Findings rec) = false →
     Runner_Run ctx_Err r0 w0
     = returned (loop ctx_Err post (checkpointed r step st rec) w'
                   (applySummary summary (Findings rec)))
     ∧ State_ (checkpointed r step st rec) = MarkCompleted (Name step) st
     ∧ IsCompleted (State_ (checkpointed r step st rec)) (Name step) = true).
Proof.
  intros Hsteps Hidem Hpre Hctx Hdone Hmut Hrun rec.
  assert (Hloop : loop ctx_Err (Steps r0) r0 w0 Summary_zero
                  = match iteration ctx_Err r w summary step with
                    | Continue r1 w1 s1 => loop ctx_Err post r1 w1 s1
                    | Return r1 w1 s1 e => Return r1 w1 s1 e
                    end).
  { rewrite Hsteps, loop_app, Hpre. reflexivity. }
  rewrite (iteration_executed _ _ _ _ _ _ _ _ Hctx Hdone Hmut Hrun) in Hloop.
  cbn zeta in Hloop. fold rec in Hloop.
  unfold Runner_Run. rewrite (find_none_of_forallb _ Hidem), Hloop.
  split; intros Hb; rewrite Hb.
  - split; reflexivity.
  - split; [reflexivity|]. split; [reflexivity|].
    cbn. apply IsCompleted_MarkCompleted.
Qed.

(** C6. If some step of the list reports [Idempotent() == false], [Run]
    returns a configuration error with the zero summary and leaves the
    runner (checkpoint store, recorded results, log) and the world
    untouched: no step was run, no finding recorded, no checkpoint
    marked. *)
Theorem non_idempotent_step_rejected (r : Runner) (w : W) (step : Step) :
  In step (Steps r) →
  Idempotent step = false →
  ∃ bad, In bad (Steps r) ∧ Idempotent bad = false
         ∧ Runner_Run ctx_Err r w = ((Summary_zero, Some (notIdempotent bad)), (r, w)).
Proof.
  intros Hin Hfalse. unfold Runner_Run.
  destruct (List.find _ (Steps r)) as [bad|] eqn:Hfind.
  - apply find_some in Hfind as [Hbad Hneg].
    exists bad. split; [done|]. split; [|done].
    by destruct (Idempotent bad).
  - exfalso. apply (find_none _ _ Hfind) in Hin. cbn in Hin.
    rewrite Hfalse in Hin. discriminate.
Qed.

End RunnerFacts.

(** *** Trimming and the texts built by the code *)

Section TrimFacts.

Import Go.

Lemma solid_space2_l c b : solid c → space2 c b = false.
Proof.
  intros [_ Hc]. unfold space2. cbn zeta.
  destruct (N.eqb_spec (N_of_ascii c) 194) as [E|]; [|done].
  rewrite E in Hc. discriminate.
Qed.

Lemma solid_space3_l c a b : solid c → space3 c a b = false.
Proof.
  intros [_ Hc]. unfold space3. cbn zeta.
  destruct (N.eqb_spec (N_of_ascii c) 225) as [E|]; [rewrite E in Hc; discriminate|].
  destruct (N.eqb_spec (N_of_ascii c) 226) as [E|]; [rewrite E in Hc; discriminate|].
  destruct (N.eqb_spec (N_of_ascii c) 227) as [E|]; [rewrite E in Hc; discriminate|].
  reflexivity.
Qed.

Lemma trimLeft_solid c l : solid c → trimLeft (c :: l) = c :: l.
Proof.
  intros Hc. cbn. rewrite (proj1 Hc).
  destruct l as [|b l]; [done|]. rewrite (solid_space2_l _ _ Hc).
  destruct l as [|d l]; [done|]. by rewrite (solid_space3_l _ _ _ Hc).
Qed.

Lemma trimRightRev_solid c : solid c → ∀ n m, (length m ≤ n)%nat →
  ∃ m', trimRightRev (m ++ [c]) = m' ++ [c].
Proof.
  intros Hc. induction n as [|n IH]; intros m Hlen.
  - destruct m; [|cbn in Hlen; lia]. exists []. cbn. by rewrite (proj1 Hc).
  - destruct m as [|a m]. { exists []. cbn. by rewrite (proj1 Hc). }
    cbn [app trimRightRev]. cbn in Hlen.
    destruct (asciiSpace a). { apply IH. lia. }
    destruct m as [|b m]; cbn [app].
    { rewrite (solid_space2_l _ _ Hc). by exists [a]. }
    destruct (space2 b a). { apply IH. cbn in Hlen. lia. }
    destruct m as [|d m]; cbn [app].
    { rewrite (solid_space3_l _ _ _ Hc). by exists [a; b]. }
    destruct (space3 d b a). { apply IH. cbn in Hlen. lia. }
    by exists (a :: b :: d :: m).
Qed.

(** A text that starts with such a byte is not blank. *)
Lemma TrimSpace_solid c s : solid c → TrimSpace (String c s) ≠ "".
Proof.
  intros Hc. unfold TrimSpace. cbn [list_ascii_of_string].
  rewrite (trimLeft_solid _ _ Hc). cbn [rev].
  destruct (trimRightRev_solid c Hc _ (rev (list_ascii_of_string s)) (le_n _)) as [m' ->].
  rewrite rev_app_distr. cbn. discriminate.
Qed.

Lemma app_inv_head_string (p a b : string) : p +:+ a = p +:+ b → a = b.
Proof. induction p as [|c p IH]; cbn; [done|]. intros [=]. auto. Qed.

End TrimFacts.

(** *** The checks runner *)

Section ChecksFacts.

Import Checks.
Context {W : Type} `{!Go.Fmt}.

Lemma enforceMessages_length name fs : length (enforceMessages name fs) = length fs.
Proof. induction fs as [|f fs IH]; cbn; [done|]. case_decide; cbn; by rewrite IH. Qed.

Lemma enforceMessages_app name fs gs :
  enforceMessages name (fs ++ gs) = enforceMessages name fs ++ enforceMessages name gs.
Proof. induction fs as [|f fs IH]; cbn; [done|]. case_decide; cbn; by rewrite IH. Qed.

Lemma enforceMessages_block name fs :
  hasBlock fs = true → hasBlock (enforceMessages name fs) = true.
Proof.
  induction fs as [|f fs IH]; [done|].
  cbn [enforceMessages]. unfold hasBlock in *. cbn [existsb].
  intros [Hf|Hfs]%orb_prop; case_decide; cbn [existsb];
    rewrite ?Hf, ?(IH Hfs), ?orb_true_r; done.
Qed.

Lemma checkError_kept name e :
  enforceMessages name [checkError name e] = [checkError name e].
Proof.
  cbn. case_decide as Hblank; [|done]. exfalso. revert Hblank.
  apply TrimSpace_solid. by split.
Qed.

(** A check that returns an error always leaves a Block among the
    findings kept for it. *)
Lemma kept_error_block (check : PreflightCheck (W:=W)) fs e :
  hasBlock (kept check fs (Some e)) = true.
Proof.
  unfold kept. rewrite enforceMessages_app, checkError_kept, hasBlock_app.
  cbn. by rewrite orb_true_r.
Qed.

Lemma allFindings_app (rs1 rs2 : list Result) :
  allFindings (rs1 ++ rs2) = allFindings rs1 ++ allFindings rs2.
Proof. unfold allFindings. apply flat_map_app. Qed.

(** With read-only checks only, [Run] visits every check and returns no
    error. *)
Lemma run_checks_read_only (checks : list (PreflightCheck (W:=W))) input :
  forallb ReadOnly checks = true →
  ∀ logger w summary results,
    run_checks checks input logger w summary results
    = ((applySummary summary (allFindings (collected checks input w)),
        results ++ collected checks input w, None),
       executed checks input logger w).
Proof.
  induction checks as [|c checks IH]; intros Hro logger w summary results.
  - cbn. by rewrite app_nil_r.
  - cbn in Hro. apply andb_prop in Hro as [Hc Hrest].
    cbn [run_checks collected executed]. rewrite Hc. cbn [negb].
    destruct (Check_Run c input w) as [[fs err] w1]. cbn [snd].
    rewrite (IH Hrest). cbn [allFindings flat_map Findings].
    rewrite applySummary_app, <- app_assoc. reflexivity.
Qed.

(** At the first check that is not read-only, [Run] gives up: the checks
    before it have run, what they found is dropped. *)
Lemma run_checks_not_read_only (pre post : list (PreflightCheck (W:=W))) c input :
  forallb ReadOnly pre = true →
  ReadOnly c = false →
  ∀ logger w summary results,
    run_checks (pre ++ c :: post) input logger w summary results
    = ((Summary_zero, [], Some (notReadOnly c)), executed pre input logger w).
Proof.
  intros Hpre Hc. induction pre as [|p pre IH]; intros logger w summary results.
  - cbn. by rewrite Hc.
  - cbn in Hpre. apply andb_prop in Hpre as [Hp Hrest].
    cbn [app run_checks executed]. rewrite Hp. cbn [negb].
    destruct (Check_Run p input w) as [[fs err] w1]. cbn [snd].
    apply (IH Hrest).
Qed.

(** Splitting a list at its first check that is not read-only. *)
Lemma first_not_read_only (checks : list (PreflightCheck (W:=W))) :
  forallb ReadOnly checks = false →
  ∃ pre c post, checks = pre ++ c :: post
                ∧ forallb ReadOnly pre = true ∧ ReadOnly c = false.
Proof.
  induction checks as [|c checks IH]; cbn; [done|].
  destruct (ReadOnly c) eqn:Hc; cbn.
  - intros (pre & c' & post & -> & Hpre & Hc')%IH.
    exists (c :: pre), c', post. cbn. by rewrite Hc, Hpre.
  - intros _. by exists [], c, checks.
Qed.

(** C9. When the list holds a check that is not read-only, [Run]
    returns an error with the zero summary and no results; yet every
    check placed before the first such check has been run by then, in
    order (the log and the world are those their runs leave behind):
    the test is made check by check as the loop reaches it, and what
    the earlier checks found is dropped. *)
Theorem not_read_only_detected_at_execution_time
    (r : Runner) (input : Input) (w : W)
    (pre post : list PreflightCheck) (c : PreflightCheck) :
  Checks r = pre ++ c :: post →
  forallb ReadOnly pre = true →
  ReadOnly c = false →
  Runner_Run r input w
  = ((Summary_zero, [], Some (notReadOnly c)), executed pre input (Logger r) w).
Proof.
  intros Hchecks Hpre Hc. unfold Runner_Run. rewrite Hchecks.
  by apply run_checks_not_read_only.
Qed.

End ChecksFacts.

(** *** The schema parity engine *)

Section SchemaFacts.

Import Checks.
Context {W : Type} `{!Go.Fmt}.

Lemma equalElems_eq (a : list string) : ∀ b,
  length a = length b → (equalElems a b = true ↔ a = b).
Proof.
  induction a as [|x a IH]; intros [|y b] Hlen; cbn in *; try done.
  case_decide as Hxy.
  - subst y. rewrite IH by lia. split; [by intros ->|by intros [=]].
  - split; [done|]. intros [=]. done.
Qed.

(** [equalStrings] compares position by position, so the order matters. *)
Lemma equalStrings_eq (a b : list string) : equalStrings a b = true ↔ a = b.
Proof.
  unfold equalStrings. case_decide as Hlen.
  - by apply equalElems_eq.
  - split; [done|]. intros ->. done.
Qed.





Lemma comparePrimaryKey_same table (pk : list string) : comparePrimaryKey table pk pk = [].
Proof.
  destruct pk as [|x p]; [done|]. unfold comparePrimaryKey. cbn [length].
  rewrite !bool_decide_eq_false_2 by (cbn; lia). cbn [andb].
  by rewrite (proj2 (equalStrings_eq _ _) eq_refl).
Qed.

(** What a table of both snapshots contributes is part of the result of
    [compareSchemas]. *)
Lemma compareTable_in_compareSchemas (primary replica : Schema) name pTable f :
  tableIndex (Tables primary) !! name = Some pTable →
  In f (compareTable name pTable (tableIndex (Tables replica))) →
  In f (compareSchemas primary replica).
Proof.
  intros Hp Hf. unfold compareSchemas. apply in_or_app. left.
  apply in_flat_map. exists (name, pTable). split; [|done].
  apply list_elem_of_In, elem_of_map_to_list, Hp.
Qed.


End SchemaFacts.

(** *** The Debezium health check *)

Section DebeziumFacts.

Import Cdc.
Context {W : Type} `{!Go.Fmt}.
Variable time_Now : W → Z.

(** The condition under which a status is taken for a restart loop. *)
Lemma isRestartLoop_true status window max now :
  isRestartLoop status window max now = true
  ↔ max ≤ RestartCount status
    ∧ ∃ t, LastRestartAt status = Some t ∧ Go.time_Since now t ≤ window.
Proof.
  unfold isRestartLoop. destruct (LastRestartAt status) as [t|].
  - destruct (Z.ltb_spec (RestartCount status) max).
    + split; [done|]. intros [? _]. lia.
    + rewrite Z.leb_le. split.
      * intros Hle. split; [done|]. by exists t.
      * intros [_ (t' & [= <-] & Hle)]. done.
  - split; [done|]. intros [_ (t & [=] & _)].
Qed.

(** [time.Since] saturates; below the largest duration the comparison
    with the window is the comparison of the true difference. *)
Lemma time_Since_le now t window :
  Go.minDuration ≤ window < Go.maxDuration →
  (Go.time_Since now t ≤ window ↔ now - t ≤ window).
Proof. unfold Go.time_Since. lia. Qed.

Lemma taskFindings_all_running status tasks :
  (∀ task, In task tasks → Task_State task = "RUNNING") →
  taskFindings status tasks = [].
Proof.
  induction tasks as [|task tasks IH]; cbn; [done|]. intros Hall.
  rewrite bool_decide_eq_false_2 by (intros Hne; apply Hne, Hall; by left).
  apply IH. intros task' Hin. apply Hall. by right.
Qed.

Lemma restartLoop_not_task status window tasks :
  ¬ In (restartLoop status window) (taskFindings status tasks).
Proof.
  induction tasks as [|task tasks IH]; cbn; [tauto|].
  case_bool_decide; [|done]. intros [Heq|Hin]; [|done].
  apply (f_equal (λ f, Meta f !! "restart_count")) in Heq. cbn in Heq.
  by simplify_map_eq.
Qed.

Lemma restartLoop_in_statusFindings status window max now :
  In (restartLoop status window) (statusFindings status window max now)
  ↔ isRestartLoop status window max now = true.
Proof.
  unfold statusFindings. cbn zeta.
  set (A := if bool_decide (ConnectorState status ≠ "RUNNING")
            then [connectorNotRunning status] else []).
  set (T := taskFindings status (Tasks status)).
  destruct (isRestartLoop status window max now) eqn:Hloop.
  - split; [done|]. intros _.
    assert (Hin : In (restartLoop status window) (A ++ T ++ [restartLoop status window])).
    { apply in_or_app. right. apply in_or_app. right. by left. }
    destruct (A ++ T ++ [restartLoop status window]); [done|exact Hin].
  - split; [|done]. rewrite app_nil_r. intros Hin. exfalso.
    assert (Hnot : ¬ In (restartLoop status window) (A ++ T)).
    { intros [HA|HT]%in_app_or.
      - subst A. case_bool_decide; [|done]. destruct HA as [Heq|[]].
        apply (f_equal (λ f, Meta f !! "restart_count")) in Heq. cbn in Heq.
        by simplify_map_eq.
      - by apply restartLoop_not_task in HT. }
    destruct (A ++ T) as [|x l]; [|done].
    destruct Hin as [Heq|[]]. discriminate.
Qed.

Lemma statusFindings_healthy status window max now :
  isRestartLoop status window max now = false →
  ConnectorState status = "RUNNING" →
  (∀ task, In task (Tasks status) → Task_State task = "RUNNING") →
  statusFindings status window max now = [healthy status].
Proof.
  intros Hloop Hstate Htasks. unfold statusFindings.
  rewrite Hloop, (taskFindings_all_running _ _ Htasks).
  by rewrite bool_decide_eq_false_2 by (intros Hne; by apply Hne).
Qed.

(** C8 (as amended). For a status the check could read, with [max] and
    [window] the configured values, 3 and 10 minutes when left at zero:
    the check emits the restart-loop Block if and only if the restart
    count is at least [max], a last-restart instant is present and the
    time since it, as [time.Since] reports it, is at most [window];
    [time.Since] saturates at the largest duration, so this is the true
    difference of the two instants being at most [window] for every
    window below the largest duration, and for that largest window it
    holds of every instant; and when neither that condition nor the
    connector state nor any task state fires, the check returns exactly
    one finding, of severity Info. *)
Theorem restart_loop_block_iff_and_healthy_info
    (c : DebeziumHealthCheck) (input : Checks.Input) (w : W)
    (inspect : DebeziumInspector) (status : ConnectorStatus) (w' : W) :
  Inspector c = Some inspect →
  Connector c ≠ "" →
  inspect (Connector c) w = ((status, None), w') →
  let max := if bool_decide (RestartLoopMax c = 0) then 3 else RestartLoopMax c in
  let window :=
    if bool_decide (RestartLoopWindow c = 0) then 10 * Go.Minute else RestartLoopWindow c in
  let now := time_Now w' in
  let looping :=
    max ≤ RestartCount status
    ∧ ∃ t, LastRestartAt status = Some t ∧ Go.time_Since now t ≤ window in
  ∃ findings,
    DebeziumHealthCheck_Run time_Now c input w = ((findings, None), (withDefaults c, w'))
    ∧ (In (restartLoop status window) findings ↔ looping)
    ∧ (Go.minDuration ≤ window < Go.maxDuration →
       (In (restartLoop status window) findings
        ↔ max ≤ RestartCount status
          ∧ ∃ t, LastRestartAt status = Some t ∧ now - t ≤ window))
    ∧ (window = Go.maxDuration →
       (In (restartLoop status window) findings
        ↔ max ≤ RestartCount status ∧ ∃ t, LastRestartAt status = Some t))
    ∧ (¬ looping →
       ConnectorState status = "RUNNING" →
       (∀ task, In task (Tasks status) → Task_State task = "RUNNING") →
       findings = [healthy status] ∧ Severity_of (healthy status) = SeverityInfo).
Proof.
  intros Hinsp Hconn Hread max window now looping.
  exists (statusFindings status window max now).
  split; [|split; [|split; [|split]]].
  - unfold DebeziumHealthCheck_Run. rewrite Hinsp.
    rewrite bool_decide_eq_false_2 by done. cbn [withDefaults Connector].
    rewrite Hread. reflexivity.
  - rewrite restartLoop_in_statusFindings. apply isRestartLoop_true.
  - intros Hwin. rewrite restartLoop_in_statusFindings, isRestartLoop_true.
    split; intros [Hmax (t & Ht & Hle)]; (split; [done|]); exists t; (split; [done|]);
      by apply (time_Since_le now t window Hwin).
  - intros Hwin. rewrite restartLoop_in_statusFindings, isRestartLoop_true.
    split; intros [Hmax (t & Ht)]; (split; [done|]).
    + destruct Ht as [Ht _]. by exists t.
    + exists t. split; [done|]. rewrite Hwin. unfold Go.time_Since, Go.minDuration,
        Go.maxDuration. lia.
  - intros Hnot Hstate Htasks. split; [|done].
    apply statusFindings_healthy; [|done..].
    destruct (isRestartLoop status window max now) eqn:E; [|done].
    exfalso. by apply Hnot, isRestartLoop_true.
Qed.

End DebeziumFacts.

(** *** The replica upgrade orchestrator *)

Section OrchestratorFacts.

Import Mysql.
Context {S : Type} `{!State S} {W : Type} `{!Go.Fmt}.

Lemma stoppedKey_upgradedKey r : stoppedKey r ≠ upgradedKey r.
Proof. intros E. do 2 apply app_inv_head_string in E. discriminate. Qed.

Lemma stoppedKey_resumedKey r : stoppedKey r ≠ resumedKey r.
Proof. intros E. do 2 apply app_inv_head_string in E. discriminate. Qed.

Lemma upgradedKey_resumedKey r : upgradedKey r ≠ resumedKey r.
Proof. intros E. do 2 apply app_inv_head_string in E. discriminate. Qed.

Lemma getBool_Set_eq `{!LawfulState S} (st : S) key :
  getBool (Some (Set_ key (VBool true) st)) key = (true, true).
Proof. cbn. by rewrite Get_Set_eq. Qed.

Lemma getBool_Set_ne `{!LawfulState S} (st : S) key key' value :
  key ≠ key' → getBool (Some (Set_ key value st)) key' = getBool (Some st) key'.
Proof. intros Hne. cbn. by rewrite Get_Set_ne. Qed.

Lemma detectPartialProgress_no_block replica status (state : option S) :
  hasBlock (detectPartialProgress replica status state) = false.
Proof.
  unfold detectPartialProgress. cbn zeta.
  repeat match goal with |- context [if ?b then _ else _] => destruct b end;
    reflexivity.
Qed.

(** A phase whose checkpoint is set does nothing but report. *)
Lemma phase_skipped key starting call action failed done already replica
    (p : Progress (S:=S) (W:=W)) :
  fst (getBool (p_state p) key) = true →
  phase key starting call action failed done already replica p
  = inl (report p (about SeverityInfo already replica)).
Proof. intros Hset. unfold phase. by rewrite Hset. Qed.

(** A phase whose checkpoint is not set calls its action; when the
    action succeeds the checkpoint is set. *)
Lemma phase_performed key starting call action failed done already replica
    (p : Progress (S:=S) (W:=W)) :
  fst (getBool (p_state p) key) = false →
  fst (action (p_world p)) = None →
  phase key starting call action failed done already replica p
  = inl (report
           (mkProgress (setBool (p_state p) key true) (p_log p ++ [starting +:+ replica])
              (snd (action (p_world p))) (p_calls p ++ [call])
              (p_summary p) (p_findings p))
           (about SeverityInfo done replica)).
Proof.
  intros Hunset Hok. unfold phase. rewrite Hunset.
  destruct (action (p_world p)) as [err w']. cbn in Hok. subst err. reflexivity.
Qed.

(** Whatever a phase does, it only adds to the findings, and it never
    calls anything but its own action. *)
Lemma phase_extends key starting call action failed done already replica
    (p : Progress (S:=S) (W:=W)) :
  ∃ p', (phase key starting call action failed done already replica p = inl p'
         ∨ phase key starting call action failed done already replica p = inr p')
        ∧ (∃ more, p_findings p' = p_findings p ++ more)
        ∧ (p_calls p' = p_calls p ∨ p_calls p' = p_calls p ++ [call]).
Proof.
  unfold phase. destruct (fst (getBool (p_state p) key)).
  - eexists. split; [by left|]. cbn. split; [by eexists|by left].
  - destruct (action (p_world p)) as [[e|] w'].
    + eexists. split; [by right|]. cbn. split; [by eexists|by right].
    + eexists. split; [by left|]. cbn. split; [by eexists|by right].
Qed.

Lemma phases_extend acts replica (p : Progress (S:=S) (W:=W)) :
  ∃ p', (phases acts replica p = inl p' ∨ phases acts replica p = inr p')
        ∧ ∃ more, p_findings p' = p_findings p ++ more.
Proof.
  unfold phases, stopPhase, upgradePhase, startPhase.
  destruct (phase_extends (stoppedKey replica) "stopping replication on "
              (CallStopReplication replica) (StopReplication acts replica)
              "failed to stop replication: " "replication stopped"
              "replication already stopped" replica p)
    as (p1 & [E1|E1] & [m1 F1] & _); rewrite E1; cbn [andThen];
    [|exists p1; split; [by right|by exists m1]].
  destruct (phase_extends (upgradedKey replica) "running upgrade on "
              (CallRunUpgrade replica) (RunUpgrade acts replica)
              "upgrade failed: " "upgrade completed"
              "upgrade already completed" replica p1)
    as (p2 & [E2|E2] & [m2 F2] & _); rewrite E2; cbn [andThen];
    [|exists p2; split; [by right|exists (m1 ++ m2); by rewrite F2, F1, app_assoc]].
  destruct (phase_extends (resumedKey replica) "starting replication on "
              (CallStartReplication replica) (StartReplication acts replica)
              "failed to start replication: " "replication started"
              "replication already started" replica p2)
    as (p3 & E3 & [m3 F3] & _).
  exists p3. split; [done|]. exists (m1 ++ m2 ++ m3).
  by rewrite F3, F2, F1, !app_assoc.
Qed.

(** On a store without the three checkpoints, with actions that
    succeed, the three actions are called once each, in order, and the
    three checkpoints are set. *)
Lemma phases_fresh `{!LawfulState S} acts replica (p : Progress (S:=S) (W:=W)) (st : S) :
  p_state p = Some st →
  fst (getBool (Some st) (stoppedKey replica)) = false →
  fst (getBool (Some st) (upgradedKey replica)) = false →
  fst (getBool (Some st) (resumedKey replica)) = false →
  (∀ w, fst (StopReplication acts replica w) = None) →
  (∀ w, fst (RunUpgrade acts replica w) = None) →
  (∀ w, fst (StartReplication acts replica w) = None) →
  ∃ p' st',
    phases acts replica p = inl p'
    ∧ p_calls p' = p_calls p ++ [CallStopReplication replica; CallRunUpgrade replica;
                                 CallStartReplication replica]
    ∧ p_state p' = Some st'
    ∧ fst (getBool (Some st') (stoppedKey replica)) = true
    ∧ fst (getBool (Some st') (upgradedKey replica)) = true
    ∧ fst (getBool (Some st') (resumedKey replica)) = true.
Proof.
  intros Hst Hs Hu Hr Hstop Hup Hstart.
  unfold phases, stopPhase, upgradePhase, startPhase.
  rewrite phase_performed by (rewrite ?Hst; done). cbn [andThen].
  rewrite phase_performed; cycle 1.
  { cbn [report p_state]. rewrite Hst. cbn [setBool].
    rewrite getBool_Set_ne by apply stoppedKey_upgradedKey. done. }
  { done. }
  cbn [andThen].
  rewrite phase_performed; cycle 1.
  { cbn [report p_state]. rewrite Hst. cbn [setBool].
    rewrite getBool_Set_ne by apply upgradedKey_resumedKey.
    rewrite getBool_Set_ne by apply stoppedKey_resumedKey. done. }
  { done. }
  eexists _, _. split; [reflexivity|]. cbn [report p_calls p_state].
  rewrite Hst. cbn [setBool].
  split; [by rewrite <- !app_assoc|]. split; [reflexivity|].
  split; [|split].
  - rewrite getBool_Set_ne by (apply not_eq_sym, stoppedKey_resumedKey).
    rewrite getBool_Set_ne by (apply not_eq_sym, stoppedKey_upgradedKey).
    by rewrite getBool_Set_eq.
  - rewrite getBool_Set_ne by (apply not_eq_sym, upgradedKey_resumedKey).
    by rewrite getBool_Set_eq.
  - by rewrite getBool_Set_eq.
Qed.

(** On a store with the three checkpoints set no action is called. *)
Lemma phases_done acts replica (p : Progress (S:=S) (W:=W)) :
  fst (getBool (p_state p) (stoppedKey replica)) = true →
  fst (getBool (p_state p) (upgradedKey replica)) = true →
  fst (getBool (p_state p) (resumedKey replica)) = true →
  ∃ p', phases acts replica p = inl p'
        ∧ p_calls p' = p_calls p ∧ p_state p' = p_state p ∧ p_world p' = p_world p.
Proof.
  intros Hs Hu Hr. unfold phases, stopPhase, upgradePhase, startPhase.
  rewrite phase_skipped by done. cbn [andThen].
  rewrite phase_skipped by done. cbn [andThen].
  rewrite phase_skipped by done.
  eexists. split; [reflexivity|]. done.
Qed.

(** The ways [Run] can go, one lemma for each. *)

Lemma Run_blank (o : UpgradeOrchestrator (S:=S) (W:=W)) replica w :
  Go.TrimSpace replica = "" →
  Run o replica w = (refused "replica is required" ∅, (o, w, [])).
Proof. intros Hblank. unfold Run. cbn zeta. by rewrite Hblank. Qed.

Lemma Run_unconfigured (o : UpgradeOrchestrator (S:=S) (W:=W)) replica w :
  Go.TrimSpace replica ≠ "" →
  Inspector o = None ∨ Actions o = None →
  Run o replica w
  = ((Summary_zero, [], Some "inspector and actions are required"), (o, w, [])).
Proof.
  intros Hr Hnil. unfold Run. cbn zeta. rewrite bool_decide_eq_false_2 by done.
  destruct Hnil as [-> | ->]; [done|]. by destruct (Inspector o).
Qed.

Lemma Run_primary_unknown (o : UpgradeOrchestrator (S:=S) (W:=W)) replica w
    inspector acts b e w1 :
  Go.TrimSpace replica ≠ "" →
  Inspector o = Some inspector → Actions o = Some acts →
  IsPrimary inspector (Go.TrimSpace replica) w = ((b, Some e), w1) →
  Run o replica w
  = (refused ("failed to determine primary status: " +:+ e) ∅,
     (o, w1, [CallIsPrimary (Go.TrimSpace replica)])).
Proof.
  intros Hr Hi Ha Hcall. unfold Run. cbn zeta. rewrite bool_decide_eq_false_2 by done.
  rewrite Hi, Ha, Hcall. reflexivity.
Qed.

Lemma Run_primary_refused (o : UpgradeOrchestrator (S:=S) (W:=W)) replica w
    inspector acts b w1 :
  Go.TrimSpace replica ≠ "" →
  Inspector o = Some inspector → Actions o = Some acts →
  IsPrimary inspector (Go.TrimSpace replica) w = ((b, None), w1) →
  b || (bool_decide (Primary o ≠ "")
        && bool_decide (Go.TrimSpace replica = Primary o)) = true →
  Run o replica w
  = (refused "refusing to upgrade primary"
       {[ "replica" := VString (Go.TrimSpace replica) ]},
     (o, w1, [CallIsPrimary (Go.TrimSpace replica)])).
Proof.
  intros Hr Hi Ha Hcall Hcond. unfold Run. cbn zeta.
  rewrite bool_decide_eq_false_2 by done.
  rewrite Hi, Ha, Hcall, Hcond. reflexivity.
Qed.

Lemma statusReport_no_block replica status err (state : option S) :
  hasBlock (statusReport replica status err state) = false.
Proof. destruct err; [done|]. apply detectPartialProgress_no_block. Qed.

Lemma Run_proceeds (o : UpgradeOrchestrator (S:=S) (W:=W)) replica w
    inspector acts w1 status err w2 :
  Go.TrimSpace replica ≠ "" →
  Inspector o = Some inspector → Actions o = Some acts →
  IsPrimary inspector (Go.TrimSpace replica) w = ((false, None), w1) →
  Go.TrimSpace replica ≠ Primary o →
  ReplicationStatus_ inspector (Go.TrimSpace replica) w1 = ((status, err), w2) →
  Run o replica w
  = let findings := statusReport (Go.TrimSpace replica) status err (State_ o) in
    returning o
      (phases acts (Go.TrimSpace replica)
         (mkProgress (State_ o) (Logger o) w2
            [CallIsPrimary (Go.TrimSpace replica);
             CallReplicationStatus (Go.TrimSpace replica)]
            (applySummary Summary_zero findings) findings)).
Proof.
  intros Hr Hi Ha Hcall Hnot Hstatus. unfold Run. cbn zeta.
  rewrite bool_decide_eq_false_2 by done.
  rewrite Hi, Ha, Hcall. cbn [orb].
  rewrite (bool_decide_eq_false_2 (Go.TrimSpace replica = Primary o)) by done.
  rewrite andb_false_r, Hstatus, statusReport_no_block. reflexivity.
Qed.

(** [Run] returns an error only for a missing collaborator. *)
Lemma Run_error (o : UpgradeOrchestrator (S:=S) (W:=W)) replica w :
  error_of (Run o replica w) ≠ None
  ↔ Go.TrimSpace replica ≠ "" ∧ (Inspector o = None ∨ Actions o = None).
Proof.
  split.
  - intros Herr. destruct (decide (Go.TrimSpace replica = "")) as [Hb|Hb].
    { by rewrite (Run_blank _ _ _ Hb) in Herr. }
    split; [done|].
    destruct (Inspector o) as [inspector|] eqn:Hi; [|by left].
    destruct (Actions o) as [acts|] eqn:Ha; [|by right].
    exfalso. apply Herr. unfold Run. cbn zeta.
    rewrite bool_decide_eq_false_2 by done. rewrite Hi, Ha.
    destruct (IsPrimary inspector (Go.TrimSpace replica) w) as [[b [e|]] w1]; [done|].
    destruct (b || _); [done|].
    destruct (ReplicationStatus_ inspector (Go.TrimSpace replica) w1) as [[status err] w2].
    by destruct (hasBlock _).
  - intros [Hb Hnil]. by rewrite (Run_unconfigured _ _ _ Hb Hnil).
Qed.

(** C3 (as amended). With both collaborators configured: for every
    target whose trimmed name the inspector reports as primary, and for
    every target equal to the configured primary hostname when that
    hostname carries no surrounding white space, [Run] returns exactly
    one finding, of severity Block, and no error; it calls no action,
    calls the inspector at most for the primary check, and leaves the
    checkpoint store as it was. *)
Theorem primary_target_refused (o : UpgradeOrchestrator (S:=S) (W:=W))
    (target : string) (w : W) (inspector : ReplicaInspector) (acts : ReplicaActions) :
  Inspector o = Some inspector →
  Actions o = Some acts →
  fst (fst (IsPrimary inspector (Go.TrimSpace target) w)) = true
  ∨ (target = Primary o ∧ Go.TrimSpace (Primary o) = Primary o) →
  let out := Run o target w in
  refuses o target w
  ∧ summary_of out = mkSummary 0 0 1
  ∧ error_of out = None
  ∧ orchestrator_after out = o.
Proof.
  intros Hi Ha Hprimary out. subst out. unfold refuses. cbn zeta.
  destruct (decide (Go.TrimSpace target = "")) as [Hb|Hb].
  { rewrite (Run_blank _ _ _ Hb). cbn. split; [|done]. split; [by eexists|]. by auto. }
  destruct (IsPrimary inspector (Go.TrimSpace target) w) as [[b [e|]] w1] eqn:Hcall.
  { rewrite (Run_primary_unknown _ _ _ _ _ _ _ _ Hb Hi Ha Hcall). cbn.
    split; [|done]. split; [by eexists|]. by auto. }
  rewrite (Run_primary_refused _ _ _ _ _ _ _ Hb Hi Ha Hcall).
  { cbn. split; [|done]. split; [by eexists|]. by auto. }
  destruct Hprimary as [Hrep|[-> Htrim]].
  - cbn in Hrep. by rewrite Hrep.
  - rewrite Htrim in *. rewrite !bool_decide_eq_true_2 by done. apply orb_true_r.
Qed.

(** C2 (as amended). For every replica name that is not blank and not
    the primary, on a checkpoint store in which none of its three
    checkpoints is set: two runs in sequence against that store, with
    every inspector and action call succeeding, call each of
    [StopReplication], [RunUpgrade] and [StartReplication] exactly once
    in total; the first run calls the three in this order and the
    second run, finding the three checkpoints set, calls none. *)
Theorem two_runs_perform_each_action_once `{!LawfulState S}
    (o : UpgradeOrchestrator (S:=S) (W:=W)) (replica : string) (w : W)
    (inspector : ReplicaInspector) (acts : ReplicaActions) (st : S) :
  Inspector o = Some inspector →
  Actions o = Some acts →
  State_ o = Some st →
  let r := Go.TrimSpace replica in
  r ≠ "" →
  r ≠ Primary o →
  (∀ w, fst (IsPrimary inspector r w) = (false, None)) →
  (∀ w, snd (fst (ReplicationStatus_ inspector r w)) = None) →
  (∀ w, fst (StopReplication acts r w) = None) →
  (∀ w, fst (RunUpgrade acts r w) = None) →
  (∀ w, fst (StartReplication acts r w) = None) →
  fst (getBool (Some st) (stoppedKey r)) = false →
  fst (getBool (Some st) (upgradedKey r)) = false →
  fst (getBool (Some st) (resumedKey r)) = false →
  let first := Run o replica w in
  let second := rerun first replica in
  each_action_once o replica w
  ∧ calls_of first = [CallIsPrimary r; CallReplicationStatus r; CallStopReplication r;
                      CallRunUpgrade r; CallStartReplication r]
  ∧ calls_of second = [CallIsPrimary r; CallReplicationStatus r].
Proof.
  intros Hi Ha Hst r Hr Hnot Hprim Hstat Hstop Hup Hstart Hs Hu Hres first second.
  unfold each_action_once. cbn zeta. fold first. fold second.
  assert (Hfirst : ∃ o1 w1 res,
             first = (res, (o1, w1, [CallIsPrimary r; CallReplicationStatus r;
                                     CallStopReplication r; CallRunUpgrade r;
                                     CallStartReplication r]))
             ∧ Inspector o1 = Some inspector ∧ Actions o1 = Some acts
             ∧ Primary o1 = Primary o
             ∧ fst (getBool (State_ o1) (stoppedKey r)) = true
             ∧ fst (getBool (State_ o1) (upgradedKey r)) = true
             ∧ fst (getBool (State_ o1) (resumedKey r)) = true).
  { subst first.
    destruct (IsPrimary inspector r w) as [ip w1] eqn:Hcall.
    pose proof (Hprim w) as Hip. rewrite Hcall in Hip. cbn in Hip. subst ip.
    destruct (ReplicationStatus_ inspector r w1) as [[status err] w2] eqn:Hstatus.
    pose proof (Hstat w1) as Herr. rewrite Hstatus in Herr. cbn in Herr. subst err.
    rewrite (Run_proceeds _ _ _ _ _ _ _ _ _ Hr Hi Ha Hcall Hnot Hstatus). cbn zeta.
    fold r.
    edestruct (phases_fresh acts r
                 (mkProgress (State_ o) (Logger o) w2
                    [CallIsPrimary r; CallReplicationStatus r]
                    (applySummary Summary_zero (statusReport r status None (State_ o)))
                    (statusReport r status None (State_ o))) st)
      as (p' & st' & Hph & Hcalls & Hst' & Hs' & Hu' & Hr'); try done.
    rewrite Hph. unfold returning. rewrite Hcalls, Hst'. cbn [app].
    eexists _, _, _. split; [reflexivity|]. cbn. done. }
  destruct Hfirst as (o1 & w1 & res & Hfirst & Hi1 & Ha1 & Hp1 & Hs1 & Hu1 & Hr1).
  assert (Hsecond : calls_of second = [CallIsPrimary r; CallReplicationStatus r]).
  { subst second. rewrite Hfirst. unfold rerun, orchestrator_after, world_after.
    cbn [fst snd].
    destruct (IsPrimary inspector r w1) as [ip w2] eqn:Hcall.
    pose proof (Hprim w1) as Hip. rewrite Hcall in Hip. cbn in Hip. subst ip.
    destruct (ReplicationStatus_ inspector r w2) as [[status err] w3] eqn:Hstatus.
    rewrite (Run_proceeds _ _ _ _ _ _ _ _ _ Hr Hi1 Ha1 Hcall
               ltac:(by rewrite Hp1) Hstatus). cbn zeta. fold r.
    edestruct (phases_done acts r
                 (mkProgress (State_ o1) (Logger o1) w3
                    [CallIsPrimary r; CallReplicationStatus r]
                    (applySummary Summary_zero (statusReport r status err (State_ o1)))
                    (statusReport r status err (State_ o1))))
      as (p' & Hph & Hcalls & _); try done.
    rewrite Hph. unfold returning, calls_of. cbn [snd]. by rewrite Hcalls. }
  rewrite Hsecond, Hfirst. unfold calls_of. cbn [snd]. done.
Qed.

End OrchestratorFacts.

(** *** Summaries count findings by severity *)

Lemma countSeverity_cons f fs sv :
  countSeverity (f :: fs) sv
  = (if decide (Severity_of f = sv) then 1 else 0) + countSeverity fs sv.
Proof.
  unfold countSeverity. rewrite filter_cons. case_decide; cbn [length]; lia.
Qed.

Lemma countSeverity_nonneg fs sv : 0 ≤ countSeverity fs sv.
Proof. unfold countSeverity. lia. Qed.

Lemma applySummary_counts fs : ∀ s,
  applySummary s fs
  = mkSummary (Info s + countSeverity fs SeverityInfo)
              (Warn s + countSeverity fs SeverityWarn)
              (Block s + countSeverity fs SeverityBlock).
Proof.
  induction fs as [|f fs IH]; intros s.
  - unfold countSeverity. cbn. destruct s. cbn. f_equal; lia.
  - rewrite applySummary_cons, IH, !countSeverity_cons. unfold count_one.
    destruct (Severity_of f); repeat case_decide; try done;
      cbn [Info Warn Block]; f_equal; lia.
Qed.

Lemma countSeverity_in f fs :
  In f fs → 1 ≤ countSeverity fs (Severity_of f).
Proof.
  induction fs as [|g fs IH]; [done|]. intros [->|Hin]; rewrite countSeverity_cons.
  - rewrite decide_True by done. pose proof (countSeverity_nonneg fs (Severity_of f)). lia.
  - specialize (IH Hin). case_decide; lia.
Qed.

Lemma countSeverity_none fs sv :
  (∀ f, In f fs → Severity_of f ≠ sv) → countSeverity fs sv = 0.
Proof.
  induction fs as [|g fs IH]; [done|]. intros Hall. rewrite countSeverity_cons.
  rewrite decide_False by (apply Hall; by left).
  rewrite IH; [done|]. intros f Hin. apply Hall. by right.
Qed.

(** *** The checks runner, continued; the promotion gate *)

Section GateFacts.

Import Checks.
Context {W : Type} `{!Go.Fmt}.

Lemma executed_world (checks : list (PreflightCheck (W:=W))) input : ∀ logger logger' w,
  snd (executed checks input logger w) = snd (executed checks input logger' w).
Proof. induction checks as [|c checks IH]; intros; cbn; [done|]. apply IH. Qed.

Lemma collected_app (pre rest : list (PreflightCheck (W:=W))) input : ∀ logger w,
  collected (pre ++ rest) input w
  = collected pre input w ++ collected rest input (snd (executed pre input logger w)).
Proof.
  induction pre as [|c pre IH]; intros logger w; cbn [app collected executed]; [done|].
  destruct (Check_Run c input w) as [[fs err] w1]. cbn [snd app]. f_equal. apply IH.
Qed.

Lemma collected_length (checks : list (PreflightCheck (W:=W))) input : ∀ w,
  length (collected checks input w) = length checks.
Proof.
  induction checks as [|c checks IH]; intros w; cbn; [done|].
  destruct (Check_Run c input w) as [[fs err] w1]. cbn. by rewrite IH.
Qed.

(** A run that returns no error has visited every check, and its
    summary counts the findings of its results. *)
Lemma Runner_Run_no_error (r : Runner (W:=W)) input w summary results eff :
  Runner_Run r input w = ((summary, results, None), eff) →
  forallb ReadOnly (Checks r) = true
  ∧ results = collected (Checks r) input w
  ∧ summary = applySummary Summary_zero (allFindings results).
Proof.
  unfold Runner_Run. intros Hrun.
  destruct (forallb ReadOnly (Checks r)) eqn:Hro.
  - rewrite (run_checks_read_only _ _ Hro) in Hrun. cbn [app] in Hrun.
    injection Hrun as <- <- _. done.
  - apply first_not_read_only in Hro as (pre & c & post & Heq & Hpre & Hc).
    rewrite Heq, (run_checks_not_read_only _ _ _ _ Hpre Hc) in Hrun. discriminate.
Qed.

(** [Run] returns an error only for a check that is not read-only. *)
Lemma Runner_Run_error (r : Runner (W:=W)) input w :
  snd (fst (Runner_Run r input w)) ≠ None ↔ ∃ c, In c (Checks r) ∧ ReadOnly c = false.
Proof.
  unfold Runner_Run. destruct (forallb ReadOnly (Checks r)) eqn:Hro.
  - rewrite (run_checks_read_only _ _ Hro). cbn. split; [done|].
    intros (c & Hin & Hc). rewrite forallb_forall in Hro. rewrite (Hro c Hin) in Hc.
    discriminate.
  - apply first_not_read_only in Hro as (pre & c & post & Heq & Hpre & Hc).
    rewrite Heq, (run_checks_not_read_only _ _ _ _ Hpre Hc). cbn. split; [|done].
    intros _. exists c. split; [|done]. apply in_or_app. right. by left.
Qed.

(** The error a check returns ends up as a Block among its findings,
    counted in the summary, and [Run] returns no error. *)
Lemma check_error_becomes_block (r : Runner (W:=W)) input w
    (pre post : list PreflightCheck) (c : PreflightCheck) fs e wc :
  Checks r = pre ++ c :: post →
  forallb ReadOnly (Checks r) = true →
  Check_Run c input (snd (executed pre input (Logger r) w)) = ((fs, Some e), wc) →
  ∃ summary results eff,
    Runner_Run r input w = ((summary, results, None), eff)
    ∧ results !! length pre
      = Some (mkResult (Check_Name c)
                (enforceMessages (Check_Name c) fs ++ [checkError (Check_Name c) e]))
    ∧ 1 ≤ Block summary.
Proof.
  intros Hchecks Hro Hrun. unfold Runner_Run.
  rewrite (run_checks_read_only _ _ Hro). cbn [app].
  eexists _, _, _. split; [reflexivity|].
  rewrite Hchecks, (collected_app _ _ _ (Logger r)). cbn [collected]. rewrite Hrun.
  unfold kept. rewrite enforceMessages_app, checkError_kept.
  split.
  - apply list_lookup_middle. by rewrite collected_length.
  - rewrite applySummary_counts. cbn [Block Summary_zero].
    apply (countSeverity_in (checkError (Check_Name c) e)).
    unfold allFindings. apply in_flat_map. eexists. split.
    + apply in_or_app. right. by left.
    + cbn. apply in_or_app. right. by left.
Qed.

Lemma tagged_severity name f : Severity_of (Promotion.tagged name f) = Severity_of f.
Proof. unfold Promotion.tagged. by destruct (Meta f !! "check"). Qed.

Lemma flattenResults_length results :
  length (Promotion.flattenResults results) = length (allFindings results).
Proof.
  unfold Promotion.flattenResults, allFindings. induction results as [|r rs IH]; cbn; [done|].
  by rewrite !length_app, length_map, IH.
Qed.

(** What [flattenResults] does to the findings of the results: it keeps
    their number and their order, result by result, and each finding
    keeps its severity and its message; its [Meta] is kept when it has
    a ["check"] entry and gets one, the name of its check, when it has
    none. *)
Lemma flattenResults_carries results :
  ∃ carried,
    Promotion.flattenResults results = concat carried
    ∧ Forall2 (λ r gs,
         Forall2 (λ f g, Severity_of g = Severity_of f
                         ∧ Message g = Message f
                         ∧ Meta g = match Meta f !! "check" with
                                    | Some _ => Meta f
                                    | None => <[ "check" := VString (CheckName r) ]> (Meta f)
                                    end)
           (Findings r) gs)
         results carried.
Proof.
  exists (map (λ r, map (Promotion.tagged (CheckName r)) (Findings r)) results).
  split; [apply flat_map_concat_map|].
  induction results as [|r rs IH]; cbn [map]; constructor; [|exact IH].
  induction (Findings r) as [|f fs IHf]; cbn [map]; constructor; [|exact IHf].
  unfold Promotion.tagged. by destruct (Meta f !! "check").
Qed.

(** C5. For a run of the gate with a (non-blank) confirmation phrase
    that the confirmation matches and with every required check
    present, in which the re-validation by the checks runner yields a
    summary: the gate returns the findings of the re-validation, all of
    them, result by result and in their order, each with its severity
    and its message (and with the name of its check added to a [Meta]
    that has no ["check"] entry); if the summary counts a Warn or a
    Block, these are followed by exactly one more finding, a Block, and
    the summary is returned with its Block count raised by one; if
    every finding of the re-validation is an Info, nothing is added,
    the summary is returned as it is, and its Block count is zero. *)
Theorem promotion_needs_clean_revalidation (g : Promotion.PromotionGate (W:=W))
    (input : Input) (confirmation : string) (w : W)
    (summary : Summary) (results : list Result) (logger : list string) (w' : W) :
  Go.TrimSpace (Promotion.ConfirmationPhrase g) ≠ "" →
  confirmation = Promotion.ConfirmationPhrase g →
  Promotion.missingChecks (Promotion.requiredNames g) (Promotion.Checks g) = [] →
  Runner_Run (NewRunner (Promotion.Checks g) (Promotion.Logger g)) input w
  = ((summary, results, None), (logger, w')) →
  let returned := snd (fst (fst (Promotion.PromotionGate_Run g input confirmation w))) in
  (∃ carried closing,
      returned = concat carried ++ closing
      ∧ Forall2 (λ r gs,
           Forall2 (λ f g, Severity_of g = Severity_of f
                           ∧ Message g = Message f
                           ∧ Meta g = match Meta f !! "check" with
                                      | Some _ => Meta f
                                      | None =>
                                          <[ "check" := VString (CheckName r) ]> (Meta f)
                                      end)
             (Findings r) gs)
           results carried
      ∧ (0 < Warn summary ∨ 0 < Block summary →
         closing = [Promotion.promotionBlocked summary])
      ∧ ((∀ f, In f (allFindings results) → Severity_of f = SeverityInfo) → closing = []))
  ∧ (0 < Warn summary ∨ 0 < Block summary →
     Promotion.PromotionGate_Run g input confirmation w
     = ((mkSummary (Info summary) (Warn summary) (Block summary + 1),
         Promotion.flattenResults results ++ [Promotion.promotionBlocked summary], None),
        (logger, w'))
     ∧ Severity_of (Promotion.promotionBlocked summary) = SeverityBlock)
  ∧ ((∀ f, In f (allFindings results) → Severity_of f = SeverityInfo) →
     Promotion.PromotionGate_Run g input confirmation w
     = ((summary, Promotion.flattenResults results, None), (logger, w'))
     ∧ Block summary = 0).
Proof.
  intros Hphrase Hconf Hmissing Hrun returned.
  assert (Hgate : Promotion.PromotionGate_Run g input confirmation w
                  = if bool_decide (0 < Warn summary) || bool_decide (0 < Block summary)
                    then ((mkSummary (Info summary) (Warn summary) (Block summary + 1),
                           Promotion.flattenResults results
                           ++ [Promotion.promotionBlocked summary], None),
                          (logger, w'))
                    else ((summary, Promotion.flattenResults results, None), (logger, w'))).
  { unfold Promotion.PromotionGate_Run.
    rewrite bool_decide_eq_false_2 by done.
    rewrite bool_decide_eq_false_2 by (intros Hne; by apply Hne).
    cbn zeta. rewrite Hmissing. cbn [length].
    rewrite bool_decide_eq_false_2 by lia. rewrite Hrun. reflexivity. }
  assert (Hclean : (∀ f, In f (allFindings results) → Severity_of f = SeverityInfo) →
                   Warn summary = 0 ∧ Block summary = 0).
  { intros Hinfo. apply Runner_Run_no_error in Hrun as (_ & _ & Hsum).
    rewrite applySummary_counts in Hsum. cbn [Info Warn Block Summary_zero] in Hsum.
    rewrite (countSeverity_none _ SeverityWarn) in Hsum
      by (intros f Hf; by rewrite (Hinfo f Hf)).
    rewrite (countSeverity_none _ SeverityBlock) in Hsum
      by (intros f Hf; by rewrite (Hinfo f Hf)).
    subst summary. cbn [Warn Block]. done. }
  subst returned. rewrite Hgate. split; [|split].
  - destruct (flattenResults_carries results) as (carried & Hflat & Hcarried).
    exists carried,
      (if bool_decide (0 < Warn summary) || bool_decide (0 < Block summary)
       then [Promotion.promotionBlocked summary] else []).
    split; [by destruct (_ || _); cbn [fst snd]; rewrite Hflat, ?app_nil_r|].
    split; [exact Hcarried|]. split.
    + intros [Hdirty|Hdirty].
      * by rewrite (bool_decide_eq_true_2 (0 < Warn summary)).
      * rewrite (bool_decide_eq_true_2 (0 < Block summary)) by done.
        by rewrite orb_true_r.
    + intros Hinfo. destruct (Hclean Hinfo) as [-> ->]. done.
  - intros Hdirty. split; [|done].
    destruct Hdirty.
    + by rewrite (bool_decide_eq_true_2 (0 < Warn summary)).
    + rewrite (bool_decide_eq_true_2 (0 < Block summary)) by done. by rewrite orb_true_r.
  - intros Hinfo. destruct (Hclean Hinfo) as [Hw Hb]. rewrite Hw, Hb. done.
Qed.

End GateFacts.

(** *** What becomes of the errors of the inspection interfaces *)

Section TransportErrors.

Context {S : Type} `{!State S} {W : Type} `{!Go.Fmt} `{!Kafka.Lower}.
Variable time_Now : W → Z.

Lemma SchemaParityCheck_Run_primary_unreadable (c : Checks.SchemaParityCheck (W:=W))
    input w inspect sch e w1 :
  Checks.Inspector c = Some inspect →
  Checks.PrimaryHost c ≠ "" → Checks.ReplicaHost c ≠ "" →
  inspect (Checks.PrimaryHost c) w = ((sch, Some e), w1) →
  Checks.SchemaParityCheck_Run c input w
  = (([], Some ("failed to read primary schema: " +:+ e)), w1).
Proof.
  intros Hi Hp Hr Hread. unfold Checks.SchemaParityCheck_Run. rewrite Hi.
  rewrite !bool_decide_eq_false_2 by done. cbn [orb]. by rewrite Hread.
Qed.

Lemma SchemaParityCheck_Run_replica_unreadable (c : Checks.SchemaParityCheck (W:=W))
    input w inspect sch w1 sch' e w2 :
  Checks.Inspector c = Some inspect →
  Checks.PrimaryHost c ≠ "" → Checks.ReplicaHost c ≠ "" →
  inspect (Checks.PrimaryHost c) w = ((sch, None), w1) →
  inspect (Checks.ReplicaHost c) w1 = ((sch', Some e), w2) →
  Checks.SchemaParityCheck_Run c input w
  = (([], Some ("failed to read replica schema: " +:+ e)), w2).
Proof.
  intros Hi Hp Hr Hread Hread'. unfold Checks.SchemaParityCheck_Run. rewrite Hi.
  rewrite !bool_decide_eq_false_2 by done. cbn [orb]. by rewrite Hread, Hread'.
Qed.

Lemma DebeziumHealthCheck_Run_unreadable (c : Cdc.DebeziumHealthCheck (W:=W))
    input w inspect status e w1 :
  Cdc.Inspector c = Some inspect →
  Cdc.Connector c ≠ "" →
  inspect (Cdc.Connector c) w = ((status, Some e), w1) →
  Cdc.DebeziumHealthCheck_Run time_Now c input w
  = (([Cdc.statusUnreadable (Cdc.Connector c) e], None), (Cdc.withDefaults c, w1)).
Proof.
  intros Hi Hc Hread. unfold Cdc.DebeziumHealthCheck_Run. rewrite Hi.
  rewrite bool_decide_eq_false_2 by done. cbn [Cdc.withDefaults Cdc.Connector].
  by rewrite Hread.
Qed.

(** The three reads of the schema history check. *)
Lemma SchemaHistoryCheck_Run_existence_unreadable (c : Kafka.SchemaHistoryCheck (W:=W))
    input w inspector there e w1 :
  Kafka.Inspector c = Some inspector →
  Go.TrimSpace (Kafka.Topic c) ≠ "" →
  Kafka.TopicExists inspector (Kafka.Topic c) w = ((there, Some e), w1) →
  Kafka.SchemaHistoryCheck_Run c input w
  = (([Kafka.about SeverityBlock
         ("failed to check schema history topic " +:+ Go.fmt_q (Kafka.Topic c)
          +:+ ": " +:+ e) c], None), w1).
Proof.
  intros Hi Ht Hread. unfold Kafka.SchemaHistoryCheck_Run. rewrite Hi.
  rewrite bool_decide_eq_false_2 by done. by rewrite Hread.
Qed.

Lemma SchemaHistoryCheck_Run_topic_unreadable (c : Kafka.SchemaHistoryCheck (W:=W))
    input w inspector w1 readable e w2 :
  Kafka.Inspector c = Some inspector →
  Go.TrimSpace (Kafka.Topic c) ≠ "" →
  Kafka.TopicExists inspector (Kafka.Topic c) w = ((true, None), w1) →
  Kafka.TopicReadable inspector (Kafka.Topic c) w1 = ((readable, Some e), w2) →
  Kafka.SchemaHistoryCheck_Run c input w
  = (([Kafka.about SeverityBlock
         ("failed to read schema history topic " +:+ Go.fmt_q (Kafka.Topic c)
          +:+ ": " +:+ e) c], None), w2).
Proof.
  intros Hi Ht Hthere Hread. unfold Kafka.SchemaHistoryCheck_Run. rewrite Hi.
  rewrite bool_decide_eq_false_2 by done. rewrite Hthere. cbn [negb]. by rewrite Hread.
Qed.

Lemma SchemaHistoryCheck_Run_coverage_unreadable (c : Kafka.SchemaHistoryCheck (W:=W))
    input w inspector w1 w2 covered e w3 :
  Kafka.Inspector c = Some inspector →
  Go.TrimSpace (Kafka.Topic c) ≠ "" →
  Kafka.TopicExists inspector (Kafka.Topic c) w = ((true, None), w1) →
  Kafka.TopicReadable inspector (Kafka.Topic c) w1 = ((true, None), w2) →
  Kafka.SchemaHistoryTables inspector (Kafka.Topic c) w2 = ((covered, Some e), w3) →
  Kafka.SchemaHistoryCheck_Run c input w
  = (([Kafka.about SeverityBlock
         ("failed to read schema history coverage for " +:+ Go.fmt_q (Kafka.Topic c)
          +:+ ": " +:+ e) c], None), w3).
Proof.
  intros Hi Ht Hthere Hreadable Hread. unfold Kafka.SchemaHistoryCheck_Run. rewrite Hi.
  rewrite bool_decide_eq_false_2 by done. rewrite Hthere. cbn [negb].
  rewrite Hreadable. cbn [negb]. by rewrite Hread.
Qed.

(** The phases always add a finding, the one of the stop phase coming
    first, and they begin with the call of [StopReplication] when the
    checkpoint of that phase is not set. *)
Lemma phases_begin (acts : Mysql.ReplicaActions (W:=W)) r
    (p : Mysql.Progress (S:=S) (W:=W)) :
  ∃ p' f rest,
    (Mysql.phases acts r p = inl p' ∨ Mysql.phases acts r p = inr p')
    ∧ Mysql.p_findings p' = Mysql.p_findings p ++ f :: rest
    ∧ (fst (Mysql.getBool (Mysql.p_state p) (Mysql.stoppedKey r)) = false →
       ∃ more, Mysql.p_calls p' = Mysql.p_calls p ++ Mysql.CallStopReplication r :: more).
Proof.
  assert (Hstop : ∃ p1 f,
             (Mysql.stopPhase acts r p = inl p1 ∨ Mysql.stopPhase acts r p = inr p1)
             ∧ Mysql.p_findings p1 = Mysql.p_findings p ++ [f]
             ∧ (fst (Mysql.getBool (Mysql.p_state p) (Mysql.stoppedKey r)) = false →
                Mysql.p_calls p1 = Mysql.p_calls p ++ [Mysql.CallStopReplication r])).
  { unfold Mysql.stopPhase, Mysql.phase.
    destruct (fst (Mysql.getBool (Mysql.p_state p) (Mysql.stoppedKey r))).
    - eexists _, _. split; [by left|]. cbn. split; [reflexivity|discriminate].
    - destruct (Mysql.StopReplication acts r (Mysql.p_world p)) as [[e|] w'].
      + eexists _, _. split; [by right|]. cbn. split; [reflexivity|done].
      + eexists _, _. split; [by left|]. cbn. split; [reflexivity|done]. }
  destruct Hstop as (p1 & f & [E1|E1] & F1 & C1); unfold Mysql.phases; rewrite E1;
    cbn [Mysql.andThen];
    [|exists p1, f, []; split; [by right|]; split; [done|];
      intros Hunset; exists []; by apply C1].
  unfold Mysql.upgradePhase, Mysql.startPhase.
  destruct (phase_extends (Mysql.upgradedKey r) "running upgrade on "
              (Mysql.CallRunUpgrade r) (Mysql.RunUpgrade acts r)
              "upgrade failed: " "upgrade completed"
              "upgrade already completed" r p1)
    as (p2 & [E2|E2] & [m2 F2] & C2); rewrite E2; cbn [Mysql.andThen].
  2:{ exists p2, f, m2. split; [by right|].
      split; [by rewrite F2, F1, <- app_assoc|]. intros Hunset.
      destruct C2 as [-> | ->]; rewrite (C1 Hunset).
      - by exists [].
      - eexists. by rewrite <- app_assoc. }
  destruct (phase_extends (Mysql.resumedKey r) "starting replication on "
              (Mysql.CallStartReplication r) (Mysql.StartReplication acts r)
              "failed to start replication: " "replication started"
              "replication already started" r p2)
    as (p3 & E3 & [m3 F3] & C3).
  exists p3, f, (m2 ++ m3). split; [done|].
  split; [by rewrite F3, F2, F1, <- !app_assoc|]. intros Hunset.
  destruct C3 as [-> | ->]; destruct C2 as [-> | ->]; rewrite (C1 Hunset);
    rewrite <- ?app_assoc; by eexists.
Qed.

Lemma Run_status_unreadable (o : Mysql.UpgradeOrchestrator (S:=S) (W:=W)) replica w
    inspector acts w1 status e w2 :
  Go.TrimSpace replica ≠ "" →
  Mysql.Inspector o = Some inspector → Mysql.Actions o = Some acts →
  Mysql.IsPrimary inspector (Go.TrimSpace replica) w = ((false, None), w1) →
  Go.TrimSpace replica ≠ Mysql.Primary o →
  Mysql.ReplicationStatus_ inspector (Go.TrimSpace replica) w1 = ((status, Some e), w2) →
  let r := Go.TrimSpace replica in
  let warn := Mysql.about SeverityWarn ("unable to read replication status: " +:+ e) r in
  let out := Mysql.Run o replica w in
  Mysql.error_of out = None
  ∧ out = Mysql.returning o
            (Mysql.phases acts r
               (Mysql.mkProgress (Mysql.State_ o) (Mysql.Logger o) w2
                  [Mysql.CallIsPrimary r; Mysql.CallReplicationStatus r]
                  (mkSummary 0 1 0) [warn]))
  ∧ (∃ f rest, Mysql.findings_of out = warn :: f :: rest)
  ∧ (fst (Mysql.getBool (Mysql.State_ o) (Mysql.stoppedKey r)) = false →
     ∃ more,
       Mysql.calls_of out
       = Mysql.CallIsPrimary r :: Mysql.CallReplicationStatus r
         :: Mysql.CallStopReplication r :: more).
Proof.
  intros Hr Hi Ha Hcall Hnot Hstatus r warn out. subst out.
  rewrite (Run_proceeds _ _ _ _ _ _ _ _ _ Hr Hi Ha Hcall Hnot Hstatus). cbn zeta.
  fold r. cbn [Mysql.statusReport]. fold warn.
  change (applySummary Summary_zero [warn]) with (mkSummary 0 1 0).
  split; [reflexivity|]. split; [reflexivity|].
  match goal with |- context [Mysql.phases ?a ?r ?p] =>
    destruct (phases_begin a r p) as (p' & f & rest & Hp' & Hfs & Hcalls) end.
  cbn [Mysql.p_findings Mysql.p_calls Mysql.p_state] in Hfs, Hcalls.
  unfold Mysql.returning, Mysql.findings_of, Mysql.calls_of.
  destruct Hp' as [-> | ->]; cbn [fst snd]; rewrite Hfs;
    (split; [by exists f, rest|]); intros Hunset;
    destruct (Hcalls Hunset) as [more ->]; by exists more.
Qed.

(** C4 (as amended). An error of an inspection interface is never
    returned by the checks runner or by the orchestrator; it becomes a
    finding.  Either snapshot of the schema parity check that cannot be
    read makes [SchemaParityCheck.Run] return an error, and the checks
    runner turns whatever error a check returns into one Block recorded
    for that check and counted in the summary, returning no error
    itself; a connector status that cannot be read gives the single
    Block of the Debezium check; each of the three reads of the schema
    history check (existence, readability, coverage) that fails gives
    the single Block of that check; a failing primary check gives the
    single Block of the orchestrator; a replication status that cannot
    be read gives a Warn, not a Block, and the run goes on with the
    three phases, which add their findings after the Warn and begin
    with the call of [StopReplication] when its checkpoint is not set.
    The orchestrator returns an error only when its inspector or its
    actions are missing, the checks runner only when a check is not
    read-only. *)
Theorem transport_errors_become_findings :
  (∀ (r : Checks.Runner (W:=W)) input w pre post c fs e wc,
      Checks.Checks r = pre ++ c :: post →
      forallb Checks.ReadOnly (Checks.Checks r) = true →
      Checks.Check_Run c input (snd (Checks.executed pre input (Checks.Logger r) w))
      = ((fs, Some e), wc) →
      ∃ summary results eff,
        Checks.Runner_Run r input w = ((summary, results, None), eff)
        ∧ results !! length pre
          = Some (Checks.mkResult (Checks.Check_Name c)
                    (Checks.enforceMessages (Checks.Check_Name c) fs
                     ++ [Checks.checkError (Checks.Check_Name c) e]))
        ∧ Severity_of (Checks.checkError (Checks.Check_Name c) e) = SeverityBlock
        ∧ 1 ≤ Block summary)
  ∧ (∀ (r : Checks.Runner (W:=W)) input w pre post c inspect message wc,
      Checks.Checks r = pre ++ Checks.SchemaParityCheck_check c :: post →
      forallb Checks.ReadOnly (Checks.Checks r) = true →
      Checks.Inspector c = Some inspect →
      Checks.PrimaryHost c ≠ "" → Checks.ReplicaHost c ≠ "" →
      let w0 := snd (Checks.executed pre input (Checks.Logger r) w) in
      (∃ sch e, inspect (Checks.PrimaryHost c) w0 = ((sch, Some e), wc)
                ∧ message = "failed to read primary schema: " +:+ e)
      ∨ (∃ sch w1 sch' e,
            inspect (Checks.PrimaryHost c) w0 = ((sch, None), w1)
            ∧ inspect (Checks.ReplicaHost c) w1 = ((sch', Some e), wc)
            ∧ message = "failed to read replica schema: " +:+ e) →
      Checks.SchemaParityCheck_Run c input w0 = (([], Some message), wc)
      ∧ ∃ summary results eff,
          Checks.Runner_Run r input w = ((summary, results, None), eff)
          ∧ results !! length pre
            = Some (Checks.mkResult "schema_parity"
                      [Checks.checkError "schema_parity" message])
          ∧ 1 ≤ Block summary)
  ∧ (∀ (c : Cdc.DebeziumHealthCheck (W:=W)) input w inspect status e w1,
      Cdc.Inspector c = Some inspect →
      Cdc.Connector c ≠ "" →
      inspect (Cdc.Connector c) w = ((status, Some e), w1) →
      fst (Cdc.DebeziumHealthCheck_Run time_Now c input w)
      = ([Cdc.statusUnreadable (Cdc.Connector c) e], None)
      ∧ Severity_of (Cdc.statusUnreadable (Cdc.Connector c) e) = SeverityBlock)
  ∧ (∀ (c : Kafka.SchemaHistoryCheck (W:=W)) input w inspector,
      Kafka.Inspector c = Some inspector →
      Go.TrimSpace (Kafka.Topic c) ≠ "" →
      (∀ there e w1,
          Kafka.TopicExists inspector (Kafka.Topic c) w = ((there, Some e), w1) →
          Kafka.SchemaHistoryCheck_Run c input w
          = (([Kafka.about SeverityBlock
                 ("failed to check schema history topic " +:+ Go.fmt_q (Kafka.Topic c)
                  +:+ ": " +:+ e) c], None), w1))
      ∧ (∀ w1 readable e w2,
            Kafka.TopicExists inspector (Kafka.Topic c) w = ((true, None), w1) →
            Kafka.TopicReadable inspector (Kafka.Topic c) w1 = ((readable, Some e), w2) →
            Kafka.SchemaHistoryCheck_Run c input w
            = (([Kafka.about SeverityBlock
                   ("failed to read schema history topic " +:+ Go.fmt_q (Kafka.Topic c)
                    +:+ ": " +:+ e) c], None), w2))
      ∧ (∀ w1 w2 covered e w3,
            Kafka.TopicExists inspector (Kafka.Topic c) w = ((true, None), w1) →
            Kafka.TopicReadable inspector (Kafka.Topic c) w1 = ((true, None), w2) →
            Kafka.SchemaHistoryTables inspector (Kafka.Topic c) w2
            = ((covered, Some e), w3) →
            Kafka.SchemaHistoryCheck_Run c input w
            = (([Kafka.about SeverityBlock
                   ("failed to read schema history coverage for "
                    +:+ Go.fmt_q (Kafka.Topic c) +:+ ": " +:+ e) c], None), w3)))
  ∧ (∀ (o : Mysql.UpgradeOrchestrator (S:=S) (W:=W)) replica w inspector acts b e w1,
      Go.TrimSpace replica ≠ "" →
      Mysql.Inspector o = Some inspector → Mysql.Actions o = Some acts →
      Mysql.IsPrimary inspector (Go.TrimSpace replica) w = ((b, Some e), w1) →
      fst (Mysql.Run o replica w)
      = (mkSummary 0 0 1,
         [mkFinding SeverityBlock ("failed to determine primary status: " +:+ e) ∅],
         None))
  ∧ (∀ (o : Mysql.UpgradeOrchestrator (S:=S) (W:=W)) replica w inspector acts
       w1 status e w2,
      Go.TrimSpace replica ≠ "" →
      Mysql.Inspector o = Some inspector → Mysql.Actions o = Some acts →
      Mysql.IsPrimary inspector (Go.TrimSpace replica) w = ((false, None), w1) →
      Go.TrimSpace replica ≠ Mysql.Primary o →
      Mysql.ReplicationStatus_ inspector (Go.TrimSpace replica) w1
      = ((status, Some e), w2) →
      let r := Go.TrimSpace replica in
      let warn :=
        Mysql.about SeverityWarn ("unable to read replication status: " +:+ e) r in
      let out := Mysql.Run o replica w in
      Mysql.error_of out = None
      ∧ out = Mysql.returning o
                (Mysql.phases acts r
                   (Mysql.mkProgress (Mysql.State_ o) (Mysql.Logger o) w2
                      [Mysql.CallIsPrimary r; Mysql.CallReplicationStatus r]
                      (mkSummary 0 1 0) [warn]))
      ∧ (∃ f rest, Mysql.findings_of out = warn :: f :: rest)
      ∧ (fst (Mysql.getBool (Mysql.State_ o) (Mysql.stoppedKey r)) = false →
         ∃ more,
           Mysql.calls_of out
           = Mysql.CallIsPrimary r :: Mysql.CallReplicationStatus r
             :: Mysql.CallStopReplication r :: more))
  ∧ (∀ (o : Mysql.UpgradeOrchestrator (S:=S) (W:=W)) replica w,
      Mysql.error_of (Mysql.Run o replica w) ≠ None
      ↔ Go.TrimSpace replica ≠ ""
        ∧ (Mysql.Inspector o = None ∨ Mysql.Actions o = None))
  ∧ (∀ (r : Checks.Runner (W:=W)) input w,
      snd (fst (Checks.Runner_Run r input w)) ≠ None
      ↔ ∃ c, In c (Checks.Checks r) ∧ Checks.ReadOnly c = false).
Proof.
  repeat apply conj.
  - intros r input w pre post c fs e wc Hchecks Hro Hrun.
    destruct (check_error_becomes_block r input w pre post c fs e wc Hchecks Hro Hrun)
      as (summary & results & eff & Hrunner & Hlookup & Hblock).
    by exists summary, results, eff.
  - intros r input w pre post c inspect message wc Hchecks Hro Hi Hp Hr w0 Hread.
    assert (Hrun : Checks.SchemaParityCheck_Run c input w0 = (([], Some message), wc)).
    { destruct Hread as [(sch & e & Hread & ->)|(sch & w1 & sch' & e & Hread & Hread' & ->)].
      - by apply (SchemaParityCheck_Run_primary_unreadable c input w0 inspect sch).
      - by apply (SchemaParityCheck_Run_replica_unreadable c input w0 inspect sch w1 sch'). }
    split; [exact Hrun|].
    destruct (check_error_becomes_block r input w pre post
                (Checks.SchemaParityCheck_check c) [] _ wc Hchecks Hro Hrun)
      as (summary & results & eff & Hrunner & Hlookup & Hblock).
    by exists summary, results, eff.
  - intros c input w inspect status e w1 Hi Hc Hread.
    by rewrite (DebeziumHealthCheck_Run_unreadable c input w _ _ _ _ Hi Hc Hread).
  - intros c input w inspector Hi Ht. repeat apply conj.
    + intros there e w1. by apply SchemaHistoryCheck_Run_existence_unreadable.
    + intros w1 readable e w2. by apply SchemaHistoryCheck_Run_topic_unreadable.
    + intros w1 w2 covered e w3. by apply SchemaHistoryCheck_Run_coverage_unreadable.
  - intros o replica w inspector acts b e w1 Hr Hi Ha Hcall.
    by rewrite (Run_primary_unknown _ _ _ _ _ _ _ _ Hr Hi Ha Hcall).
  - intros o replica w inspector acts w1 status e w2. apply Run_status_unreadable.
  - intros o replica w. apply Run_error.
  - intros r input w. apply Runner_Run_error.
Qed.

End TransportErrors.

(** *** The theorems at work on the sample inputs *)

Section OnSamples.

Import Samples.
#[local] Existing Instance sampleFmt.

(** The tests of the repository, replayed on the embedding. *)

Example TestRun_WarnDoesNotStop :
  let out := Workflow.Runner_Run neverDone (runner [preflight; validate_replica]) tt in
  fst out = (mkSummary 1 1 0, None)
  ∧ IsCompleted (Workflow.State_ (fst (snd out))) "preflight" = true
  ∧ IsCompleted (Workflow.State_ (fst (snd out))) "validate_replica" = true.
Proof. repeat split; vm_compute; reflexivity. Qed.

Example TestRun_MutatingStepBlocked :
  let out := Workflow.Runner_Run neverDone (runner [preflight; upgrade_replica]) tt in
  fst out = (mkSummary 1 0 1, None)
  ∧ IsCompleted (Workflow.State_ (fst (snd out))) "preflight" = true
  ∧ IsCompleted (Workflow.State_ (fst (snd out))) "upgrade_replica" = false
  ∧ Workflow.results (fst (snd out)) !! "upgrade_replica"
    = Some (Workflow.mkStepResult [Workflow.mutationBlocked upgrade_replica]).
Proof. repeat split; vm_compute; reflexivity. Qed.

Example TestRun_SkipsCompletedSteps :
  fst (Workflow.Runner_Run neverDone
         (Workflow.NewRunner [preflight; validate_replica]
            (MarkCompleted "preflight" MemoryState.NewMemoryState) false) tt)
  = (mkSummary 0 1 0, None).
Proof. vm_compute. reflexivity. Qed.

Example TestRunner_ErrorBecomesBlock :
  fst (Checks.Runner_Run (Checks.NewRunner [failsCheck] []) noInput 0%nat)
  = (mkSummary 0 0 1,
     [Checks.mkResult "fails" [Checks.checkError "fails" "context canceled"]], None).
Proof. vm_compute. reflexivity. Qed.

Example TestRunner_RequiresMessage :
  fst (Checks.Runner_Run (Checks.NewRunner [missingMessage] []) noInput 0%nat)
  = (mkSummary 0 0 1,
     [Checks.mkResult "missing-message" [Checks.withoutMessage "missing-message"]], None).
Proof. vm_compute. reflexivity. Qed.

Example TestUpgradeOrchestrator_BlockStopsFlow :
  let out := Mysql.Run (orchestrator (staticReplicaInspector false running)
                          (Some failingUpgrade) MemoryState.NewMemoryState "mysql-primary")
               "replica-1" tt in
  Mysql.summary_of out = mkSummary 1 0 1
  ∧ Mysql.invocations Mysql.isStart (Mysql.calls_of out) = 0%nat
  ∧ List.last (Mysql.findings_of out) (mkFinding SeverityInfo "" ∅)
    = mkFinding SeverityBlock "upgrade failed: boom" ∅.
Proof. repeat split; vm_compute; reflexivity. Qed.

Example TestUpgradeOrchestrator_PartialProgressWarns :
  Mysql.summary_of
    (Mysql.Run (orchestrator (staticReplicaInspector false running) (Some simulatedActions)
                  (Set_ "replica_upgrade:replica-1:stopped" (VBool true)
                     MemoryState.NewMemoryState) "mysql-primary") "replica-1" tt)
  = mkSummary 3 1 0.
Proof. vm_compute. reflexivity. Qed.

Example TestDebeziumHealthCheck_ConnectorStoppedBlocks :
  fst (Cdc.DebeziumHealthCheck_Run id (reporting paused) noInput 0)
  = ([Cdc.connectorNotRunning paused], None).
Proof. vm_compute. reflexivity. Qed.

Example TestDebeziumHealthCheck_HealthyInfo :
  fst (Cdc.DebeziumHealthCheck_Run id (reporting steady) noInput 0)
  = ([Cdc.healthy steady], None).
Proof. vm_compute. reflexivity. Qed.

Example TestPromotionGate_RequiresConfirmation :
  fst (Promotion.PromotionGate_Run gate noInput "" tt)
  = (mkSummary 0 0 1, [Promotion.confirmationRequired gate], None).
Proof. vm_compute. reflexivity. Qed.

Example TestPromotionGate_MissingRequiredChecksBlocks :
  fst (Promotion.PromotionGate_Run
         (Promotion.mkPromotionGate [cdcLag] [] "PROMOTE" []) noInput "PROMOTE" tt)
  = (mkSummary 0 0 1, [Promotion.checksRequired ["schema_parity"]], None).
Proof. vm_compute. reflexivity. Qed.

(** The run of [preflight; validate_replica; cdc_check; post_validation]
    stops at [cdc_check], whose error became a Block: that step is not
    marked completed and [post_validation] has not run. *)
Lemma block_halts_on_samples :
  let out := Workflow.Runner_Run neverDone
               (runner [preflight; validate_replica; cdc_check; post_validation]) tt in
  fst out = (mkSummary 2 1 1, None)
  ∧ IsCompleted (Workflow.State_ (fst (snd out))) "validate_replica" = true
  ∧ IsCompleted (Workflow.State_ (fst (snd out))) "cdc_check" = false
  ∧ Workflow.results (fst (snd out)) !! "post_validation" = None.
Proof.
  edestruct (block_halts_else_checkpoint_and_continue neverDone
               (runner [preflight; validate_replica; cdc_check; post_validation]) tt
               [preflight; validate_replica] [post_validation] cdc_check)
    as [Hhalt _].
  - reflexivity.
  - reflexivity.
  - reflexivity.
  - reflexivity.
  - reflexivity.
  - reflexivity.
  - reflexivity.
  - destruct (Hhalt eq_refl) as [Hrun _]. cbn zeta. rewrite Hrun.
    repeat split; vm_compute; reflexivity.
Defined.

(** With [badStep] in the list nothing runs. *)
Lemma non_idempotent_rejected_on_samples :
  ∃ bad, In bad [preflight; badStep] ∧ Workflow.Idempotent bad = false
         ∧ Workflow.Runner_Run neverDone (runner [preflight; badStep]) tt
           = ((Summary_zero, Some (Workflow.notIdempotent bad)),
              (runner [preflight; badStep], tt)).
Proof.
  apply (non_idempotent_step_rejected neverDone (runner [preflight; badStep]) tt badStep).
  - right. left. reflexivity.
  - reflexivity.
Defined.

(** [mutatingCheck] stops the checks runner after [infoCheck] has run
    once: the world counts one run. *)
Lemma not_read_only_on_samples :
  Checks.Runner_Run (Checks.NewRunner [infoCheck; mutatingCheck; infoCheck] []) noInput 0%nat
  = ((Summary_zero, [], Some (Checks.notReadOnly mutatingCheck)),
     (["running preflight check: info"], 1%nat)).
Proof.
  exact (not_read_only_detected_at_execution_time
           (Checks.NewRunner [infoCheck; mutatingCheck; infoCheck] []) noInput 0%nat
           [infoCheck] [infoCheck] mutatingCheck eq_refl eq_refl eq_refl).
Defined.


(** Five restarts, the last one two minutes ago: a restart loop. *)
Lemma restart_loop_on_samples :
  In (Cdc.restartLoop (restarting 0) (10 * Go.Minute))
     (fst (fst (Cdc.DebeziumHealthCheck_Run id debeziumCheck noInput 0))).
Proof.
  edestruct (restart_loop_block_iff_and_healthy_info id debeziumCheck noInput 0)
    as (findings & Hrun & Hiff & _).
  - reflexivity.
  - discriminate.
  - reflexivity.
  - rewrite Hrun. apply Hiff. split; [vm_compute; discriminate|].
    eexists. split; [reflexivity|]. vm_compute. discriminate.
Defined.

(** A Warn in the re-validation blocks the promotion: the two findings
    of the re-validation come back, each under the name of its check,
    followed by the Block of the gate. *)
Lemma warn_blocks_promotion_on_samples :
  fst (Promotion.PromotionGate_Run gate noInput "PROMOTE" tt)
  = (mkSummary 1 1 1,
     [mkFinding SeverityWarn "cdc lag" {[ "check" := VString "cdc_debezium_health" ]};
      mkFinding SeverityInfo "ok" {[ "check" := VString "schema_parity" ]};
      Promotion.promotionBlocked (mkSummary 1 1 0)],
     None).
Proof.
  edestruct (promotion_needs_clean_revalidation gate noInput "PROMOTE" tt)
    as (_ & Hdirty & _).
  - vm_compute. discriminate.
  - reflexivity.
  - vm_compute. reflexivity.
  - reflexivity.
  - destruct Hdirty as [Hrun _]; [left; vm_compute; reflexivity|].
    rewrite Hrun. vm_compute. reflexivity.
Defined.

(** Two runs for [mysql-replica-1] on an empty store. *)
Lemma two_runs_on_samples : Mysql.each_action_once fresh " mysql-replica-1 " tt.
Proof.
  edestruct (two_runs_perform_each_action_once fresh " mysql-replica-1 " tt) as [Honce _].
  - reflexivity.
  - reflexivity.
  - reflexivity.
  - vm_compute. discriminate.
  - vm_compute. discriminate.
  - intros w. reflexivity.
  - intros w. reflexivity.
  - intros w. reflexivity.
  - intros w. reflexivity.
  - intros w. reflexivity.
  - vm_compute. reflexivity.
  - vm_compute. reflexivity.
  - vm_compute. reflexivity.
  - exact Honce.
Defined.

(** The configured primary is refused even when the inspector does not
    report it as primary. *)
Lemma primary_refused_on_samples : Mysql.refuses fresh "mysql-primary" tt.
Proof.
  edestruct (primary_target_refused fresh "mysql-primary" tt) as [Hrefuses _].
  - reflexivity.
  - reflexivity.
  - right. split; [reflexivity|vm_compute; reflexivity].
  - exact Hrefuses.
Defined.

(** A replication status that cannot be read gives a Warn and no error,
    and the run goes on: more findings follow the Warn and
    [StopReplication] is called. *)
Lemma status_unreadable_on_samples :
  Mysql.error_of (Mysql.Run blindToStatus "mysql-replica-1" tt) = None
  ∧ (∃ f rest,
        Mysql.findings_of (Mysql.Run blindToStatus "mysql-replica-1" tt)
        = Mysql.about SeverityWarn "unable to read replication status: connection refused"
            "mysql-replica-1" :: f :: rest)
  ∧ ∃ more,
      Mysql.calls_of (Mysql.Run blindToStatus "mysql-replica-1" tt)
      = Mysql.CallIsPrimary "mysql-replica-1"
        :: Mysql.CallReplicationStatus "mysql-replica-1"
        :: Mysql.CallStopReplication "mysql-replica-1" :: more.
Proof.
  destruct (@transport_errors_become_findings MemoryState.t _ unit sampleFmt asciiLower
              (λ _, 0))
    as (_ & _ & _ & _ & _ & Hwarn & _).
  destruct (Hwarn blindToStatus "mysql-replica-1" tt statusUnreadable simulatedActions tt
              (Mysql.mkReplicationStatus false false) "connection refused" tt)
    as (Herr & _ & Hfindings & Hcalls).
  - vm_compute. discriminate.
  - reflexivity.
  - reflexivity.
  - reflexivity.
  - vm_compute. discriminate.
  - reflexivity.
  - split; [exact Herr|]. split; [exact Hfindings|]. apply Hcalls. reflexivity.
Defined.

(** *** Where the claims as first stated fail *)

(** C2, as stated, fails: for a blank replica name no action is ever
    called, and on a store whose three checkpoints are already set (the
    store of the repository's re-run test) two runs call none. *)
Lemma two_runs_counterexample :
  ¬ Mysql.each_action_once fresh "   " tt
  ∧ Mysql.calls_of (Mysql.Run fresh "   " tt) = []
  ∧ Mysql.calls_of (Mysql.rerun (Mysql.Run fresh "   " tt) "   ") = []
  ∧ ¬ Mysql.each_action_once upgraded "replica-1" tt
  ∧ Mysql.calls_of (Mysql.Run upgraded "replica-1" tt)
    = [Mysql.CallIsPrimary "replica-1"; Mysql.CallReplicationStatus "replica-1"]
  ∧ Mysql.calls_of (Mysql.rerun (Mysql.Run upgraded "replica-1" tt) "replica-1")
    = [Mysql.CallIsPrimary "replica-1"; Mysql.CallReplicationStatus "replica-1"].
Proof.
  split; [intros [Hstop _]; vm_compute in Hstop; discriminate|].
  split; [vm_compute; reflexivity|]. split; [vm_compute; reflexivity|].
  split; [intros [Hstop _]; vm_compute in Hstop; discriminate|].
  split; vm_compute; reflexivity.
Qed.

(** C3, as stated, fails: a target equal to a configured primary hostname
    that starts with a blank is trimmed before the comparison and, when
    the inspector does not report it as primary, is upgraded; and without
    actions a run for the primary returns an error and no finding. *)
Lemma primary_guard_counterexample :
  " mysql-primary" = Mysql.Primary paddedPrimary
  ∧ ¬ Mysql.refuses paddedPrimary " mysql-primary" tt
  ∧ Mysql.calls_of (Mysql.Run paddedPrimary " mysql-primary" tt)
    = [Mysql.CallIsPrimary "mysql-primary"; Mysql.CallReplicationStatus "mysql-primary";
       Mysql.CallStopReplication "mysql-primary"; Mysql.CallRunUpgrade "mysql-primary";
       Mysql.CallStartReplication "mysql-primary"]
  ∧ "mysql-primary" = Mysql.Primary withoutActions
  ∧ ¬ Mysql.refuses withoutActions "mysql-primary" tt
  ∧ fst (Mysql.Run withoutActions "mysql-primary" tt)
    = (Summary_zero, [], Some "inspector and actions are required").
Proof.
  split; [reflexivity|]. split.
  { intros [_ [Hactions _]]. vm_compute in Hactions. discriminate. }
  split; [vm_compute; reflexivity|]. split; [reflexivity|]. split.
  { intros [[f [Hf _]] _]. vm_compute in Hf. discriminate. }
  vm_compute. reflexivity.
Qed.

(** C8, as stated, fails for the largest window: the restart count is
    at least the maximum and the last restart lies further back than
    the window, yet the time since it, saturated by [time.Since], does
    not exceed the window and the restart-loop Block is emitted. *)
Lemma restart_loop_counterexample :
  fst (Cdc.DebeziumHealthCheck_Run id widestWindow noInput 0)
  = ([Cdc.restartLoop longAgo Go.maxDuration], None)
  ∧ Cdc.RestartLoopWindow widestWindow = Go.maxDuration
  ∧ Cdc.LastRestartAt longAgo = Some (- 2 ^ 64)
  ∧ ¬ (0 - (- 2 ^ 64) ≤ Go.maxDuration)
  ∧ Go.time_Since 0 (- 2 ^ 64) = Go.maxDuration.
Proof.
  split; [vm_compute; reflexivity|]. split; [reflexivity|]. split; [reflexivity|].
  split; [unfold Go.maxDuration; lia|]. vm_compute. reflexivity.
Qed.

(** C4, as stated, fails: the error of reading the replication status
    becomes a Warn, the run ends without any Block; and the schema parity
    check returns the error of reading a snapshot as an error. *)
Lemma transport_error_counterexample :
  snd (fst (Mysql.ReplicationStatus_ statusUnreadable "mysql-replica-1" tt))
  = Some "connection refused"
  ∧ hasBlock (Mysql.findings_of (Mysql.Run blindToStatus "mysql-replica-1" tt)) = false
  ∧ Mysql.summary_of (Mysql.Run blindToStatus "mysql-replica-1" tt) = mkSummary 3 1 0
  ∧ Mysql.error_of (Mysql.Run blindToStatus "mysql-replica-1" tt) = None
  ∧ snd (fst (Checks.SchemaParityCheck_Run parityCheck noInput tt))
    = Some "failed to read primary schema: connection refused".
Proof. repeat split; vm_compute; reflexivity. Qed.

End OnSamples.

(* ===================================================================== *)
(** * Further properties of the code *)
(* ===================================================================== *)

(** *** Summaries and the result aggregator *)

Lemma count_one_comm s f g : count_one (count_one s f) g = count_one (count_one s g) f.
Proof.
  unfold count_one. destruct (Severity_of f), (Severity_of g); cbn; f_equal; lia.
Qed.

Lemma applySummary_Permutation fs gs :
  fs ≡ₚ gs → ∀ s, applySummary s fs = applySummary s gs.
Proof.
  induction 1 as [|f fs gs _ IH|f g fs|fs gs hs _ IH1 _ IH2]; intros s.
  - reflexivity.
  - rewrite !applySummary_cons. apply IH.
  - rewrite !applySummary_cons. by rewrite count_one_comm.
  - by rewrite IH1.
Qed.

Lemma hasBlock_Permutation fs gs : fs ≡ₚ gs → hasBlock fs = hasBlock gs.
Proof.
  induction 1 as [|f fs gs _ IH|f g fs|fs gs hs _ IH1 _ IH2]; unfold hasBlock in *; cbn.
  - reflexivity.
  - by rewrite IH.
  - by rewrite !orb_assoc, (orb_comm (is_block g)).
  - by rewrite IH1.
Qed.

(** The counts of a summary do not depend on the order in which the
    findings are applied. *)
Theorem applySummary_order_free (s : Summary) (fs gs : list Finding) :
  fs ≡ₚ gs → applySummary s fs = applySummary s gs.
Proof. intros Hp. by apply applySummary_Permutation. Qed.

Lemma applySummary_order_free_witness :
  applySummary Summary_zero
    [mkFinding SeverityInfo "ok" ∅; mkFinding SeverityBlock "stop" ∅]
  = applySummary Summary_zero
      [mkFinding SeverityBlock "stop" ∅; mkFinding SeverityInfo "ok" ∅].
Proof. apply applySummary_order_free. apply perm_swap. Defined.

(** X1. [AddFindings] composes and latches: adding two batches one after
    the other leaves the aggregator that adding their concatenation
    leaves, whichever batch comes first; the value returned is false
    exactly when the aggregator was blocked before or the batch holds a
    Block, so that once a Block has been seen every later call returns
    false; the summary counts every finding added. *)
Theorem AddFindings_composes_and_latches (a : Aggregator.ResultAggregator)
    (fs gs : list Finding) :
  Aggregator.AddFindings (snd (Aggregator.AddFindings a fs)) gs
  = Aggregator.AddFindings a (fs ++ gs)
  ∧ Aggregator.AddFindings a (fs ++ gs) = Aggregator.AddFindings a (gs ++ fs)
  ∧ fst (Aggregator.AddFindings a fs) = negb (Aggregator.Blocked a || hasBlock fs)
  ∧ Aggregator.Blocked (snd (Aggregator.AddFindings a fs))
    = Aggregator.Blocked a || hasBlock fs
  ∧ Aggregator.Summary_ (snd (Aggregator.AddFindings a fs))
    = applySummary (Aggregator.Summary_ a) fs.
Proof.
  unfold Aggregator.AddFindings, Aggregator.Blocked, Aggregator.Summary_.
  rewrite !aggregate_spec. cbn [snd fst Aggregator.summary Aggregator.blocked].
  rewrite ?aggregate_spec.
  split; [by rewrite applySummary_app, hasBlock_app, orb_assoc|].
  split; [|done].
  by rewrite (applySummary_Permutation _ _ (Permutation_app_comm fs gs)),
    (hasBlock_Permutation _ _ (Permutation_app_comm fs gs)).
Qed.

(** *** The workflow runner: refusing, skipping, cancelling, re-running *)

#[global] Instance MemoryState_keeps : KeepsCompleted MemoryState.t.
Proof.
  split. intros s n n'. cbn. unfold MemoryState.IsCompleted, MemoryState.MarkCompleted. cbn.
  rewrite !bool_decide_eq_true. set_solver.
Qed.

#[global] Instance FileState_keeps : KeepsCompleted FileState.t.
Proof.
  split. intros s n n'. cbn. unfold FileState.IsCompleted, FileState.MarkCompleted. cbn.
  destruct (decide (FileState.completedKey n = FileState.completedKey n')) as [E|E].
  - by rewrite E, lookup_insert_eq.
  - by rewrite lookup_insert_ne.
Qed.

Section RunnerMore.

Import Workflow.
Context {S : Type} `{!State S} {W : Type} `{!Go.Fmt}.
Variable ctx_Err : W → option Go.error.

(** [Run] at the moment its loop reaches [step], with the steps before it
    behind. *)
Lemma Run_reaches (r0 : Runner) (w0 : W) (pre post : list Step) (step : Step)
    (r : Runner) (w : W) (summary : Summary) :
  Steps r0 = pre ++ step :: post →
  forallb Idempotent (Steps r0) = true →
  loop ctx_Err pre r0 w0 Summary_zero = Continue r w summary →
  Runner_Run ctx_Err r0 w0
  = returned (match iteration ctx_Err r w summary step with
              | Continue r1 w1 s1 => loop ctx_Err post r1 w1 s1
              | Return r1 w1 s1 e => Return r1 w1 s1 e
              end).
Proof.
  intros Hsteps Hidem Hpre. unfold Runner_Run.
  rewrite (find_none_of_forallb _ Hidem), Hsteps, loop_app, Hpre. reflexivity.
Qed.

(** X2. A mutating step reached while mutations are not allowed is not
    run: [Run] returns there without an error, the summary counts one
    more Block, the result recorded for the step is exactly one Block
    finding, and the checkpoint store and the world are as they were, so
    that the step is not marked completed. *)
Theorem mutating_step_refused (r0 : Runner) (w0 : W) (pre post : list Step) (step : Step)
    (r : Runner) (w : W) (summary : Summary) :
  Steps r0 = pre ++ step :: post →
  forallb Idempotent (Steps r0) = true →
  loop ctx_Err pre r0 w0 Summary_zero = Continue r w summary →
  ctx_Err w = None →
  IsCompleted (State_ r) (Name step) = false →
  Mutates step = true →
  AllowMutations r = false →
  ∃ r', Runner_Run ctx_Err r0 w0
        = ((mkSummary (Info summary) (Warn summary) (Block summary + 1), None), (r', w))
        ∧ State_ r' = State_ r
        ∧ results r' = <[Name step := mkStepResult [mutationBlocked step]]> (results r)
        ∧ Severity_of (mutationBlocked step) = SeverityBlock.
Proof.
  intros Hsteps Hidem Hpre Hctx Hdone Hmut Hallow.
  rewrite (Run_reaches _ _ _ _ _ _ _ _ Hsteps Hidem Hpre).
  unfold iteration. rewrite Hctx, Hdone, Hmut, Hallow. cbn.
  eexists. split; [reflexivity|]. done.
Qed.

(** X3. A step that is marked completed when the loop reaches it is
    skipped: its [Run] is not called, and [Run] goes on with the steps
    after it from the same summary, checkpoint store, recorded results
    and world. *)
Theorem completed_step_skipped (r0 : Runner) (w0 : W) (pre post : list Step) (step : Step)
    (r : Runner) (w : W) (summary : Summary) :
  Steps r0 = pre ++ step :: post →
  forallb Idempotent (Steps r0) = true →
  loop ctx_Err pre r0 w0 Summary_zero = Continue r w summary →
  ctx_Err w = None →
  IsCompleted (State_ r) (Name step) = true →
  Runner_Run ctx_Err r0 w0
  = returned (loop ctx_Err post
                (Printf r ("skipping completed step: " +:+ Name step)) w summary)
  ∧ State_ (Printf r ("skipping completed step: " +:+ Name step)) = State_ r
  ∧ results (Printf r ("skipping completed step: " +:+ Name step)) = results r.
Proof.
  intros Hsteps Hidem Hpre Hctx Hdone.
  rewrite (Run_reaches _ _ _ _ _ _ _ _ Hsteps Hidem Hpre).
  unfold iteration. rewrite Hctx, Hdone. done.
Qed.

(** X4. When the context is done as the loop reaches a step, [Run]
    returns the context's error with the summary gathered so far; the
    step is not run, and the checkpoint store, the recorded results and
    the world stay as they were. *)
Theorem cancellation_stops_at_step_boundary (r0 : Runner) (w0 : W)
    (pre post : list Step) (step : Step) (r : Runner) (w : W) (summary : Summary)
    (e : Go.error) :
  Steps r0 = pre ++ step :: post →
  forallb Idempotent (Steps r0) = true →
  loop ctx_Err pre r0 w0 Summary_zero = Continue r w summary →
  ctx_Err w = Some e →
  ∃ r', Runner_Run ctx_Err r0 w0 = ((summary, Some e), (r', w))
        ∧ State_ r' = State_ r ∧ results r' = results r.
Proof.
  intros Hsteps Hidem Hpre Hctx.
  rewrite (Run_reaches _ _ _ _ _ _ _ _ Hsteps Hidem Hpre).
  unfold iteration. rewrite Hctx. cbn. eexists. split; [reflexivity|]. done.
Qed.

(** When every step is marked the loop changes nothing but the log. *)
Lemma loop_all_completed (steps : list Step) : ∀ (r : Runner) (w : W) summary,
  ctx_Err w = None →
  (∀ step, In step steps → IsCompleted (State_ r) (Name step) = true) →
  ∃ r', loop ctx_Err steps r w summary = Continue r' w summary
        ∧ State_ r' = State_ r ∧ results r' = results r.
Proof.
  induction steps as [|step steps IH]; intros r w summary Hctx Hall.
  - by exists r.
  - cbn [loop]. unfold iteration. rewrite Hctx, (Hall step) by (by left).
    destruct (IH (Printf r ("skipping completed step: " +:+ Name step)) w summary Hctx)
      as (r' & Hloop & Hst & Hres).
    { intros s Hs. apply Hall. by right. }
    exists r'. by rewrite Hloop.
Qed.

(** X5. Running again when every step is already marked completed runs
    nothing: [Run] returns the zero summary and no error, and the
    checkpoint store, the recorded results and the world are unchanged. *)
Theorem rerun_of_completed_plan_runs_nothing (r : Runner) (w : W) :
  forallb Idempotent (Steps r) = true →
  ctx_Err w = None →
  (∀ step, In step (Steps r) → IsCompleted (State_ r) (Name step) = true) →
  ∃ r', Runner_Run ctx_Err r w = ((Summary_zero, None), (r', w))
        ∧ State_ r' = State_ r ∧ results r' = results r.
Proof.
  intros Hidem Hctx Hall. unfold Runner_Run. rewrite (find_none_of_forallb _ Hidem).
  destruct (loop_all_completed (Steps r) r w Summary_zero Hctx Hall)
    as (r' & Hloop & Hst & Hres).
  exists r'. by rewrite Hloop.
Qed.

Lemma hasBlock_false_count fs : hasBlock fs = false → countSeverity fs SeverityBlock = 0.
Proof.
  intros Hno. apply countSeverity_none. intros f Hin Hsev.
  unfold hasBlock in Hno.
  assert (existsb is_block fs = true); [|congruence].
  apply existsb_exists. exists f. split; [done|]. unfold is_block.
  by apply bool_decide_eq_true.
Qed.

Lemma hasBlock_true_count fs : hasBlock fs = true → 1 ≤ countSeverity fs SeverityBlock.
Proof.
  unfold hasBlock. intros (f & Hin & Hf)%existsb_exists.
  unfold is_block in Hf. apply bool_decide_eq_true in Hf. rewrite <- Hf.
  by apply countSeverity_in.
Qed.

(** What the loop keeps: while it goes on the Block count does not move,
    no mark is lost and every step visited is marked; when it returns
    without an error the Block count has grown. *)
Lemma loop_marks `{!LawfulState S} `{!KeepsCompleted S} (steps : list Step) :
  (∀ step, In step steps → keepsMarks step) →
  ∀ (r : Runner) (w : W) summary,
    match loop ctx_Err steps r w summary with
    | Continue r' w' summary' =>
        Block summary' = Block summary
        ∧ (∀ n, IsCompleted (State_ r) n = true → IsCompleted (State_ r') n = true)
        ∧ (∀ step, In step steps → IsCompleted (State_ r') (Name step) = true)
    | Return r' w' summary' None => Block summary + 1 ≤ Block summary'
    | Return r' w' summary' (Some _) => True
    end.
Proof.
  induction steps as [|step steps IH]; intros Hkeep r w summary.
  - cbn. split; [done|]. split; [done|]. intros step [].
  - cbn [loop].
    assert (Hit : match iteration ctx_Err r w summary step with
                  | Continue r1 w1 s1 =>
                      Block s1 = Block summary
                      ∧ (∀ n, IsCompleted (State_ r) n = true
                              → IsCompleted (State_ r1) n = true)
                      ∧ IsCompleted (State_ r1) (Name step) = true
                  | Return r1 w1 s1 None => Block summary + 1 ≤ Block s1
                  | Return r1 w1 s1 (Some _) => True
                  end).
    { unfold iteration. destruct (ctx_Err w); [done|].
      destruct (IsCompleted (State_ r) (Name step)) eqn:Hdone; [by cbn|].
      destruct (Mutates step && negb (AllowMutations r)); [cbn; lia|].
      cbn [Printf State_].
      pose proof (Hkeep step (or_introl eq_refl) (State_ r) w) as Hk.
      destruct (Run step (State_ r) w) as [[res err] [st w1]]. cbn [fst snd] in Hk.
      rewrite aggregate_spec. cbn [orb].
      destruct (hasBlock (Findings (recorded step res err))) eqn:Hb.
      - rewrite applySummary_counts. cbn [Block].
        apply hasBlock_true_count in Hb. lia.
      - rewrite applySummary_counts. cbn [Block set_State set_result Printf State_].
        rewrite (hasBlock_false_count _ Hb). split; [lia|]. split.
        + intros n Hn. by apply MarkCompleted_keeps, Hk.
        + apply IsCompleted_MarkCompleted. }
    destruct (iteration ctx_Err r w summary step) as [r1 w1 s1|r1 w1 s1 [e|]]; [|done..].
    destruct Hit as (Hb1 & Hk1 & Hs1).
    specialize (IH (λ s Hs, Hkeep s (or_intror Hs)) r1 w1 s1).
    destruct (loop ctx_Err steps r1 w1 s1) as [r2 w2 s2|r2 w2 s2 [e|]]; [|done|lia].
    destruct IH as (Hb2 & Hk2 & Hs2). split; [lia|]. split; [by auto|].
    intros s [<-|Hs]; [by apply Hk2|by apply Hs2].
Qed.

(** X6. When [Run] returns no error and a summary without any Block,
    every step of the list is marked completed in the checkpoint store it
    leaves, provided neither the store nor the steps take a mark back. *)
Theorem clean_run_marks_every_step `{!LawfulState S} `{!KeepsCompleted S}
    (r : Runner) (w : W) (summary : Summary) (r' : Runner) (w' : W) :
  (∀ step, In step (Steps r) → keepsMarks step) →
  Runner_Run ctx_Err r w = ((summary, None), (r', w')) →
  Block summary = 0 →
  ∀ step, In step (Steps r) → IsCompleted (State_ r') (Name step) = true.
Proof.
  intros Hkeep Hrun Hclean. unfold Runner_Run in Hrun.
  destruct (List.find _ (Steps r)); [discriminate|].
  pose proof (loop_marks (Steps r) Hkeep r w Summary_zero) as Hloop.
  destruct (loop ctx_Err (Steps r) r w Summary_zero) as [r1 w1 s1|r1 w1 s1 [e|]];
    cbn in Hrun; try discriminate.
  - injection Hrun as <- <- <-. by destruct Hloop as (_ & _ & Hall).
  - injection Hrun as <- <- <-. cbn in Hloop. lia.
Qed.

End RunnerMore.

(** *** The checks runner: messages and full visits *)

Section ChecksMore.

Import Checks.
Context {W : Type} `{!Go.Fmt}.

Lemma withoutMessage_not_blank name : Go.TrimSpace (Message (withoutMessage name)) ≠ "".
Proof. cbn. apply TrimSpace_solid. by split. Qed.

Lemma enforceMessages_in name fs f :
  In f (enforceMessages name fs) →
  (In f fs ∧ Go.TrimSpace (Message f) ≠ "") ∨ f = withoutMessage name.
Proof.
  induction fs as [|g fs IH]; cbn; [done|].
  case_decide as Hblank; intros [<-|Hin]; auto.
  - destruct (IH Hin) as [[? ?]|?]; auto.
  - destruct (IH Hin) as [[? ?]|?]; auto.
Qed.

(** X7. [enforceMessages] keeps the number and the order of the findings,
    leaves no finding with a blank message, changes nothing when no
    message is blank, puts a Block in the place of every finding it
    replaces and never removes a Block. *)
Theorem enforceMessages_leaves_no_blank_message (name : string) (fs : list Finding) :
  length (enforceMessages name fs) = length fs
  ∧ (∀ f, In f (enforceMessages name fs) → Go.TrimSpace (Message f) ≠ "")
  ∧ (∀ i f, fs !! i = Some f →
            enforceMessages name fs !! i
            = Some (if decide (Go.TrimSpace (Message f) = "")
                    then withoutMessage name else f))
  ∧ ((∀ f, In f fs → Go.TrimSpace (Message f) ≠ "") → enforceMessages name fs = fs)
  ∧ (hasBlock fs = true → hasBlock (enforceMessages name fs) = true)
  ∧ Severity_of (withoutMessage name) = SeverityBlock.
Proof.
  split; [apply enforceMessages_length|]. split.
  { intros f [[_ Hf]| ->]%enforceMessages_in; [done|apply withoutMessage_not_blank]. }
  split.
  { induction fs as [|g fs IH]; intros [|i] f; cbn; try done.
    - intros [= ->]. by case_decide.
    - intros Hi. case_decide; cbn; by apply IH. }
  split.
  { induction fs as [|g fs IH]; cbn; [done|]. intros Hall.
    rewrite decide_False by (apply Hall; by left).
    f_equal. apply IH. intros f Hf. apply Hall. by right. }
  split; [apply enforceMessages_block|done].
Qed.

Lemma collected_names (checks : list (PreflightCheck (W:=W))) input : ∀ w,
  map CheckName (collected checks input w) = map Check_Name checks.
Proof.
  induction checks as [|c checks IH]; intros w; cbn; [done|].
  destruct (Check_Run c input w) as [[fs err] w1]. cbn. by rewrite IH.
Qed.

Lemma collected_not_blank (checks : list (PreflightCheck (W:=W))) input : ∀ w f,
  In f (allFindings (collected checks input w)) → Go.TrimSpace (Message f) ≠ "".
Proof.
  induction checks as [|c checks IH]; intros w f; cbn; [done|].
  destruct (Check_Run c input w) as [[fs err] w1]. cbn.
  intros [Hin|Hin]%in_app_or; [|by apply (IH w1)].
  unfold kept in Hin.
  apply enforceMessages_in in Hin as [[_ ?]| ->]; [done|apply withoutMessage_not_blank].
Qed.

(** X8. With read-only checks only, [Run] never stops early: it returns
    no error, it has run every check in order (whatever the earlier ones
    found), it returns one result for each check, under the check's name
    and in the order of the list, its summary counts the findings of
    these results, and none of these findings has a blank message. *)
Theorem checks_runner_visits_every_check (r : Runner (W:=W)) (input : Input) (w : W) :
  forallb ReadOnly (Checks r) = true →
  ∃ summary results,
    Runner_Run r input w
    = ((summary, results, None), executed (Checks r) input (Logger r) w)
    ∧ map CheckName results = map Check_Name (Checks r)
    ∧ summary = applySummary Summary_zero (allFindings results)
    ∧ (∀ f, In f (allFindings results) → Go.TrimSpace (Message f) ≠ "").
Proof.
  intros Hro. unfold Runner_Run. rewrite (run_checks_read_only _ _ Hro). cbn [app].
  eexists _, _. split; [reflexivity|].
  split; [apply collected_names|]. split; [done|]. apply collected_not_blank.
Qed.

End ChecksMore.

(** *** The schema parity engine: tables and columns *)

Section SchemaMore.

Import Checks.
Context `{!Go.Fmt}.

Lemma flat_map_nil {A B : Type} (f : A → list B) (l : list A) :
  (∀ x, In x l → f x = []) → flat_map f l = [].
Proof.
  induction l as [|x l IH]; cbn; [done|]. intros Hall.
  rewrite (Hall x) by (by left). apply IH. intros y Hy. apply Hall. by right.
Qed.

Lemma equalDefaults_eq a b : equalDefaults a b = true ↔ a = b.
Proof.
  destruct a, b; cbn; rewrite ?bool_decide_eq_true; split; congruence.
Qed.

Lemma tableIndex_snoc tables t :
  tableIndex (tables ++ [t]) = <[Table_Name t := t]> (tableIndex tables).
Proof. unfold tableIndex. by rewrite fold_left_app. Qed.

(** X9. The table index keeps, for every name, the last table of that
    name in the snapshot: what a lookup returns is a table of the list
    carrying that name, a name is found exactly when some table of the
    list carries it, and a table is what is found under its name when no
    later table has the same name. *)
Theorem tableIndex_last_table_of_each_name (tables : list Table) (name : string) :
  (∀ t, tableIndex tables !! name = Some t → In t tables ∧ Table_Name t = name)
  ∧ (is_Some (tableIndex tables !! name) ↔ ∃ t, In t tables ∧ Table_Name t = name)
  ∧ (∀ before t after,
       tables = before ++ t :: after →
       Table_Name t = name →
       (∀ t', In t' after → Table_Name t' ≠ name) →
       tableIndex tables !! name = Some t).
Proof.
  assert (Hsome : ∀ tables t, tableIndex tables !! name = Some t
                              → In t tables ∧ Table_Name t = name).
  { clear tables. intros tables. induction tables as [|x tables IH] using rev_ind; intros t.
    - unfold tableIndex. cbn. by rewrite lookup_empty.
    - rewrite tableIndex_snoc. destruct (decide (Table_Name x = name)) as [E|E].
      + rewrite E, lookup_insert_eq. intros [= <-]. split; [|done].
        apply in_or_app. right. by left.
      + rewrite lookup_insert_ne by done. intros [Hin Hn]%IH.
        split; [|done]. apply in_or_app. by left. }
  assert (Hlast : ∀ after before t,
             Table_Name t = name →
             (∀ t', In t' after → Table_Name t' ≠ name) →
             tableIndex (before ++ t :: after) !! name = Some t).
  { intros after. induction after as [|x after IH] using rev_ind; intros before t Hn Hno.
    - rewrite tableIndex_snoc, Hn. apply lookup_insert_eq.
    - replace (before ++ t :: after ++ [x]) with ((before ++ t :: after) ++ [x])
        by (by rewrite <- app_assoc).
      rewrite tableIndex_snoc, lookup_insert_ne.
      + apply IH; [done|].
        intros t' Ht'. apply Hno, in_or_app. by left.
      + apply Hno, in_or_app. right. by left. }
  split; [apply Hsome|]. split.
  - split.
    + intros [t Ht]. exists t. by apply Hsome.
    + intros (t & Hin & Hn). revert t Hin Hn.
      induction tables as [|x tables IH] using rev_ind; intros t Hin Hn; [done|].
      rewrite tableIndex_snoc. destruct (decide (Table_Name x = name)) as [E|E].
      * rewrite E, lookup_insert_eq. by eexists.
      * rewrite lookup_insert_ne by done.
        apply in_app_or in Hin as [Hin|[->|[]]]; [by apply (IH t)|done].
  - intros before t after -> Hn Hno. by apply Hlast.
Qed.

Lemma compareColumn_same table name c (idx : gmap string Column) :
  idx !! name = Some c → compareColumn table name c idx = [].
Proof.
  intros Hc. unfold compareColumn. rewrite Hc.
  rewrite !bool_decide_eq_false_2 by (intros Hne; by apply Hne).
  by rewrite (proj2 (equalDefaults_eq _ _) eq_refl).
Qed.

Lemma compareColumns_same table cols : compareColumns table cols cols = [].
Proof.
  unfold compareColumns. cbn zeta. rewrite !flat_map_nil; [done| |].
  - intros [name c] Hin%list_elem_of_In%elem_of_map_to_list. by rewrite Hin.
  - intros [name c] Hin%list_elem_of_In%elem_of_map_to_list.
    by apply compareColumn_same.
Qed.

(** X10. Comparing a snapshot with itself gives no finding. *)
Theorem compareSchemas_same_snapshot (schema : Schema) : compareSchemas schema schema = [].
Proof.
  unfold compareSchemas. cbn zeta. rewrite !flat_map_nil; [done| |].
  - intros [name t] Hin%list_elem_of_In%elem_of_map_to_list. by rewrite Hin.
  - intros [name t] Hin%list_elem_of_In%elem_of_map_to_list.
    unfold compareTable. rewrite Hin.
    by rewrite comparePrimaryKey_same, compareColumns_same.
Qed.

(** X11. A table of the primary that the replica lacks is reported as a
    Block, a table that only the replica has as a Warn. *)
Theorem table_presence_findings (primary replica : Schema) (name : string) :
  let missing := mkFinding SeverityBlock ("table " +:+ Go.fmt_q name +:+ " missing on replica")
                   {[ "table" := VString name ]} in
  let extra := mkFinding SeverityWarn ("extra table " +:+ Go.fmt_q name +:+ " exists on replica")
                 {[ "table" := VString name ]} in
  (is_Some (tableIndex (Tables primary) !! name) →
   tableIndex (Tables replica) !! name = None →
   In missing (compareSchemas primary replica))
  ∧ (tableIndex (Tables primary) !! name = None →
     is_Some (tableIndex (Tables replica) !! name) →
     In extra (compareSchemas primary replica)).
Proof.
  cbn zeta. split.
  - intros [t Ht] Hnone. apply (compareTable_in_compareSchemas _ _ name t); [done|].
    unfold compareTable. rewrite Hnone. by left.
  - intros Hnone [t Ht]. unfold compareSchemas. cbn zeta. apply in_or_app. right.
    apply in_flat_map. exists (name, t). split.
    + by apply list_elem_of_In, elem_of_map_to_list.
    + rewrite Hnone. by left.
Qed.



Lemma comparePrimaryKey_no_info table p q f :
  In f (comparePrimaryKey table p q) → Severity_of f ≠ SeverityInfo.
Proof.
  unfold comparePrimaryKey. repeat case_match; cbn; intros Hin;
    repeat destruct Hin as [<-|Hin]; try done.
Qed.

Lemma compareColumn_no_info table name c (idx : gmap string Column) f :
  In f (compareColumn table name c idx) → Severity_of f ≠ SeverityInfo.
Proof.
  unfold compareColumn. repeat case_match; cbn; intros Hin;
    repeat destruct Hin as [<-|Hin]; try done.
Qed.

(** X13. The engine reports divergence only: no finding of
    [compareSchemas] has severity Info. *)
Theorem compareSchemas_never_info (primary replica : Schema) (f : Finding) :
  In f (compareSchemas primary replica) → Severity_of f ≠ SeverityInfo.
Proof.
  unfold compareSchemas. cbn zeta.
  intros [Hin|Hin]%in_app_or; apply in_flat_map in Hin as ([name t] & _ & Hin).
  - unfold compareTable in Hin. destruct (tableIndex (Tables replica) !! name) as [rt|].
    + apply in_app_or in Hin as [Hin|Hin]; [by apply comparePrimaryKey_no_info in Hin|].
      unfold compareColumns in Hin. cbn zeta in Hin.
      apply in_app_or in Hin as [Hin|Hin]; apply in_flat_map in Hin as ([cn c] & _ & Hin).
      * by apply compareColumn_no_info in Hin.
      * destruct (columnIndex (Columns t) !! cn); [done|]. by destruct Hin as [<-|[]].
    + by destruct Hin as [<-|[]].
  - destruct (tableIndex (Tables primary) !! name); [done|]. by destruct Hin as [<-|[]].
Qed.

End SchemaMore.

(** *** The Debezium health check: every condition is reported *)

Section DebeziumMore.

Import Cdc.
Context {W : Type} `{!Go.Fmt}.
Variable time_Now : W → Z.

Lemma taskFindings_length status tasks :
  length (taskFindings status tasks)
  = length (filter (λ t, Task_State t ≠ "RUNNING") tasks).
Proof.
  induction tasks as [|t tasks IH]; [done|].
  cbn [taskFindings]. rewrite filter_cons.
  case_bool_decide; case_decide; try done. cbn [length]. by rewrite IH.
Qed.

Lemma taskFindings_block status tasks f :
  In f (taskFindings status tasks) → Severity_of f = SeverityBlock.
Proof.
  induction tasks as [|t tasks IH]; cbn; [done|].
  case_bool_decide; [|done]. intros [<-|Hin]; [done|by apply IH].
Qed.

Lemma taskFindings_in status tasks task :
  In task tasks → Task_State task ≠ "RUNNING" →
  In (taskNotRunning status task) (taskFindings status tasks).
Proof.
  induction tasks as [|t tasks IH]; cbn; [done|].
  intros [->|Hin] Hne.
  - rewrite bool_decide_eq_true_2 by done. by left.
  - case_bool_decide; [right|]; by apply IH.
Qed.

(** The findings before the final test for emptiness. *)
Lemma statusFindings_unfold status window max now :
  statusFindings status window max now
  = match (if bool_decide (ConnectorState status ≠ "RUNNING")
           then [connectorNotRunning status] else [])
          ++ taskFindings status (Tasks status)
          ++ (if isRestartLoop status window max now
              then [restartLoop status window] else []) with
    | [] => [healthy status]
    | f :: fs => f :: fs
    end.
Proof. unfold statusFindings. cbn zeta. by destruct (_ ++ _). Qed.

(** X14. The check never returns an empty list and never mixes Info with
    Block: when the connector is RUNNING, every task is RUNNING and there
    is no restart loop it returns the single Info finding; otherwise it
    returns Blocks only, one for the connector state if it is not
    RUNNING, one for each task that is not RUNNING, and one for the
    restart loop, whatever the other conditions are. *)
Theorem status_findings_count_conditions
    (c : DebeziumHealthCheck) (input : Checks.Input) (w : W)
    (inspect : DebeziumInspector) (status : ConnectorStatus) (w' : W) :
  Inspector c = Some inspect →
  Connector c ≠ "" →
  inspect (Connector c) w = ((status, None), w') →
  let findings := fst (fst (DebeziumHealthCheck_Run time_Now c input w)) in
  let fired :=
    ((if bool_decide (ConnectorState status ≠ "RUNNING") then 1 else 0)
     + length (filter (λ t, Task_State t ≠ "RUNNING") (Tasks status))
     + (if isRestartLoop status (RestartLoopWindow (withDefaults c))
             (RestartLoopMax (withDefaults c)) (time_Now w')
        then 1 else 0))%nat in
  findings ≠ []
  ∧ (fired = 0%nat → findings = [healthy status])
  ∧ (fired ≠ 0%nat →
     length findings = fired ∧ ∀ f, In f findings → Severity_of f = SeverityBlock).
Proof.
  intros Hinsp Hconn Hread findings fired. subst findings.
  unfold DebeziumHealthCheck_Run. rewrite Hinsp.
  rewrite bool_decide_eq_false_2 by done.
  change (Connector (withDefaults c)) with (Connector c). rewrite Hread. cbn [fst].
  rewrite statusFindings_unfold.
  set (window := RestartLoopWindow (withDefaults c)) in *.
  set (max := RestartLoopMax (withDefaults c)) in *.
  set (A := if bool_decide (ConnectorState status ≠ "RUNNING")
            then [connectorNotRunning status] else []).
  set (T := taskFindings status (Tasks status)).
  set (R := if isRestartLoop status window max (time_Now w')
            then [restartLoop status window] else []).
  assert (Hlen : length (A ++ T ++ R) = fired).
  { rewrite !length_app. subst A T R fired. rewrite taskFindings_length.
    case_bool_decide; destruct (isRestartLoop _ _ _ _); cbn; lia. }
  assert (Hblock : ∀ f, In f (A ++ T ++ R) → Severity_of f = SeverityBlock).
  { intros f [HA|[HT|HR]%in_app_or]%in_app_or.
    - subst A. case_bool_decide; [|done]. by destruct HA as [<-|[]].
    - by apply taskFindings_block in HT.
    - subst R. destruct (isRestartLoop _ _ _ _); [|done]. by destruct HR as [<-|[]]. }
  destruct (A ++ T ++ R) as [|f fs]; cbn in Hlen.
  - split; [done|]. split; [done|]. intros Hne. by rewrite <- Hlen in Hne.
  - split; [done|]. split; [intros H0; rewrite H0 in Hlen; done|]. done.
Qed.

(** X15. The state of the connector and the state of each task are
    reported independently of one another and of the restart loop: a
    connector that is not RUNNING gives its Block, and every task that is
    not RUNNING gives a Block of its own that carries the task's id and
    its trace. *)
Theorem connector_and_task_states_reported
    (c : DebeziumHealthCheck) (input : Checks.Input) (w : W)
    (inspect : DebeziumInspector) (status : ConnectorStatus) (w' : W) :
  Inspector c = Some inspect →
  Connector c ≠ "" →
  inspect (Connector c) w = ((status, None), w') →
  let findings := fst (fst (DebeziumHealthCheck_Run time_Now c input w)) in
  (ConnectorState status ≠ "RUNNING" → In (connectorNotRunning status) findings)
  ∧ (∀ task, In task (Tasks status) → Task_State task ≠ "RUNNING" →
       In (taskNotRunning status task) findings
       ∧ Meta (taskNotRunning status task) !! "task_id" = Some (VInt (ID task))
       ∧ Meta (taskNotRunning status task) !! "trace" = Some (VString (Trace task))).
Proof.
  intros Hinsp Hconn Hread findings. subst findings.
  unfold DebeziumHealthCheck_Run. rewrite Hinsp.
  rewrite bool_decide_eq_false_2 by done.
  change (Connector (withDefaults c)) with (Connector c). rewrite Hread. cbn [fst].
  rewrite statusFindings_unfold. split.
  - intros Hstate. rewrite bool_decide_eq_true_2 by done. by left.
  - intros task Hin Hne. split; [|split; cbn; by simplify_map_eq].
    pose proof (taskFindings_in status _ _ Hin Hne) as HT.
    match goal with |- In _ (match ?A ++ ?T ++ ?R with _ => _ end) =>
      assert (Hall : In (taskNotRunning status task) (A ++ T ++ R))
        by (apply in_or_app; right; apply in_or_app; by left);
      destruct (A ++ T ++ R) end; [done|exact Hall].
Qed.

Lemma withDefaults_idem (c : DebeziumHealthCheck (W:=W)) :
  withDefaults (withDefaults c) = withDefaults c.
Proof.
  unfold withDefaults. cbn. f_equal; repeat case_bool_decide; try done.
Qed.

Lemma Run_leaves_defaults (c : DebeziumHealthCheck (W:=W)) input w :
  fst (snd (DebeziumHealthCheck_Run time_Now c input w))
  = match Inspector c with
    | None => c
    | Some _ => if bool_decide (Connector c = "") then c else withDefaults c
    end.
Proof.
  unfold DebeziumHealthCheck_Run. destruct (Inspector c) as [inspect|]; [|done].
  case_bool_decide; [done|].
  by destruct (inspect _ w) as [[status [e|]] w0].
Qed.

(** X16. The defaults [Run] stores in the check do not change what later
    runs do: the check a run leaves behind gives, on any input and in any
    world, what the original check gives. *)
Theorem debezium_check_runs_alike_after_a_run
    (c : DebeziumHealthCheck) (input input' : Checks.Input) (w w' : W) :
  DebeziumHealthCheck_Run time_Now
    (fst (snd (DebeziumHealthCheck_Run time_Now c input w))) input' w'
  = DebeziumHealthCheck_Run time_Now c input' w'.
Proof.
  rewrite Run_leaves_defaults.
  destruct (Inspector c) as [inspect|] eqn:Hi; [|done].
  case_bool_decide as Hc; [done|].
  unfold DebeziumHealthCheck_Run.
  change (Inspector (withDefaults c)) with (Inspector c).
  change (Connector (withDefaults c)) with (Connector c).
  rewrite Hi, (bool_decide_eq_false_2 _ Hc), withDefaults_idem. reflexivity.
Qed.

End DebeziumMore.

(** *** The schema history check *)

Section KafkaFacts.

Import Kafka.
Context {W : Type} `{!Go.Fmt} `{!Lower}.

Lemma uncovered_in (coveredSet : gset string) expected t :
  In t (uncovered coveredSet expected)
  ↔ In t expected ∧ key t ≠ "" ∧ key t ∉ coveredSet.
Proof.
  induction expected as [|x expected IH]; cbn; [tauto|].
  repeat case_decide; cbn; rewrite IH; split.
  - intros (? & ? & ?). auto.
  - intros ([->|?] & ? & ?); [done|auto].
  - intros (? & ? & ?). auto.
  - intros ([->|?] & ? & ?); [done|auto].
  - intros [->|(? & ? & ?)]; auto.
  - intros ([->|?] & ? & ?); auto.
Qed.

Lemma uncovered_sublist (coveredSet : gset string) expected :
  uncovered coveredSet expected `sublist_of` expected.
Proof.
  induction expected as [|x expected IH]; cbn; [constructor|].
  repeat case_decide; by constructor.
Qed.

(** X17. [missingTables] returns, in their order and in their own
    spelling, exactly the expected tables whose key (the name trimmed and
    lowered) is not empty and is the key of no covered table; so an
    expected table that is covered up to case and surrounding blanks is
    not missing, and nothing is missing when nothing is expected. *)
Theorem missingTables_are_the_uncovered_expected (expected covered : list string) :
  missingTables expected covered `sublist_of` expected
  ∧ (∀ t, In t (missingTables expected covered)
          ↔ In t expected ∧ key t ≠ "" ∧ ∀ c, In c covered → key c ≠ key t)
  ∧ missingTables [] covered = [].
Proof.
  split; [|split; [|done]].
  - destruct expected; [constructor|]. apply uncovered_sublist.
  - intros t. unfold missingTables. destruct expected as [|x expected]; [cbn; tauto|].
    rewrite uncovered_in. rewrite elem_of_list_to_set, list_elem_of_fmap.
    split.
    + intros (Hin & Hk & Hno). split; [done|]. split; [done|].
      intros c Hc Heq. apply Hno. exists c. split; [done|]. by apply list_elem_of_In.
    + intros (Hin & Hk & Hno). split; [done|]. split; [done|].
      intros (c & Heq & Hc%list_elem_of_In). by apply (Hno c).
Qed.

Local Ltac one_read_ends_it :=
  repeat split; intros; try reflexivity; try discriminate; try congruence;
  try (match goal with Hor : _ ∨ _ |- _ => destruct Hor; congruence end).

(** X18. With an inspector and a topic name that is not blank, the check
    returns no error and exactly one finding.  The finding is an Info
    exactly when the topic exists, is readable, its coverage can be read
    and no expected table is missing; it is a Block otherwise.  The three
    reads are made in this order and the first one that fails or answers
    no ends the run: the later reads are not made. *)
Theorem schema_history_one_finding (c : SchemaHistoryCheck) (input : Checks.Input) (w : W)
    (inspector : KafkaInspector)
    (there : bool) (e1 : option Go.error) (w1 : W)
    (readable : bool) (e2 : option Go.error) (w2 : W)
    (covered : list string) (e3 : option Go.error) (w3 : W) :
  Inspector c = Some inspector →
  Go.TrimSpace (Topic c) ≠ "" →
  TopicExists inspector (Topic c) w = ((there, e1), w1) →
  TopicReadable inspector (Topic c) w1 = ((readable, e2), w2) →
  SchemaHistoryTables inspector (Topic c) w2 = ((covered, e3), w3) →
  let out := SchemaHistoryCheck_Run c input w in
  ∃ f, fst out = ([f], None)
       ∧ (Severity_of f = SeverityInfo ∨ Severity_of f = SeverityBlock)
       ∧ (Severity_of f = SeverityInfo
          ↔ e1 = None ∧ there = true ∧ e2 = None ∧ readable = true ∧ e3 = None
            ∧ missingTables (ExpectedTables c) covered = [])
       ∧ (e1 ≠ None ∨ there = false → snd out = w1)
       ∧ (e1 = None → there = true → e2 ≠ None ∨ readable = false → snd out = w2)
       ∧ (e1 = None → there = true → e2 = None → readable = true → snd out = w3).
Proof.
  intros Hi Htopic H1 H2 H3 out. subst out. unfold SchemaHistoryCheck_Run.
  rewrite Hi, (bool_decide_eq_false_2 _ Htopic), H1.
  destruct e1 as [e|].
  { eexists. split; [reflexivity|]. cbn. split; [by right|].
    split; [split; [done|by intros (? & _)]|]. one_read_ends_it. }
  destruct there; cbn [negb].
  2:{ eexists. split; [reflexivity|]. cbn. split; [by right|].
      split; [split; [done|by intros (_ & ? & _)]|]. one_read_ends_it. }
  rewrite H2. destruct e2 as [e|].
  { eexists. split; [reflexivity|]. cbn. split; [by right|].
    split; [split; [done|by intros (_ & _ & ? & _)]|]. one_read_ends_it. }
  destruct readable; cbn [negb].
  2:{ eexists. split; [reflexivity|]. cbn. split; [by right|].
      split; [split; [done|by intros (_ & _ & _ & ? & _)]|]. one_read_ends_it. }
  rewrite H3. destruct e3 as [e|].
  { eexists. split; [reflexivity|]. cbn. split; [by right|].
    split; [split; [done|by intros (_ & _ & _ & _ & ? & _)]|]. one_read_ends_it. }
  cbn zeta. destruct (missingTables (ExpectedTables c) covered) as [|m ms] eqn:Hm.
  - cbn [length]. rewrite bool_decide_eq_false_2 by lia.
    eexists. split; [reflexivity|]. cbn. split; [by left|].
    split; [done|]. one_read_ends_it.
  - cbn [length]. rewrite bool_decide_eq_true_2 by lia.
    eexists. split; [reflexivity|]. cbn. split; [by right|].
    split; [split; [done|by intros (_ & _ & _ & _ & _ & ?)]|]. one_read_ends_it.
Qed.

End KafkaFacts.

(** *** The replica upgrade orchestrator: summaries, calls, resuming *)

Section OrchestratorMore.

Import Mysql.
Context {S : Type} `{!State S} {W : Type} `{!Go.Fmt}.

(** Every outcome of a phase, with what it adds. *)
Lemma phase_cases key starting call action failed done already replica
    (p : Progress (S:=S) (W:=W)) :
  (fst (getBool (p_state p) key) = true
   ∧ phase key starting call action failed done already replica p
     = inl (report p (about SeverityInfo already replica)))
  ∨ (fst (getBool (p_state p) key) = false
     ∧ fst (action (p_world p)) = None
     ∧ phase key starting call action failed done already replica p
       = inl (report
                (mkProgress (setBool (p_state p) key true) (p_log p ++ [starting +:+ replica])
                   (snd (action (p_world p))) (p_calls p ++ [call])
                   (p_summary p) (p_findings p))
                (about SeverityInfo done replica)))
  ∨ (∃ e, fst (getBool (p_state p) key) = false
          ∧ fst (action (p_world p)) = Some e
          ∧ phase key starting call action failed done already replica p
            = inr (appendBlock
                     (mkProgress (p_state p) (p_log p ++ [starting +:+ replica])
                        (snd (action (p_world p))) (p_calls p ++ [call])
                        (p_summary p) (p_findings p))
                     (failed +:+ e))).
Proof.
  unfold phase. destruct (fst (getBool (p_state p) key)); [by left|]. right.
  destruct (action (p_world p)) as [[e|] w']; [right; by exists e|by left].
Qed.

(** The summary kept in step with the findings. *)
Local Abbreviation inStep p := (p_summary p = applySummary Summary_zero (p_findings p)).

Lemma report_inStep (p : Progress (S:=S) (W:=W)) f : inStep p → inStep (report p f).
Proof. unfold report. cbn [p_summary p_findings]. intros ->. by rewrite applySummary_app. Qed.

Lemma phase_inStep key starting call action failed done already replica
    (p : Progress (S:=S) (W:=W)) :
  inStep p →
  match phase key starting call action failed done already replica p with
  | inl p' | inr p' => inStep p'
  end.
Proof.
  intros Hp.
  destruct (phase_cases key starting call action failed done already replica p)
    as [[_ ->]|[(_ & _ & ->)|(e & _ & _ & ->)]]; by apply report_inStep.
Qed.

Lemma phases_inStep acts replica (p : Progress (S:=S) (W:=W)) :
  inStep p →
  match phases acts replica p with inl p' | inr p' => inStep p' end.
Proof.
  intros Hp. unfold phases, stopPhase, upgradePhase, startPhase.
  match goal with |- context [andThen (andThen ?a _) _] =>
    pose proof (phase_inStep (stoppedKey replica) "stopping replication on "
                  (CallStopReplication replica) (StopReplication acts replica)
                  "failed to stop replication: " "replication stopped"
                  "replication already stopped" replica p Hp) as H1;
    destruct a as [p1|p1] end; cbn [andThen]; [|done].
  match goal with |- context [andThen ?a _] =>
    pose proof (phase_inStep (upgradedKey replica) "running upgrade on "
                  (CallRunUpgrade replica) (RunUpgrade acts replica)
                  "upgrade failed: " "upgrade completed"
                  "upgrade already completed" replica p1 H1) as H2;
    destruct a as [p2|p2] end; cbn [andThen]; [|done].
  apply (phase_inStep (resumedKey replica) "starting replication on "
           (CallStartReplication replica) (StartReplication acts replica)
           "failed to start replication: " "replication started"
           "replication already started" replica p2 H2).
Qed.

(** X19. Whatever [Run] returns, its summary counts exactly the findings
    it returns; with an error it returns no finding. *)
Theorem orchestrator_summary_counts_its_findings
    (o : UpgradeOrchestrator (S:=S) (W:=W)) (replica : string) (w : W) :
  summary_of (Run o replica w) = applySummary Summary_zero (findings_of (Run o replica w))
  ∧ (error_of (Run o replica w) ≠ None → findings_of (Run o replica w) = []).
Proof.
  unfold Run. cbn zeta. case_bool_decide; [done|].
  destruct (Inspector o) as [inspector|]; [|done].
  destruct (Actions o) as [acts|]; [|done].
  destruct (IsPrimary inspector (Go.TrimSpace replica) w) as [[b [e|]] w1]; [done|].
  destruct (b || _); [done|].
  destruct (ReplicationStatus_ inspector (Go.TrimSpace replica) w1) as [[status err] w2].
  rewrite statusReport_no_block.
  match goal with |- context [phases ?a ?r ?p] =>
    pose proof (phases_inStep a r p eq_refl) as Hin; destruct (phases a r p) end;
    by split.
Qed.

Lemma phase_calls key starting call action failed done already replica
    (p : Progress (S:=S) (W:=W)) :
  match phase key starting call action failed done already replica p with
  | inl p' | inr p' => p_calls p' = p_calls p ∨ p_calls p' = p_calls p ++ [call]
  end.
Proof.
  destruct (phase_cases key starting call action failed done already replica p)
    as [[_ ->]|[(_ & _ & ->)|(e & _ & _ & ->)]]; cbn; auto.
Qed.

(** X20. Every run calls the collaborators only for the trimmed replica
    name, each method at most once, and in the order primary check,
    replication status, stop, upgrade, start. *)
Theorem orchestrator_calls_in_order
    (o : UpgradeOrchestrator (S:=S) (W:=W)) (replica : string) (w : W) :
  calls_of (Run o replica w)
  `sublist_of` [CallIsPrimary (Go.TrimSpace replica);
                CallReplicationStatus (Go.TrimSpace replica);
                CallStopReplication (Go.TrimSpace replica);
                CallRunUpgrade (Go.TrimSpace replica);
                CallStartReplication (Go.TrimSpace replica)].
Proof.
  unfold Run. cbn zeta. set (r := Go.TrimSpace replica).
  case_bool_decide; [apply sublist_nil_l|].
  destruct (Inspector o) as [inspector|]; [|apply sublist_nil_l].
  destruct (Actions o) as [acts|]; [|apply sublist_nil_l].
  destruct (IsPrimary inspector r w) as [[b [e|]] w1];
    [cbn; apply sublist_skip, sublist_nil_l|].
  destruct (b || _); [cbn; apply sublist_skip, sublist_nil_l|].
  destruct (ReplicationStatus_ inspector r w1) as [[status err] w2].
  rewrite statusReport_no_block. unfold phases, stopPhase, upgradePhase, startPhase.
  match goal with |- context [andThen (andThen (phase ?k ?s ?c ?a ?f ?d ?al ?rp ?p) _) _] =>
    pose proof (phase_calls k s c a f d al rp p) as H1;
    destruct (phase k s c a f d al rp p) as [p1|p1] end; cbn [andThen].
  2:{ unfold returning, calls_of. cbn [snd].
      destruct H1 as [-> | ->]; cbn; repeat first [apply sublist_skip | apply sublist_cons];
        apply sublist_nil_l. }
  match goal with |- context [andThen (phase ?k ?s ?c ?a ?f ?d ?al ?rp ?p) _] =>
    pose proof (phase_calls k s c a f d al rp p) as H2;
    destruct (phase k s c a f d al rp p) as [p2|p2] end; cbn [andThen].
  2:{ unfold returning, calls_of. cbn [snd].
      destruct H2 as [-> | ->]; destruct H1 as [-> | ->]; cbn;
        repeat first [apply sublist_nil_l | apply sublist_skip | apply sublist_cons]. }
  match goal with |- context [phase ?k ?s ?c ?a ?f ?d ?al ?rp ?p] =>
    pose proof (phase_calls k s c a f d al rp p) as H3;
    destruct (phase k s c a f d al rp p) as [p3|p3] end;
    unfold returning, calls_of; cbn [snd];
    destruct H3 as [-> | ->]; destruct H2 as [-> | ->]; destruct H1 as [-> | ->]; cbn;
    repeat first [apply sublist_nil_l | apply sublist_skip | apply sublist_cons].
Qed.

Local Ltac keys :=
  first [ apply stoppedKey_upgradedKey | apply stoppedKey_resumedKey
        | apply upgradedKey_resumedKey
        | apply not_eq_sym, stoppedKey_upgradedKey
        | apply not_eq_sym, stoppedKey_resumedKey
        | apply not_eq_sym, upgradedKey_resumedKey ].

Local Ltac checkpoints :=
  repeat first [ rewrite getBool_Set_eq | rewrite getBool_Set_ne by keys ].

Lemma statusReport_warn replica status err (state : option S) f :
  In f (statusReport replica status err state) → Severity_of f = SeverityWarn.
Proof.
  unfold statusReport, detectPartialProgress. destruct err as [e|]; cbn zeta.
  { intros [<-|[]]. reflexivity. }
  repeat match goal with |- context [if ?b then _ else _] => destruct b end;
    cbn; intros Hin; repeat destruct Hin as [<-|Hin]; done.
Qed.

(** With actions that succeed, the phases call exactly the actions
    whose checkpoints are not set, and set the three checkpoints. *)
Lemma phases_resume `{!LawfulState S} acts r (p : Progress (S:=S) (W:=W)) (st : S) :
  p_state p = Some st →
  (∀ w, fst (StopReplication acts r w) = None) →
  (∀ w, fst (RunUpgrade acts r w) = None) →
  (∀ w, fst (StartReplication acts r w) = None) →
  ∃ p' st',
    phases acts r p = inl p'
    ∧ p_calls p'
      = p_calls p
        ++ (if fst (getBool (Some st) (stoppedKey r)) then [] else [CallStopReplication r])
        ++ (if fst (getBool (Some st) (upgradedKey r)) then [] else [CallRunUpgrade r])
        ++ (if fst (getBool (Some st) (resumedKey r)) then [] else [CallStartReplication r])
    ∧ p_state p' = Some st'
    ∧ fst (getBool (Some st') (stoppedKey r)) = true
    ∧ fst (getBool (Some st') (upgradedKey r)) = true
    ∧ fst (getBool (Some st') (resumedKey r)) = true
    ∧ ∃ f1 f2 f3,
        p_findings p' = p_findings p ++ [f1; f2; f3]
        ∧ p_summary p' = applySummary (p_summary p) [f1; f2; f3]
        ∧ Severity_of f1 = SeverityInfo ∧ Severity_of f2 = SeverityInfo
        ∧ Severity_of f3 = SeverityInfo.
Proof.
  intros Hst Hstop Hup Hstart.
  destruct (fst (getBool (Some st) (stoppedKey r))) eqn:Hs;
    destruct (fst (getBool (Some st) (upgradedKey r))) eqn:Hu;
    destruct (fst (getBool (Some st) (resumedKey r))) eqn:Hr;
    unfold phases, stopPhase, upgradePhase, startPhase;
    repeat (first
      [ rewrite phase_skipped
          by (cbn [report p_state setBool]; rewrite ?Hst; cbn [setBool]; checkpoints; done)
      | rewrite phase_performed
          by first [ apply Hstop | apply Hup | apply Hstart
                   | cbn [report p_state setBool]; rewrite ?Hst; cbn [setBool];
                     checkpoints; done ] ];
      cbn [andThen]);
    (eexists _, _; split; [reflexivity|];
     cbn [report p_calls p_state p_findings p_summary]; rewrite ?Hst; cbn [setBool];
     split; [rewrite <- ?app_assoc; cbn [app]; by rewrite ?app_nil_r|];
     split; [reflexivity|];
     split; [by checkpoints|]; split; [by checkpoints|]; split; [by checkpoints|];
     eexists _, _, _; split; [by rewrite <- ?app_assoc|];
     split; [by rewrite <- ?applySummary_app|]; done).
Qed.

(** X21. Resuming. For a replica that is neither blank nor the primary,
    with a checkpoint store and with every call succeeding, one run
    calls, after the two inspections, exactly the actions whose
    checkpoints are not yet set, in the order stop, upgrade, start; it
    leaves the three checkpoints set and returns three Info findings
    and no Block. *)
Theorem run_resumes_from_checkpoints `{!LawfulState S}
    (o : UpgradeOrchestrator (S:=S) (W:=W)) (replica : string) (w : W)
    (inspector : ReplicaInspector) (acts : ReplicaActions) (st : S) :
  Inspector o = Some inspector →
  Actions o = Some acts →
  State_ o = Some st →
  let r := Go.TrimSpace replica in
  r ≠ "" →
  r ≠ Primary o →
  fst (IsPrimary inspector r w) = (false, None) →
  (∀ w, fst (StopReplication acts r w) = None) →
  (∀ w, fst (RunUpgrade acts r w) = None) →
  (∀ w, fst (StartReplication acts r w) = None) →
  let out := Run o replica w in
  calls_of out
  = [CallIsPrimary r; CallReplicationStatus r]
    ++ (if fst (getBool (Some st) (stoppedKey r)) then [] else [CallStopReplication r])
    ++ (if fst (getBool (Some st) (upgradedKey r)) then [] else [CallRunUpgrade r])
    ++ (if fst (getBool (Some st) (resumedKey r)) then [] else [CallStartReplication r])
  ∧ (∃ st', State_ (orchestrator_after out) = Some st'
            ∧ fst (getBool (Some st') (stoppedKey r)) = true
            ∧ fst (getBool (Some st') (upgradedKey r)) = true
            ∧ fst (getBool (Some st') (resumedKey r)) = true)
  ∧ error_of out = None
  ∧ Info (summary_of out) = 3
  ∧ Block (summary_of out) = 0.
Proof.
  intros Hi Ha Hst r Hr Hnot Hprim Hstop Hup Hstart out. subst out.
  destruct (IsPrimary inspector r w) as [ip w1] eqn:Hcall. cbn in Hprim. subst ip.
  destruct (ReplicationStatus_ inspector r w1) as [[status err] w2] eqn:Hstatus.
  rewrite (Run_proceeds _ _ _ _ _ _ _ _ _ Hr Hi Ha Hcall Hnot Hstatus). cbn zeta. fold r.
  edestruct (phases_resume acts r
               (mkProgress (State_ o) (Logger o) w2
                  [CallIsPrimary r; CallReplicationStatus r]
                  (applySummary Summary_zero (statusReport r status err (State_ o)))
                  (statusReport r status err (State_ o))) st)
    as (p' & st' & Hph & Hcalls & Hst' & Hs' & Hu' & Hr' & f1 & f2 & f3
        & Hfs & Hsum & H1 & H2 & H3); try done.
  rewrite Hph. unfold returning, calls_of, orchestrator_after, error_of, summary_of.
  cbn [fst snd State_]. cbn [p_calls] in Hcalls. cbn [p_summary] in Hsum.
  split; [done|]. split; [by exists st'|]. split; [done|].
  rewrite Hsum, !applySummary_counts, !countSeverity_cons, H1, H2, H3.
  rewrite (countSeverity_none (statusReport r status err (State_ o)) SeverityInfo),
    (countSeverity_none (statusReport r status err (State_ o)) SeverityBlock).
  - unfold countSeverity. cbn. done.
  - intros f Hin. by rewrite (statusReport_warn _ _ _ _ _ Hin).
  - intros f Hin. by rewrite (statusReport_warn _ _ _ _ _ Hin).
Qed.

Lemma getBool_setBool_mono `{!LawfulState S} (state : option S) key key' :
  fst (getBool state key') = true →
  fst (getBool (setBool state key true) key') = true.
Proof.
  destruct state as [st|]; [|done]. cbn [setBool]. intros Hset.
  destruct (decide (key = key')) as [->|Hne].
  - by rewrite getBool_Set_eq.
  - by rewrite getBool_Set_ne.
Qed.

(** What one phase does to the findings, the calls and the store. *)
Lemma phase_shape `{!LawfulState S} key starting call action failed done already replica
    (p : Progress (S:=S) (W:=W)) :
  ∃ p' (a : bool),
    (phase key starting call action failed done already replica p = inl p'
     ∨ phase key starting call action failed done already replica p = inr p')
    ∧ p_calls p' = p_calls p ++ (if a then [call] else [])
    ∧ (fst (getBool (p_state p) key) = true → a = false)
    ∧ (∀ key', fst (getBool (p_state p) key') = true →
               fst (getBool (p_state p') key') = true)
    ∧ (phase key starting call action failed done already replica p = inl p' →
       (∃ f, Severity_of f = SeverityInfo ∧ p_findings p' = p_findings p ++ [f])
       ∧ ∀ st, p_state p = Some st →
               ∃ st', p_state p' = Some st' ∧ fst (getBool (Some st') key) = true)
    ∧ (phase key starting call action failed done already replica p = inr p' →
       ∃ f, Severity_of f = SeverityBlock ∧ p_findings p' = p_findings p ++ [f]).
Proof.
  destruct (phase_cases key starting call action failed done already replica p)
    as [[Hk ->]|[(Hk & _ & ->)|(e & Hk & _ & ->)]].
  - eexists _, false. split; [by left|].
    cbn [report appendBlock p_findings p_calls p_state].
    split; [by rewrite app_nil_r|]. split; [done|]. split; [done|].
    split; [|done]. intros _. split; [eexists; split; [|reflexivity]; reflexivity|].
    intros st Hst. exists st. by rewrite <- Hst.
  - eexists _, true. split; [by left|].
    cbn [report appendBlock p_findings p_calls p_state].
    split; [done|]. split; [congruence|].
    split; [intros key'; apply getBool_setBool_mono|].
    split; [|done]. intros _. split; [eexists; split; [|reflexivity]; reflexivity|].
    intros st ->. eexists. split; [reflexivity|]. by rewrite getBool_Set_eq.
  - eexists _, true. split; [by right|].
    cbn [report appendBlock p_findings p_calls p_state].
    split; [done|]. split; [congruence|]. split; [done|].
    split; [done|]. intros _. eexists; split; [|reflexivity]; reflexivity.
Qed.

(** What the three phases do together. *)
Lemma phases_shape `{!LawfulState S} acts r (p : Progress (S:=S) (W:=W)) :
  ∃ p' (a b c : bool) infos,
    (phases acts r p = inl p' ∨ phases acts r p = inr p')
    ∧ p_calls p'
      = p_calls p ++ (if a then [CallStopReplication r] else [])
          ++ (if b then [CallRunUpgrade r] else [])
          ++ (if c then [CallStartReplication r] else [])
    ∧ (fst (getBool (p_state p) (stoppedKey r)) = true → a = false)
    ∧ (fst (getBool (p_state p) (upgradedKey r)) = true → b = false)
    ∧ (fst (getBool (p_state p) (resumedKey r)) = true → c = false)
    ∧ (∀ key, fst (getBool (p_state p) key) = true → fst (getBool (p_state p') key) = true)
    ∧ Forall (λ f, Severity_of f = SeverityInfo) infos
    ∧ (phases acts r p = inl p' →
       p_findings p' = p_findings p ++ infos
       ∧ ∀ st, p_state p = Some st →
               ∃ st', p_state p' = Some st'
                      ∧ fst (getBool (Some st') (stoppedKey r)) = true
                      ∧ fst (getBool (Some st') (upgradedKey r)) = true
                      ∧ fst (getBool (Some st') (resumedKey r)) = true)
    ∧ (phases acts r p = inr p' →
       ∃ f, Severity_of f = SeverityBlock ∧ p_findings p' = p_findings p ++ infos ++ [f]).
Proof.
  unfold phases, stopPhase, upgradePhase, startPhase.
  destruct (phase_shape (stoppedKey r) "stopping replication on "
              (CallStopReplication r) (StopReplication acts r)
              "failed to stop replication: " "replication stopped"
              "replication already stopped" r p)
    as (p1 & a & [E1|E1] & Hc1 & Hg1 & Hm1 & Hl1 & Hr1); rewrite E1; cbn [andThen].
  2:{ destruct (Hr1 E1) as (f & Hf & Hfs).
      exists p1, a, false, false, []. split; [by right|].
      split; [rewrite Hc1; cbn [app]; by rewrite ?app_nil_r|].
      do 4 (split; [done|]). split; [done|].
      split; [done|]. intros _. by exists f. }
  destruct (Hl1 E1) as ((f1 & Hf1 & Hfs1) & Hs1).
  destruct (phase_shape (upgradedKey r) "running upgrade on "
              (CallRunUpgrade r) (RunUpgrade acts r)
              "upgrade failed: " "upgrade completed"
              "upgrade already completed" r p1)
    as (p2 & b & [E2|E2] & Hc2 & Hg2 & Hm2 & Hl2 & Hr2); rewrite E2; cbn [andThen].
  2:{ destruct (Hr2 E2) as (f & Hf & Hfs).
      exists p2, a, b, false, [f1]. split; [by right|].
      split; [rewrite Hc2, Hc1, <- !app_assoc; cbn [app]; by rewrite ?app_nil_r|].
      split; [done|].
      split; [intros Hset; by apply Hg2, Hm1|]. split; [done|].
      split; [intros key Hset; by apply Hm2, Hm1|].
      split; [by repeat constructor|]. split; [done|]. intros _. exists f.
      split; [done|]. by rewrite Hfs, Hfs1, <- app_assoc. }
  destruct (Hl2 E2) as ((f2 & Hf2 & Hfs2) & Hs2).
  destruct (phase_shape (resumedKey r) "starting replication on "
              (CallStartReplication r) (StartReplication acts r)
              "failed to start replication: " "replication started"
              "replication already started" r p2)
    as (p3 & c & [E3|E3] & Hc3 & Hg3 & Hm3 & Hl3 & Hr3); rewrite E3.
  2:{ destruct (Hr3 E3) as (f & Hf & Hfs).
      exists p3, a, b, c, [f1; f2]. split; [by right|].
      split; [by rewrite Hc3, Hc2, Hc1, <- !app_assoc|]. split; [done|].
      split; [intros Hset; by apply Hg2, Hm1|].
      split; [intros Hset; by apply Hg3, Hm2, Hm1|].
      split; [intros key Hset; by apply Hm3, Hm2, Hm1|].
      split; [by repeat constructor|]. split; [done|]. intros _. exists f.
      split; [done|]. by rewrite Hfs, Hfs2, Hfs1, <- !app_assoc. }
  destruct (Hl3 E3) as ((f3 & Hf3 & Hfs3) & Hs3).
  exists p3, a, b, c, [f1; f2; f3]. split; [by left|].
  split; [by rewrite Hc3, Hc2, Hc1, <- !app_assoc|]. split; [done|].
  split; [intros Hset; by apply Hg2, Hm1|].
  split; [intros Hset; by apply Hg3, Hm2, Hm1|].
  split; [intros key Hset; by apply Hm3, Hm2, Hm1|].
  split; [by repeat constructor|]. split; [|done]. intros _.
  split; [by rewrite Hfs3, Hfs2, Hfs1, <- !app_assoc|].
  intros st Hst. destruct (Hs1 st Hst) as (st1 & Hst1 & Hk1).
  destruct (Hs2 st1 Hst1) as (st2 & Hst2 & Hk2).
  destruct (Hs3 st2 Hst2) as (st3 & Hst3 & Hk3).
  exists st3. split; [done|]. rewrite <- Hst3. rewrite <- Hst3 in Hk3.
  rewrite <- Hst2 in Hk2. rewrite <- Hst1 in Hk1.
  split; [by apply Hm3, Hm2|]. split; [by apply Hm3|done].
Qed.

(** The findings of the three phases: Info findings, then at most a
    closing Block. *)
Lemma phases_findings acts r (p : Progress (S:=S) (W:=W)) :
  ∃ p' infos,
    Forall (λ f, Severity_of f = SeverityInfo) infos
    ∧ (phases acts r p = inl p' ∧ p_findings p' = p_findings p ++ infos
       ∨ phases acts r p = inr p'
         ∧ ∃ f, Severity_of f = SeverityBlock ∧ p_findings p' = p_findings p ++ infos ++ [f]).
Proof.
  unfold phases, stopPhase, upgradePhase, startPhase.
  destruct (phase_cases (stoppedKey r) "stopping replication on "
              (CallStopReplication r) (StopReplication acts r)
              "failed to stop replication: " "replication stopped"
              "replication already stopped" r p)
    as [[_ ->]|[(_ & _ & ->)|(e & _ & _ & ->)]]; cbn [andThen];
    try (eexists _, []; split; [constructor|]; right; split; [reflexivity|];
         eexists; split; [|reflexivity]; reflexivity);
    (match goal with |- context [phase (upgradedKey r) ?s ?c ?a ?f ?d ?al r ?q] =>
       destruct (phase_cases (upgradedKey r) s c a f d al r q)
         as [[_ ->]|[(_ & _ & ->)|(e & _ & _ & ->)]] end; cbn [andThen];
     try (eexists _, [_]; split;
            [|right; split; [reflexivity|];
              eexists; split; [|cbn [report appendBlock p_findings];
                                rewrite <- !app_assoc; reflexivity]; reflexivity];
          by repeat constructor));
    (match goal with |- context [phase (resumedKey r) ?s ?c ?a ?f ?d ?al r ?q] =>
       destruct (phase_cases (resumedKey r) s c a f d al r q)
         as [[_ ->]|[(_ & _ & ->)|(e & _ & _ & ->)]] end;
     try (eexists _, [_; _]; split;
            [|right; split; [reflexivity|];
              eexists; split; [|cbn [report appendBlock p_findings];
                                rewrite <- !app_assoc; reflexivity]; reflexivity];
          by repeat constructor));
    (eexists _, [_; _; _]; split;
       [|left; split; [reflexivity|]; cbn [report p_findings];
         rewrite <- !app_assoc; reflexivity];
     by repeat constructor).
Qed.

(** The three ways [Run] goes. *)
Lemma Run_cases (o : UpgradeOrchestrator (S:=S) (W:=W)) replica w :
  (∃ message meta w' calls,
      Run o replica w = (refused message meta, (o, w', calls))
      ∧ (calls = [] ∨ calls = [CallIsPrimary (Go.TrimSpace replica)]))
  ∨ Run o replica w
    = ((Summary_zero, [], Some "inspector and actions are required"), (o, w, []))
  ∨ (∃ acts status err w',
        Run o replica w
        = returning o
            (phases acts (Go.TrimSpace replica)
               (mkProgress (State_ o) (Logger o) w'
                  [CallIsPrimary (Go.TrimSpace replica);
                   CallReplicationStatus (Go.TrimSpace replica)]
                  (applySummary Summary_zero
                     (statusReport (Go.TrimSpace replica) status err (State_ o)))
                  (statusReport (Go.TrimSpace replica) status err (State_ o))))).
Proof.
  unfold Run. cbn zeta. case_bool_decide.
  { left. eexists _, _, _, _. split; [reflexivity|by left]. }
  destruct (Inspector o) as [inspector|]; [|by right; left].
  destruct (Actions o) as [acts|]; [|by right; left].
  destruct (IsPrimary inspector (Go.TrimSpace replica) w) as [[b [e|]] w1].
  { left. eexists _, _, _, _. split; [reflexivity|by right]. }
  destruct (b || _).
  { left. eexists _, _, _, _. split; [reflexivity|by right]. }
  destruct (ReplicationStatus_ inspector (Go.TrimSpace replica) w1) as [[status err] w2].
  rewrite statusReport_no_block. right; right. by eexists _, _, _, _.
Qed.

Lemma infos_no_block infos :
  Forall (λ f, Severity_of f = SeverityInfo) infos → hasBlock infos = false.
Proof.
  induction 1 as [|f fs Hf _ IH]; [done|]. unfold hasBlock in *. cbn.
  rewrite IH. unfold is_block. rewrite Hf. done.
Qed.

(** X22. A run stops at its first Block: either it returns no Block at
    all, or exactly one, which is the last finding it returns. *)
Theorem orchestrator_stops_at_first_block
    (o : UpgradeOrchestrator (S:=S) (W:=W)) (replica : string) (w : W) :
  let out := Run o replica w in
  (hasBlock (findings_of out) = false ∧ Block (summary_of out) = 0)
  ∨ (∃ fs f, findings_of out = fs ++ [f]
             ∧ Severity_of f = SeverityBlock
             ∧ hasBlock fs = false
             ∧ Block (summary_of out) = 1).
Proof.
  cbn zeta.
  destruct (Run_cases o replica w)
    as [(message & meta & w' & calls & -> & _)|[->|(acts & status & err & w' & ->)]].
  - right. by exists [], (mkFinding SeverityBlock message meta).
  - by left.
  - match goal with |- context [phases ?a ?r ?p] =>
      pose proof (phases_inStep a r p eq_refl) as Hin;
      destruct (phases_findings a r p)
        as (p' & infos & Hinfos & [[E Hfs]|[E (f & Hf & Hfs)]])
    end; rewrite E in Hin |- *; unfold returning, findings_of, summary_of; cbn [fst snd];
      cbn [p_findings] in Hfs; rewrite Hin, Hfs.
    + left. rewrite applySummary_counts. cbn [Block Summary_zero].
      assert (Hno : hasBlock (statusReport (Go.TrimSpace replica) status err (State_ o)
                              ++ infos) = false).
      { by rewrite hasBlock_app, statusReport_no_block, infos_no_block. }
      split; [done|]. by rewrite hasBlock_false_count.
    + right. eexists _, f. split; [by rewrite app_assoc|]. split; [done|].
      assert (Hno : hasBlock (statusReport (Go.TrimSpace replica) status err (State_ o)
                              ++ infos) = false).
      { by rewrite hasBlock_app, statusReport_no_block, infos_no_block. }
      split; [done|]. rewrite app_assoc, applySummary_app, !applySummary_counts.
      cbn [Block Summary_zero]. rewrite hasBlock_false_count by done.
      rewrite countSeverity_cons, decide_True by done. unfold countSeverity. cbn. done.
Qed.

Local Ltac not_called :=
  let Hin := fresh in
  intros Hin;
  repeat (apply elem_of_cons in Hin as [Hin|Hin]; [discriminate|]);
  by apply elem_of_nil in Hin.

(** X23. Checkpoints guard the actions and are never withdrawn. In
    every run, an action whose checkpoint is set in the store when the
    run starts is not called, and every checkpoint that is set when the
    run starts is still set when it ends. *)
Theorem checkpointed_action_is_not_called `{!LawfulState S}
    (o : UpgradeOrchestrator (S:=S) (W:=W)) (replica : string) (w : W) :
  let r := Go.TrimSpace replica in
  let out := Run o replica w in
  (fst (getBool (State_ o) (stoppedKey r)) = true → CallStopReplication r ∉ calls_of out)
  ∧ (fst (getBool (State_ o) (upgradedKey r)) = true → CallRunUpgrade r ∉ calls_of out)
  ∧ (fst (getBool (State_ o) (resumedKey r)) = true → CallStartReplication r ∉ calls_of out)
  ∧ ∀ key, fst (getBool (State_ o) key) = true →
           fst (getBool (State_ (orchestrator_after out)) key) = true.
Proof.
  cbn zeta.
  destruct (Run_cases o replica w)
    as [(message & meta & w' & calls & -> & Hcalls)|[->|(acts & status & err & w' & ->)]].
  - unfold calls_of, orchestrator_after. cbn [fst snd].
    destruct Hcalls as [-> | ->]; repeat split; try done; intros _; not_called.
  - unfold calls_of, orchestrator_after. cbn [fst snd].
    repeat split; try done; intros _; not_called.
  - match goal with |- context [phases ?a ?r ?p] =>
      destruct (phases_shape a r p)
        as (p' & a' & b' & c' & infos & Hres & Hcalls & Ha & Hb & Hc & Hmono & _)
    end.
    cbn [p_state p_calls] in *.
    assert (Hout : ∀ res, res = inl p' ∨ res = inr p' →
              calls_of (returning o res) = p_calls p'
              ∧ State_ (orchestrator_after (returning o res)) = p_state p').
    { by intros res [-> | ->]. }
    destruct (Hout _ Hres) as [-> ->]. rewrite Hcalls.
    split; [intros Hset; rewrite (Ha Hset); destruct b', c'; cbn; not_called|].
    split; [intros Hset; rewrite (Hb Hset); destruct a', c'; cbn; not_called|].
    split; [intros Hset; rewrite (Hc Hset); destruct a', b'; cbn; not_called|].
    done.
Qed.

(** X24. A run that returns no error and counts no Block has done the
    whole upgrade: with a checkpoint store, the three checkpoints of the
    replica are set when it ends. *)
Theorem run_without_block_sets_the_three_checkpoints `{!LawfulState S}
    (o : UpgradeOrchestrator (S:=S) (W:=W)) (replica : string) (w : W) (st : S) :
  State_ o = Some st →
  let r := Go.TrimSpace replica in
  let out := Run o replica w in
  error_of out = None →
  Block (summary_of out) = 0 →
  ∃ st', State_ (orchestrator_after out) = Some st'
         ∧ fst (getBool (Some st') (stoppedKey r)) = true
         ∧ fst (getBool (Some st') (upgradedKey r)) = true
         ∧ fst (getBool (Some st') (resumedKey r)) = true.
Proof.
  intros Hst r out. subst out r.
  destruct (Run_cases o replica w)
    as [(message & meta & w' & calls & -> & Hcalls)|[->|(acts & status & err & w' & ->)]];
    [done|done|].
  match goal with |- context [phases ?a ?r ?p] =>
    pose proof (phases_inStep a r p eq_refl) as Hin;
    destruct (phases_shape a r p)
      as (p' & a' & b' & c' & infos & [E|E] & _ & _ & _ & _ & _ & _ & Hl & Hr)
  end; rewrite E in *; unfold returning, error_of, summary_of, orchestrator_after;
    cbn [fst snd State_]; intros _ Hblock.
  - destruct (Hl eq_refl) as [_ Hset]. by apply (Hset st).
  - exfalso. destruct (Hr eq_refl) as (f & Hf & Hfs).
    rewrite Hin, Hfs, applySummary_counts in Hblock. cbn [Block Summary_zero] in Hblock.
    assert (1 ≤ countSeverity (p_findings
              (mkProgress (State_ o) (Logger o) w'
                 [CallIsPrimary (Go.TrimSpace replica);
                  CallReplicationStatus (Go.TrimSpace replica)]
                 (applySummary Summary_zero
                    (statusReport (Go.TrimSpace replica) status err (State_ o)))
                 (statusReport (Go.TrimSpace replica) status err (State_ o)))
              ++ infos ++ [f]) SeverityBlock); [|lia].
    rewrite <- Hf. apply countSeverity_in. rewrite !in_app_iff. right; right. by left.
Qed.

(** X25. Without a checkpoint store nothing is remembered: for a
    replica that is neither blank nor the primary, with every call
    succeeding, a run calls the three actions and leaves the
    orchestrator without a store, so that the next run does the same. *)
Theorem without_store_every_run_calls_the_three_actions
    (o : UpgradeOrchestrator (S:=S) (W:=W)) (replica : string) (w : W)
    (inspector : ReplicaInspector) (acts : ReplicaActions) :
  Inspector o = Some inspector →
  Actions o = Some acts →
  State_ o = None →
  let r := Go.TrimSpace replica in
  r ≠ "" →
  r ≠ Primary o →
  (∀ w, fst (IsPrimary inspector r w) = (false, None)) →
  (∀ w, fst (StopReplication acts r w) = None) →
  (∀ w, fst (RunUpgrade acts r w) = None) →
  (∀ w, fst (StartReplication acts r w) = None) →
  let first := Run o replica w in
  let second := rerun first replica in
  calls_of first = [CallIsPrimary r; CallReplicationStatus r; CallStopReplication r;
                    CallRunUpgrade r; CallStartReplication r]
  ∧ calls_of second = calls_of first
  ∧ State_ (orchestrator_after second) = None.
Proof.
  intros Hi Ha Hst r Hr Hnot Hprim Hstop Hup Hstart.
  assert (Hrun : ∀ o' w', Inspector o' = Some inspector → Actions o' = Some acts →
            State_ o' = None → Primary o' = Primary o →
            ∃ res o'' w'',
              Run o' replica w'
              = (res, (o'', w'', [CallIsPrimary r; CallReplicationStatus r;
                                  CallStopReplication r; CallRunUpgrade r;
                                  CallStartReplication r]))
              ∧ Inspector o'' = Some inspector ∧ Actions o'' = Some acts
              ∧ State_ o'' = None ∧ Primary o'' = Primary o).
  { intros o' w' Hi' Ha' Hst' Hp'.
    destruct (IsPrimary inspector r w') as [ip w1] eqn:Hcall.
    pose proof (Hprim w') as Hip. rewrite Hcall in Hip. cbn in Hip. subst ip.
    destruct (ReplicationStatus_ inspector r w1) as [[status err] w2] eqn:Hstatus.
    rewrite (Run_proceeds _ _ _ _ _ _ _ _ _ Hr Hi' Ha' Hcall
               ltac:(by rewrite Hp') Hstatus). cbn zeta. fold r.
    unfold phases, stopPhase, upgradePhase, startPhase. rewrite Hst'.
    rewrite phase_performed by done. cbn [andThen].
    rewrite phase_performed by done. cbn [andThen].
    rewrite phase_performed by done.
    unfold returning. cbn [report p_calls p_state p_log p_world p_summary p_findings
                           setBool app].
    eexists _, _, _. split; [reflexivity|]. done. }
  cbn zeta.
  destruct (Hrun o w Hi Ha Hst eq_refl) as (res & o1 & w1 & E1 & Hi1 & Ha1 & Hst1 & Hp1).
  rewrite E1. unfold rerun, orchestrator_after, world_after, calls_of. cbn [fst snd].
  destruct (Hrun o1 w1 Hi1 Ha1 Hst1 Hp1) as (res2 & o2 & w2 & E2 & _ & _ & Hst2 & _).
  rewrite E2. cbn [fst snd]. done.
Qed.

(** X26. [detectPartialProgress] only warns: each of its findings is a
    Warn carrying the replica name, there are at most two of them, and
    when exactly one of the two replication threads runs there is none,
    whatever the checkpoints say. *)
Theorem partial_progress_only_warns (replica : string) (status : ReplicationStatus)
    (state : option S) :
  (∀ f, f ∈ detectPartialProgress replica status state →
        Severity_of f = SeverityWarn ∧ Meta f = {[ "replica" := VString replica ]})
  ∧ (length (detectPartialProgress replica status state) ≤ 2)%nat
  ∧ (IOThreadRunning status ≠ SQLThreadRunning status →
     detectPartialProgress replica status state = []).
Proof.
  unfold detectPartialProgress. cbn zeta.
  destruct (IOThreadRunning status), (SQLThreadRunning status);
    destruct (fst (getBool state (stoppedKey replica))),
      (fst (getBool state (resumedKey replica)));
    cbn; (split; [|split; [lia|done]]); intros f Hin;
    repeat (apply elem_of_cons in Hin as [->|Hin]; [done|]);
    by apply elem_of_nil in Hin.
Qed.

End OrchestratorMore.

(** *** The promotion gate: when it lets a promotion through *)

Section GateMore.

Import Checks.
Context {W : Type} `{!Go.Fmt}.

Lemma applySummary_severities fs : ∀ gs s,
  map Severity_of fs = map Severity_of gs → applySummary s fs = applySummary s gs.
Proof.
  induction fs as [|f fs IH]; intros [|g gs] s Heq; try done.
  injection Heq as Hf Hrest. rewrite !applySummary_cons.
  replace (count_one s g) with (count_one s f) by (unfold count_one; by rewrite Hf).
  by apply IH.
Qed.

Lemma flattenResults_severities results :
  map Severity_of (Promotion.flattenResults results)
  = map Severity_of (allFindings results).
Proof.
  unfold Promotion.flattenResults, allFindings.
  induction results as [|r rs IH]; cbn [flat_map]; [done|].
  rewrite !map_app, IH, map_map. f_equal. apply map_ext. intros f.
  apply tagged_severity.
Qed.

Lemma flattenResults_tagged results f :
  In f (Promotion.flattenResults results) → is_Some (Meta f !! "check").
Proof.
  unfold Promotion.flattenResults. rewrite in_flat_map.
  intros (r & _ & (g & <- & _)%in_map_iff). unfold Promotion.tagged.
  destruct (Meta g !! "check") eqn:E; [by rewrite E|].
  cbn. by rewrite lookup_insert_eq.
Qed.

Lemma counts_zero_all_info fs :
  countSeverity fs SeverityWarn = 0 → countSeverity fs SeverityBlock = 0 →
  ∀ f, In f fs → Severity_of f = SeverityInfo.
Proof.
  intros Hw Hb f Hin. pose proof (countSeverity_in f fs Hin) as Hc.
  destruct (Severity_of f); [done|lia|lia].
Qed.

(** The ways the gate goes. *)
Lemma PromotionGate_Run_cases (g : Promotion.PromotionGate (W:=W)) input confirmation w :
  (Go.TrimSpace (Promotion.ConfirmationPhrase g) = ""
   ∧ Promotion.PromotionGate_Run g input confirmation w
     = ((Summary_zero, [], Some "confirmation phrase is required"),
        (Promotion.Logger g, w)))
  ∨ (Go.TrimSpace (Promotion.ConfirmationPhrase g) ≠ ""
     ∧ confirmation ≠ Promotion.ConfirmationPhrase g
     ∧ Promotion.PromotionGate_Run g input confirmation w
       = ((mkSummary 0 0 1, [Promotion.confirmationRequired g], None),
          (Promotion.Logger g, w)))
  ∨ (Go.TrimSpace (Promotion.ConfirmationPhrase g) ≠ ""
     ∧ confirmation = Promotion.ConfirmationPhrase g
     ∧ Promotion.missingChecks (Promotion.requiredNames g) (Promotion.Checks g) ≠ []
     ∧ Promotion.PromotionGate_Run g input confirmation w
       = ((mkSummary 0 0 1,
           [Promotion.checksRequired
              (Promotion.missingChecks (Promotion.requiredNames g) (Promotion.Checks g))],
           None),
          (Promotion.Logger g, w)))
  ∨ (Go.TrimSpace (Promotion.ConfirmationPhrase g) ≠ ""
     ∧ confirmation = Promotion.ConfirmationPhrase g
     ∧ Promotion.missingChecks (Promotion.requiredNames g) (Promotion.Checks g) = []
     ∧ ∃ summary results err eff,
         Runner_Run (NewRunner (Promotion.Checks g) (Promotion.Logger g)) input w
         = ((summary, results, err), eff)
         ∧ Promotion.PromotionGate_Run g input confirmation w
           = match err with
             | Some e => ((Summary_zero, [], Some e), eff)
             | None =>
                 if bool_decide (0 < Warn summary) || bool_decide (0 < Block summary)
                 then ((mkSummary (Info summary) (Warn summary) (Block summary + 1),
                        Promotion.flattenResults results
                        ++ [Promotion.promotionBlocked summary], None), eff)
                 else ((summary, Promotion.flattenResults results, None), eff)
             end).
Proof.
  unfold Promotion.PromotionGate_Run.
  case_bool_decide as Hphrase; [by left|]. right.
  case_bool_decide as Hconf; [by left|]. right.
  cbn zeta.
  destruct (Promotion.missingChecks _ _) as [|m ms] eqn:Hmissing.
  - right. cbn [length]. rewrite bool_decide_eq_false_2 by lia.
    do 3 (split; [done|]).
    destruct (Runner_Run _ input w) as [[[summary results] err] [logger w']].
    exists summary, results, err, (logger, w'). split; [done|]. by destruct err.
  - left. cbn [length]. rewrite bool_decide_eq_true_2 by lia. done.
Qed.

(** X27. What a passing gate guarantees. When the gate returns no error
    and a summary without a Block, then the confirmation is the
    configured phrase, every required check is among the gate's checks,
    every check is read-only and has been run, and every finding the
    gate returns is an Info; the summary counts no Warn. *)
Theorem gate_passes_only_when_all_is_clean (g : Promotion.PromotionGate (W:=W))
    (input : Input) (confirmation : string) (w : W)
    (summary : Summary) (findings : list Finding) (eff : list string * W) :
  Promotion.PromotionGate_Run g input confirmation w = ((summary, findings, None), eff) →
  Block summary = 0 →
  confirmation = Promotion.ConfirmationPhrase g
  ∧ (∀ name, In name (Promotion.requiredNames g) →
             ∃ c, In c (Promotion.Checks g) ∧ Check_Name c = name)
  ∧ forallb ReadOnly (Promotion.Checks g) = true
  ∧ findings = Promotion.flattenResults (collected (Promotion.Checks g) input w)
  ∧ (∀ f, In f findings → Severity_of f = SeverityInfo)
  ∧ Warn summary = 0.
Proof.
  intros Hrun Hblock.
  destruct (PromotionGate_Run_cases g input confirmation w)
    as [[_ E]|[(_ & _ & E)|[(_ & _ & _ & E)
        |(_ & Hconf & Hmissing & summary' & results & err & eff' & Hchecks & E)]]];
    rewrite E in Hrun; [discriminate| | |].
  { injection Hrun as <- _ _. discriminate. }
  { injection Hrun as <- _ _. discriminate. }
  destruct err as [e|]; [discriminate|].
  apply Runner_Run_no_error in Hchecks as (Hro & Hres & Hsum).
  cbn [Checks NewRunner] in Hro, Hres, Hsum. subst results.
  rewrite applySummary_counts in Hsum. cbn [Info Warn Block Summary_zero] in Hsum.
  pose proof (countSeverity_nonneg (allFindings (collected (Promotion.Checks g) input w))
                SeverityWarn) as Hw.
  pose proof (countSeverity_nonneg (allFindings (collected (Promotion.Checks g) input w))
                SeverityBlock) as Hb.
  destruct (bool_decide (0 < Warn summary') || bool_decide (0 < Block summary')) eqn:Hdirty.
  { injection Hrun as <- _ _. subst summary'. cbn [Block] in Hblock. lia. }
  injection Hrun as <- <- _.
  apply orb_false_elim in Hdirty as [Hnw Hnb].
  apply bool_decide_eq_false in Hnw, Hnb. subst summary'. cbn [Warn Block] in *.
  split; [done|]. split.
  { intros name Hin. destruct (decide (name ∈ map Check_Name (Promotion.Checks g)))
      as [Hseen|Hseen].
    - apply list_elem_of_In, in_map_iff in Hseen as (c & Hc & Hcin). by exists c.
    - exfalso. assert (Hm : name ∈ Promotion.missingChecks (Promotion.requiredNames g)
                                     (Promotion.Checks g)).
      { unfold Promotion.missingChecks. cbn zeta. apply list_elem_of_filter.
        split; [|by apply list_elem_of_In]. by rewrite elem_of_list_to_set. }
      rewrite Hmissing in Hm. by apply elem_of_nil in Hm. }
  split; [done|]. split; [done|]. split; [|lia].
  intros f Hin. apply (in_map Severity_of) in Hin.
  rewrite flattenResults_severities in Hin. apply in_map_iff in Hin as (f' & <- & Hin').
  apply (counts_zero_all_info (allFindings (collected (Promotion.Checks g) input w)));
    [lia|lia|done].
Qed.

(** X28. The gate's summary counts the findings it returns, and every
    finding that comes from a check names its check: whenever the gate
    returns no error, its summary is the count by severity of its
    findings, and every finding but a closing Block of the gate itself
    has a ["check"] entry in its [Meta]. *)
Theorem gate_summary_counts_its_findings (g : Promotion.PromotionGate (W:=W))
    (input : Input) (confirmation : string) (w : W) :
  let out := fst (Promotion.PromotionGate_Run g input confirmation w) in
  snd out = None →
  fst (fst out) = applySummary Summary_zero (snd (fst out))
  ∧ ∃ fs closing,
      snd (fst out) = fs ++ closing
      ∧ (∀ f, In f fs → is_Some (Meta f !! "check"))
      ∧ (closing = [] ∨ ∃ b, closing = [b] ∧ Severity_of b = SeverityBlock).
Proof.
  cbn zeta.
  destruct (PromotionGate_Run_cases g input confirmation w)
    as [[_ E]|[(_ & _ & E)|[(_ & _ & _ & E)
        |(_ & Hconf & Hmissing & summary' & results & err & eff' & Hchecks & E)]]];
    rewrite E; cbn [fst snd]; [done| | |].
  { intros _. split; [done|]. exists [], [Promotion.confirmationRequired g].
    split; [done|]. split; [done|]. right. by eexists. }
  { intros _. split; [done|]. eexists [], [_].
    split; [done|]. split; [done|]. right. by eexists. }
  destruct err as [e|]; [done|].
  apply Runner_Run_no_error in Hchecks as (Hro & Hres & Hsum).
  cbn [Checks NewRunner] in Hro, Hres, Hsum. subst results.
  assert (Hflat : applySummary Summary_zero
                    (Promotion.flattenResults (collected (Promotion.Checks g) input w))
                  = summary').
  { rewrite Hsum. apply applySummary_severities, flattenResults_severities. }
  destruct (bool_decide (0 < Warn summary') || bool_decide (0 < Block summary'));
    cbn [fst snd]; intros _.
  - split.
    + rewrite applySummary_app, Hflat. by destruct summary'.
    + eexists _, [_]. split; [reflexivity|]. split; [apply flattenResults_tagged|].
      right. by eexists.
  - split; [done|]. eexists _, []. split; [by rewrite app_nil_r|].
    split; [apply flattenResults_tagged|]. by left.
Qed.

(** The gate runs no check unless it is confirmed and complete:
    with a blank confirmation phrase, with a confirmation other than
    the phrase, or with a required check missing, it leaves the log and
    the world as they are; in the first case it returns an error, in
    the other two exactly one finding, a Block. *)
Theorem gate_refuses_without_running_checks (g : Promotion.PromotionGate (W:=W))
    (input : Input) (confirmation : string) (w : W) :
  Go.TrimSpace (Promotion.ConfirmationPhrase g) = ""
  ∨ confirmation ≠ Promotion.ConfirmationPhrase g
  ∨ Promotion.missingChecks (Promotion.requiredNames g) (Promotion.Checks g) ≠ [] →
  let out := Promotion.PromotionGate_Run g input confirmation w in
  snd out = (Promotion.Logger g, w)
  ∧ (Go.TrimSpace (Promotion.ConfirmationPhrase g) = "" →
     fst out = (Summary_zero, [], Some "confirmation phrase is required"))
  ∧ (Go.TrimSpace (Promotion.ConfirmationPhrase g) ≠ "" →
     ∃ b, fst out = (mkSummary 0 0 1, [b], None) ∧ Severity_of b = SeverityBlock).
Proof.
  intros Hrefuse. cbn zeta.
  destruct (PromotionGate_Run_cases g input confirmation w)
    as [[Hp E]|[(Hp & _ & E)|[(Hp & _ & _ & E)
        |(Hp & Hconf & Hmissing & _)]]]; try rewrite E; cbn [fst snd].
  - done.
  - split; [done|]. split; [done|]. intros _. by eexists.
  - split; [done|]. split; [done|]. intros _. by eexists.
  - by destruct Hrefuse as [?|[?|?]].
Qed.

End GateMore.

(** *** The two checkpoint stores: what a mark touches *)

Section StoresMore.

Lemma length_append_string (a b : string) :
  String.length (a +:+ b) = (String.length a + String.length b)%nat.
Proof.
  induction a as [|c a IH]; [done|].
  change (S (String.length (a +:+ b)) = S (String.length a + String.length b)).
  by rewrite IH.
Qed.

Lemma app_inv_tail_string (a b c : string) : a +:+ c = b +:+ c → a = b.
Proof.
  revert b. induction a as [|x a IH]; intros [|y b] E.
  - done.
  - exfalso. apply (f_equal String.length) in E.
    change (String.length c = S (String.length (b +:+ c))) in E.
    rewrite (length_append_string b c) in E. lia.
  - exfalso. apply (f_equal String.length) in E.
    change (S (String.length (a +:+ c)) = String.length c) in E.
    rewrite (length_append_string a c) in E. lia.
  - change (String x (a +:+ c) = String y (b +:+ c)) in E.
    injection E as -> E. f_equal. by apply IH.
Qed.

Lemma completedKey_inj (a b : string) :
  FileState.completedKey a = FileState.completedKey b → a = b.
Proof.
  unfold FileState.completedKey. intros E.
  apply app_inv_head_string in E. by apply app_inv_tail_string in E.
Qed.

(** X29. Marking a step completed marks that step and no other, in both
    stores: after [MarkCompleted(n)] a step [n'] is completed exactly
    when it is [n] or was completed before.  The in-memory store leaves
    every value as it was; the file store changes the value of one key,
    the completion key of [n]. *)
Theorem mark_completed_marks_one_step (n n' key : string) :
  (∀ m : MemoryState.t,
      IsCompleted (MarkCompleted n m) n' = bool_decide (n = n') || IsCompleted m n'
      ∧ Get (MarkCompleted n m) key = Get m key)
  ∧ (∀ fs : FileState.t,
      IsCompleted (MarkCompleted n fs) n' = bool_decide (n = n') || IsCompleted fs n'
      ∧ Get (MarkCompleted n fs) key
        = if decide (key = "workflow:" +:+ n +:+ ":completed")
          then Some (VBool true) else Get fs key).
Proof.
  split.
  - intros m. split; [|done]. cbn.
    unfold MemoryState.IsCompleted, MemoryState.MarkCompleted. cbn.
    destruct (decide (n = n')) as [->|Hn].
    + rewrite (bool_decide_eq_true_2 (n' = n')) by done. cbn [orb].
      apply bool_decide_eq_true, elem_of_union_l. by apply elem_of_singleton.
    + rewrite (bool_decide_eq_false_2 (n = n')) by done. cbn [orb].
      apply bool_decide_ext. rewrite elem_of_union, elem_of_singleton.
      split; [intros [E|Hin]; [by subst|done]|by right].
  - intros fs. cbn.
    unfold FileState.IsCompleted, FileState.MarkCompleted, FileState.Get. cbn. split.
    + destruct (decide (n = n')) as [->|Hn].
      * rewrite (bool_decide_eq_true_2 (n' = n')) by done. by rewrite lookup_insert_eq.
      * rewrite (bool_decide_eq_false_2 (n = n')) by done.
        rewrite lookup_insert_ne; [done|]. intros E. by apply completedKey_inj in E.
    + case_decide as Hk.
      * subst. apply lookup_insert_eq.
      * rewrite lookup_insert_ne; [done|]. intros E. by apply Hk.
Qed.

(** In the file store a value written with [Set] can withdraw a
    completion: after [MarkCompleted(s)], setting the completion key of
    [s] to anything but [true] makes [IsCompleted(s)] false.  In the
    in-memory store no [Set] changes what is completed. *)
Theorem file_state_completion_can_be_withdrawn (s : string) (v : Value) :
  (v ≠ VBool true →
   ∀ fs : FileState.t,
     IsCompleted (Set_ ("workflow:" +:+ s +:+ ":completed") v (MarkCompleted s fs)) s = false)
  ∧ (∀ (m : MemoryState.t) key n, IsCompleted (Set_ key v m) n = IsCompleted m n).
Proof.
  split; [|done]. intros Hv fs. cbn.
  unfold FileState.IsCompleted, FileState.Set_, FileState.MarkCompleted,
    FileState.completedKey. cbn.
  rewrite lookup_insert_eq. destruct v as [|[]| | | |]; done.
Qed.

End StoresMore.

(** *** Validating a migration plan *)

Section PlanFacts.

Import Plan.
Context `{!Go.Fmt}.

Lemma orderFrom_spec (steps : list string) :
  NoDup steps →
  ∀ i order s pos,
    orderFrom i steps order !! s = Some pos
    ↔ (∃ j, steps !! j = Some s ∧ pos = i + Z.of_nat j)
      ∨ ((s ∉ steps) ∧ order !! s = Some pos).
Proof.
  induction steps as [|s0 rest IH]; intros Hnd i order s pos; cbn [orderFrom].
  { split.
    - intros Hl. right. split; [apply not_elem_of_nil|done].
    - intros [(j & Hj & _)|[_ Hl]]; [done|done]. }
  apply NoDup_cons in Hnd as [Hnot Hnd]. rewrite (IH Hnd). split.
  - intros [(j & Hj & ->)|[Hs Hl]].
    + left. exists (Datatypes.S j). split; [done|lia].
    + destruct (decide (s0 = s)) as [->|Hne].
      * rewrite lookup_insert_eq in Hl. injection Hl as <-. left. exists 0%nat.
        split; [done|lia].
      * rewrite lookup_insert_ne in Hl by done. right. split; [|done].
        intros Hin. apply elem_of_cons in Hin as [->|Hin]; done.
  - intros [([|j] & Hj & ->)|[Hs Hl]].
    + cbn in Hj. injection Hj as ->. right. split; [done|].
      rewrite lookup_insert_eq. f_equal. lia.
    + left. exists j. split; [done|lia].
    + right. apply not_elem_of_cons in Hs as [Hne Hs]. split; [done|].
      by rewrite lookup_insert_ne.
Qed.

Lemma SupportedSteps_NoDup : NoDup SupportedSteps.
Proof. apply (bool_decide_unpack _). by vm_compute. Qed.

Lemma supportedStepOrder_spec s pos :
  supportedStepOrder !! s = Some pos
  ↔ ∃ j, SupportedSteps !! j = Some s ∧ pos = Z.of_nat j.
Proof.
  unfold supportedStepOrder. rewrite (orderFrom_spec _ SupportedSteps_NoDup). split.
  - intros [(j & Hj & ->)|[_ Hl]]; [by exists j|done].
  - intros (j & Hj & ->). left. by exists j.
Qed.

Lemma supportedStepOrder_none s :
  supportedStepOrder !! s = None ↔ s ∉ SupportedSteps.
Proof.
  split.
  - intros Hnone Hin. apply list_elem_of_lookup in Hin as [j Hj].
    assert (supportedStepOrder !! s = Some (Z.of_nat j)) as Hsome
      by (apply supportedStepOrder_spec; by exists j).
    congruence.
  - intros Hnot. destruct (supportedStepOrder !! s) as [pos|] eqn:Hl; [|done].
    apply supportedStepOrder_spec in Hl as (j & Hj & _).
    exfalso. apply Hnot. by apply list_elem_of_lookup_2 in Hj.
Qed.

Lemma required_spec value message problems :
  required value message problems
  = problems ++ (if decide (Go.TrimSpace value = "") then [message] else []).
Proof. unfold required. case_decide; [done|by rewrite app_nil_r]. Qed.

Lemma scanReplicas_spec replicas : ∀ i problems,
  ∃ extra,
    scanReplicas i replicas problems = problems ++ extra
    ∧ (extra = [] ↔ Forall (λ r, Go.TrimSpace r ≠ "") replicas).
Proof.
  induction replicas as [|r rest IH]; intros i problems; cbn [scanReplicas].
  { exists []. split; [by rewrite app_nil_r|]. done. }
  case_decide as Hr.
  - destruct (IH (i + 1) (problems ++ ["topology.replicas[" +:+ Go.itoa i +:+ "] is empty"]))
      as (extra & -> & _).
    eexists (_ :: extra). split; [by rewrite <- app_assoc|].
    split; [done|]. intros Hall. apply Forall_cons in Hall as [Hne _]. done.
  - destruct (IH (i + 1) problems) as (extra & -> & Hiff).
    exists extra. split; [done|]. rewrite Hiff. split.
    + intros Hall. by constructor.
    + intros Hall. by apply Forall_cons in Hall as [_ Hall].
Qed.

Lemma sublist_head_in (x : string) xs l : x :: xs `sublist_of` l → x ∈ l.
Proof.
  intros Hsub. apply sublist_cons_l in Hsub as (k1 & k2 & -> & _).
  apply elem_of_app. right. by left.
Qed.

(** In a list without duplicates, what follows an element is determined. *)
Lemma sublist_after (x : string) xs r1 r2 :
  NoDup (r1 ++ x :: r2) →
  x :: xs `sublist_of` r1 ++ x :: r2 ↔ xs `sublist_of` r2.
Proof.
  intros Hnd. split.
  - intros Hsub. apply sublist_cons_l in Hsub as (k1 & k2 & Heq & Hsub).
    assert (length r1 = length k1) as Hlen.
    { apply (NoDup_lookup (r1 ++ x :: r2) _ _ x Hnd).
      - by apply list_lookup_middle.
      - rewrite Heq. by apply list_lookup_middle. }
    apply app_inj_1 in Heq as [_ Heq]; [|done]. injection Heq as ->. done.
  - intros Hsub. apply sublist_inserts_l. by apply sublist_skip.
Qed.

(** The loop over the steps accepts exactly the selections, in order,
    of the supported steps that come after the last accepted one. *)
Lemma scanSteps_spec steps : ∀ i seen lastPos problems done remaining,
  SupportedSteps = done ++ remaining →
  lastPos = Z.of_nat (length done) - 1 →
  (∀ s, s ∈ seen → s ∈ done) →
  (∀ s, last done = Some s → s ∈ seen) →
  ∃ extra,
    scanSteps i steps seen lastPos problems = problems ++ extra
    ∧ (extra = [] ↔ map Go.TrimSpace steps `sublist_of` remaining).
Proof.
  induction steps as [|step rest IH]; intros i seen lastPos problems done remaining
    Hsplit Hlast Hseen Hdone; cbn [scanSteps map].
  { exists []. split; [by rewrite app_nil_r|]. split; [intros _; apply sublist_nil_l|done]. }
  assert (Hnd : NoDup (done ++ remaining)) by (rewrite <- Hsplit; apply SupportedSteps_NoDup).
  assert (Hbad : ∀ message,
             Go.TrimSpace step ∉ remaining →
             ∃ extra,
               scanSteps (i + 1) rest seen lastPos (problems ++ [message]) = problems ++ extra
               ∧ (extra = [] ↔ Go.TrimSpace step :: map Go.TrimSpace rest
                               `sublist_of` remaining)).
  { intros message Hnot.
    destruct (IH (i + 1) seen lastPos (problems ++ [message]) done remaining
                Hsplit Hlast Hseen Hdone) as (extra & -> & _).
    exists (message :: extra). split; [by rewrite <- app_assoc|].
    split; [done|]. intros Hsub. by apply sublist_head_in in Hsub. }
  cbn zeta. case_decide as Hblank.
  { apply Hbad. rewrite Hblank. intros Hin.
    assert ("" ∈ SupportedSteps) as Hin'
      by (rewrite Hsplit; apply elem_of_app; by right).
    revert Hin'. apply (bool_decide_unpack _). by vm_compute. }
  destruct (supportedStepOrder !! Go.TrimSpace step) as [pos|] eqn:Hpos.
  2:{ apply Hbad. intros Hin. apply supportedStepOrder_none in Hpos. apply Hpos.
      rewrite Hsplit. apply elem_of_app. by right. }
  apply supportedStepOrder_spec in Hpos as (j & Hj & ->).
  case_decide as Hdup.
  { apply Hbad. intros Hin. apply Hseen in Hdup.
    apply NoDup_app in Hnd as (_ & Hdisj & _). by apply (Hdisj (Go.TrimSpace step)). }
  destruct (Z.of_nat j <? lastPos) eqn:Hlt.
  { apply Hbad. intros Hin. apply Z.ltb_lt in Hlt.
    apply list_elem_of_lookup in Hin as [m Hm].
    assert (j = (length done + m)%nat) as ->.
    { apply (NoDup_lookup (done ++ remaining) _ _ (Go.TrimSpace step) Hnd).
      - by rewrite <- Hsplit.
      - by rewrite lookup_app_r, Nat.add_comm, Nat.add_sub by lia. }
    lia. }
  apply Z.ltb_ge in Hlt.
  assert (Hin : Go.TrimSpace step ∈ remaining).
  { rewrite Hsplit in Hj. apply lookup_app_Some in Hj as [Hj|[_ Hj]];
      [|by apply list_elem_of_lookup_2 in Hj].
    exfalso. apply Hdup, Hdone.
    assert (j = (length done - 1)%nat) as ->
      by (apply lookup_lt_Some in Hj; lia).
    rewrite last_lookup. by replace (pred (length done)) with (length done - 1)%nat by lia. }
  apply list_elem_of_split in Hin as (r1 & r2 & ->).
  assert (j = length (done ++ r1)) as ->.
  { apply (NoDup_lookup (done ++ r1 ++ Go.TrimSpace step :: r2) _ _ (Go.TrimSpace step) Hnd).
    - by rewrite <- Hsplit.
    - rewrite app_assoc. by apply list_lookup_middle. }
  destruct (IH (i + 1) ({[Go.TrimSpace step]} ∪ seen) (Z.of_nat (length (done ++ r1)))
              problems (done ++ r1 ++ [Go.TrimSpace step]) r2) as (extra & -> & Hiff).
  - by rewrite Hsplit, <- !app_assoc.
  - rewrite !length_app. cbn [length]. lia.
  - intros s Hs. apply elem_of_union in Hs as [Hs|Hs].
    + apply elem_of_singleton in Hs as ->. rewrite !elem_of_app. right; right. by left.
    + apply elem_of_app. left. by apply Hseen.
  - intros s Hs. rewrite !app_assoc, last_snoc in Hs. injection Hs as <-.
    apply elem_of_union_l. by apply elem_of_singleton.
  - exists extra. split; [done|]. rewrite Hiff. symmetry. apply sublist_after.
    by apply NoDup_app in Hnd as (_ & _ & Hnd).
Qed.

Lemma required_nil value message problems :
  required value message problems = [] ↔ problems = [] ∧ Go.TrimSpace value ≠ "".
Proof.
  rewrite required_spec, app_nil. case_decide; split; intros [? ?]; done.
Qed.

Lemma problemsOf_nil (p : MigrationPlan) : problemsOf p = [] ↔ wellFormed p.
Proof.
  unfold problemsOf, wellFormed. cbn zeta.
  destruct (Plan_Steps p) as [|step steps].
  { split; [intros Hnil; by apply app_nil in Hnil as [_ ?]|by intros (_&_&_&_&_&_&_&_&?&_)]. }
  destruct (scanSteps_spec (step :: steps) 0 ∅ (-1)
              (required (CDC_Connector (CDC p)) "cdc.connector is required"
                 (required (CDC_Type (CDC p)) "cdc.type is required"
                    match Replicas (Plan_Topology p) with
                    | [] =>
                        required (Topology_Primary (Plan_Topology p))
                          "topology.primary is required"
                          (required (TargetVersion p) "target_version is required"
                             (required (SourceVersion p) "source_version is required"
                                (required (Migration p) "migration is required" [])))
                        ++ ["topology.replicas must include at least one replica"]
                    | r :: rs =>
                        scanReplicas 0 (r :: rs)
                          (required (Topology_Primary (Plan_Topology p))
                             "topology.primary is required"
                             (required (TargetVersion p) "target_version is required"
                                (required (SourceVersion p) "source_version is required"
                                   (required (Migration p) "migration is required" []))))
                    end))
              [] SupportedSteps eq_refl eq_refl)
    as (extra & -> & Hsteps).
  { intros s Hs. by apply elem_of_empty in Hs. }
  { done. }
  rewrite app_nil, Hsteps, !required_nil.
  destruct (Replicas (Plan_Topology p)) as [|r rs].
  { rewrite app_nil. split; [intros [[[[_ Hno] _] _] _]; done|].
    by intros (_&_&_&_&?&_). }
  destruct (scanReplicas_spec (r :: rs) 0
              (required (Topology_Primary (Plan_Topology p)) "topology.primary is required"
                 (required (TargetVersion p) "target_version is required"
                    (required (SourceVersion p) "source_version is required"
                       (required (Migration p) "migration is required" [])))))
    as (more & -> & Hreplicas).
  rewrite app_nil, Hreplicas, !required_nil. split.
  - intros [[[[[[[[_ ?] ?] ?] ?] ?] ?] ?] ?]. done.
  - intros (?&?&?&?&?&?&?&?&?&?). done.
Qed.

(** X30. [Validate] accepts exactly the well-formed plans: it returns no
    error if and only if every required field is non-blank, there is at
    least one replica and none is blank, and the steps, once trimmed,
    are a non-empty selection of the supported steps in their canonical
    order (so none unsupported, none twice, none out of order). *)
Theorem validate_accepts_the_well_formed_plans (p : MigrationPlan) :
  Validate p = None ↔ wellFormed p.
Proof.
  rewrite <- problemsOf_nil. unfold Validate. cbn zeta.
  destruct (problemsOf p) as [|problem problems]; cbn [length].
  - by rewrite bool_decide_eq_false_2 by lia.
  - by rewrite bool_decide_eq_true_2 by lia.
Qed.

End PlanFacts.

(** *** The properties above on sample inputs *)

Section FurtherOnSamples.

Import Samples MoreSamples FurtherSamples.
#[local] Existing Instance sampleFmt.
#[local] Existing Instance asciiLower.

(** [upgrade_replica] mutates and the runner does not allow it. *)
Lemma mutating_step_refused_witness :
  fst (Workflow.Runner_Run neverDone (runner [preflight; upgrade_replica]) tt)
  = (mkSummary 1 0 1, None).
Proof.
  edestruct (mutating_step_refused neverDone (runner [preflight; upgrade_replica]) tt
               [preflight] [] upgrade_replica) as (r' & Hrun & _).
  - reflexivity.
  - reflexivity.
  - reflexivity.
  - reflexivity.
  - reflexivity.
  - reflexivity.
  - reflexivity.
  - rewrite Hrun. reflexivity.
Defined.

(** [preflight] is already marked: only [validate_replica] runs. *)
Lemma completed_step_skipped_witness :
  fst (Workflow.Runner_Run neverDone
         (Workflow.NewRunner [preflight; validate_replica]
            (MarkCompleted "preflight" MemoryState.NewMemoryState) false) tt)
  = (mkSummary 0 1 0, None).
Proof.
  edestruct (completed_step_skipped neverDone
               (Workflow.NewRunner [preflight; validate_replica]
                  (MarkCompleted "preflight" MemoryState.NewMemoryState) false) tt
               [] [validate_replica] preflight) as [Hrun _].
  - reflexivity.
  - reflexivity.
  - reflexivity.
  - reflexivity.
  - reflexivity.
  - rewrite Hrun. vm_compute. reflexivity.
Defined.

(** A context cancelled from the start: nothing runs. *)
Lemma cancellation_stops_at_step_boundary_witness :
  fst (Workflow.Runner_Run cancelled (runner [preflight; validate_replica]) tt)
  = (Summary_zero, Some "context canceled").
Proof.
  edestruct (cancellation_stops_at_step_boundary cancelled
               (runner [preflight; validate_replica]) tt [] [validate_replica] preflight)
    as (r' & Hrun & _).
  - reflexivity.
  - reflexivity.
  - reflexivity.
  - reflexivity.
  - rewrite Hrun. reflexivity.
Defined.

(** Both steps are marked: the second run does nothing. *)
Lemma rerun_of_completed_plan_runs_nothing_witness :
  fst (Workflow.Runner_Run neverDone
         (Workflow.NewRunner [preflight; validate_replica] bothMarked false) tt)
  = (Summary_zero, None).
Proof.
  edestruct (rerun_of_completed_plan_runs_nothing neverDone
               (Workflow.NewRunner [preflight; validate_replica] bothMarked false) tt)
    as (r' & Hrun & _).
  - reflexivity.
  - reflexivity.
  - intros step [<-|[<-|[]]]; reflexivity.
  - rewrite Hrun. reflexivity.
Defined.

(** A run with an Info and a Warn marks both steps. *)
Lemma clean_run_marks_every_step_witness :
  IsCompleted
    (Workflow.State_
       (fst (snd (Workflow.Runner_Run neverDone (runner [preflight; validate_replica]) tt))))
    (Workflow.Name validate_replica) = true.
Proof.
  eapply (clean_run_marks_every_step neverDone (runner [preflight; validate_replica]) tt).
  - intros step [<-|[<-|[]]] st w n Hn; exact Hn.
  - reflexivity.
  - reflexivity.
  - right. left. reflexivity.
Defined.

(** A check that fails does not stop the checks runner. *)
Lemma checks_runner_visits_every_check_witness :
  snd (Checks.Runner_Run (Checks.NewRunner [failsCheck; infoCheck] []) noInput 0%nat)
  = (["running preflight check: fails"; "running preflight check: info"], 2%nat).
Proof.
  edestruct (checks_runner_visits_every_check
               (Checks.NewRunner [failsCheck; infoCheck] []) noInput 0%nat)
    as (summary & results & Hrun & _).
  - reflexivity.
  - rewrite Hrun. reflexivity.
Defined.

(** The later of two tables of one name is the one indexed. *)
Lemma tableIndex_last_table_of_each_name_witness :
  Checks.tableIndex [users "varchar(64)"; users "varchar(255)"] !! "users"
  = Some (users "varchar(255)").
Proof.
  destruct (tableIndex_last_table_of_each_name
              [users "varchar(64)"; users "varchar(255)"] "users") as (_ & _ & Hlast).
  apply (Hlast [users "varchar(64)"] (users "varchar(255)") []).
  - reflexivity.
  - reflexivity.
  - intros t' [].
Defined.

(** A table the replica lacks. *)
Lemma table_presence_findings_witness :
  In (mkFinding SeverityBlock ("table " +:+ Go.fmt_q "users" +:+ " missing on replica")
        {[ "table" := VString "users" ]})
     (Checks.compareSchemas (usersOn "varchar(255)") (Checks.mkSchema [])).
Proof.
  destruct (table_presence_findings (usersOn "varchar(255)") (Checks.mkSchema []) "users")
    as [Hmissing _].
  apply Hmissing.
  - eexists. vm_compute. reflexivity.
  - reflexivity.
Defined.


(** The finding for the missing primary key is no Info. *)
Lemma compareSchemas_never_info_witness :
  Severity_of (Checks.pkMissingOnReplica "t") ≠ SeverityInfo.
Proof.
  apply (compareSchemas_never_info primarySchema replicaSchema).
  vm_compute. left. reflexivity.
Defined.

(** A paused connector: one condition fires, one Block. *)
Lemma status_findings_count_conditions_witness :
  fst (fst (Cdc.DebeziumHealthCheck_Run id (reporting paused) noInput 0)) ≠ [].
Proof.
  edestruct (status_findings_count_conditions id (reporting paused) noInput 0) as [Hsome _].
  - reflexivity.
  - vm_compute. discriminate.
  - reflexivity.
  - exact Hsome.
Defined.

(** A failed task is reported with its id and its trace. *)
Lemma connector_and_task_states_reported_witness :
  In (Cdc.taskNotRunning taskFailed (Cdc.mkTaskStatus 0 "FAILED" "" "stack trace"))
     (fst (fst (Cdc.DebeziumHealthCheck_Run id (reporting taskFailed) noInput 0))).
Proof.
  edestruct (connector_and_task_states_reported id (reporting taskFailed) noInput 0)
    as [_ Htasks].
  - reflexivity.
  - vm_compute. discriminate.
  - reflexivity.
  - destruct (Htasks (Cdc.mkTaskStatus 0 "FAILED" "" "stack trace")) as [Hin _].
    + left. reflexivity.
    + vm_compute. discriminate.
    + exact Hin.
Defined.

(** Coverage spelled in capitals and with blanks covers the expected
    tables: the check makes its three reads and returns one finding. *)
Lemma schema_history_one_finding_witness :
  ∃ f, fst (Kafka.SchemaHistoryCheck_Run (historyCheck [" APP.USERS"; "App.Orders "])
              noInput 0%nat) = ([f], None)
       ∧ snd (Kafka.SchemaHistoryCheck_Run (historyCheck [" APP.USERS"; "App.Orders "])
                noInput 0%nat) = 3%nat.
Proof.
  edestruct (schema_history_one_finding (historyCheck [" APP.USERS"; "App.Orders "])
               noInput 0%nat) as (f & Hrun & _ & _ & _ & _ & Hreads).
  - reflexivity.
  - vm_compute. discriminate.
  - reflexivity.
  - reflexivity.
  - reflexivity.
  - exists f. split; [exact Hrun|]. by apply Hreads.
Defined.

(** Replication was stopped before: the run upgrades and starts. *)
Lemma run_resumes_from_checkpoints_witness :
  Mysql.calls_of (Mysql.Run stoppedOnly "replica-1" tt)
  = [Mysql.CallIsPrimary "replica-1"; Mysql.CallReplicationStatus "replica-1";
     Mysql.CallRunUpgrade "replica-1"; Mysql.CallStartReplication "replica-1"].
Proof.
  edestruct (run_resumes_from_checkpoints stoppedOnly "replica-1" tt) as [Hcalls _].
  - reflexivity.
  - reflexivity.
  - reflexivity.
  - vm_compute. discriminate.
  - vm_compute. discriminate.
  - reflexivity.
  - intros w. reflexivity.
  - intros w. reflexivity.
  - intros w. reflexivity.
  - rewrite Hcalls. vm_compute. reflexivity.
Defined.

(** On the store of the re-run test [StopReplication] is not called. *)
Lemma checkpointed_action_is_not_called_witness :
  Mysql.CallStopReplication (Go.TrimSpace "replica-1")
  ∉ Mysql.calls_of (Mysql.Run upgraded "replica-1" tt).
Proof.
  destruct (checkpointed_action_is_not_called upgraded "replica-1" tt) as [Hstop _].
  apply Hstop. vm_compute. reflexivity.
Defined.

(** A first run on an empty store sets the three checkpoints. *)
Lemma run_without_block_sets_the_three_checkpoints_witness :
  ∃ st', Mysql.State_ (Mysql.orchestrator_after (Mysql.Run fresh "replica-1" tt)) = Some st'
         ∧ fst (Mysql.getBool (Some st') (Mysql.stoppedKey (Go.TrimSpace "replica-1"))) = true
         ∧ fst (Mysql.getBool (Some st') (Mysql.upgradedKey (Go.TrimSpace "replica-1"))) = true
         ∧ fst (Mysql.getBool (Some st') (Mysql.resumedKey (Go.TrimSpace "replica-1"))) = true.
Proof.
  apply (run_without_block_sets_the_three_checkpoints fresh "replica-1" tt
           MemoryState.NewMemoryState).
  - reflexivity.
  - vm_compute. reflexivity.
  - vm_compute. reflexivity.
Defined.

(** Without a store the second run calls the three actions again. *)
Lemma without_store_every_run_calls_the_three_actions_witness :
  Mysql.calls_of (Mysql.rerun (Mysql.Run storeless "replica-1" tt) "replica-1")
  = Mysql.calls_of (Mysql.Run storeless "replica-1" tt).
Proof.
  edestruct (without_store_every_run_calls_the_three_actions storeless "replica-1" tt)
    as (_ & Hsame & _).
  - reflexivity.
  - reflexivity.
  - reflexivity.
  - vm_compute. discriminate.
  - vm_compute. discriminate.
  - intros w. reflexivity.
  - intros w. reflexivity.
  - intros w. reflexivity.
  - intros w. reflexivity.
  - exact Hsame.
Defined.

(** The gate of [TestPromotionGate_AllowsWhenClean] passes, and every
    finding it returns is an Info. *)
Lemma gate_passes_only_when_all_is_clean_witness :
  Forall (λ f, Severity_of f = SeverityInfo)
    (snd (fst (fst (Promotion.PromotionGate_Run cleanGate noInput "PROMOTE" tt)))).
Proof.
  edestruct (gate_passes_only_when_all_is_clean cleanGate noInput "PROMOTE" tt)
    as (_ & _ & _ & _ & Hinfo & _).
  - reflexivity.
  - reflexivity.
  - apply Forall_forall. intros f Hin. apply Hinfo. by apply list_elem_of_In.
Defined.

(** The gate that a Warn blocks: its summary counts its three findings. *)
Lemma gate_summary_counts_its_findings_witness :
  fst (fst (fst (Promotion.PromotionGate_Run gate noInput "PROMOTE" tt)))
  = applySummary Summary_zero
      (snd (fst (fst (Promotion.PromotionGate_Run gate noInput "PROMOTE" tt)))).
Proof.
  destruct (gate_summary_counts_its_findings gate noInput "PROMOTE" tt) as [Hsum _].
  - reflexivity.
  - exact Hsum.
Defined.

(** Without the confirmation no check runs. *)
Lemma gate_refuses_without_running_checks_witness :
  snd (Promotion.PromotionGate_Run gate noInput "" tt) = ([], tt).
Proof.
  destruct (gate_refuses_without_running_checks gate noInput "" tt) as [Hsame _].
  - right. left. discriminate.
  - exact Hsame.
Defined.

(** Writing [false] under the completion key withdraws the mark. *)
Lemma file_state_completion_can_be_withdrawn_witness :
  IsCompleted
    (Set_ ("workflow:" +:+ "preflight" +:+ ":completed") (VBool false)
       (MarkCompleted "preflight" (FileState.mk "state.json" ∅))) "preflight" = false.
Proof.
  destruct (file_state_completion_can_be_withdrawn "preflight" (VBool false)) as [Hfile _].
  apply Hfile. discriminate.
Defined.

(** The plans of the validation tests. *)
Example TestMigrationPlanValidate :
  Plan.Validate (planWith ["preflight"; "upgrade_replica"; "validate_replica"; "cdc_check";
                           "promote"; "post_validation"]) = None
  ∧ Plan.Validate (planWith ["preflight"; "unknown_step"])
    = Some ("migration plan validation failed: steps[1]=" +:+ Go.fmt_q "unknown_step"
            +:+ " is not supported")
  ∧ Plan.Validate (planWith ["validate_replica"; "preflight"])
    = Some ("migration plan validation failed: step order invalid at steps[1]="
            +:+ Go.fmt_q "preflight")
  ∧ Plan.Validate (planWith ["preflight"; "preflight"])
    = Some ("migration plan validation failed: steps[1]=" +:+ Go.fmt_q "preflight"
            +:+ " is duplicated")
  ∧ Plan.Validate (mkMigrationPlan "" "" "" (mkTopology "" []) (mkCDCConfig "" "") [])
    = Some ("migration plan validation failed: migration is required; "
            +:+ "source_version is required; target_version is required; "
            +:+ "topology.primary is required; "
            +:+ "topology.replicas must include at least one replica; "
            +:+ "cdc.type is required; cdc.connector is required; "
            +:+ "steps must include at least one step").
Proof. repeat split; vm_compute; reflexivity. Qed.

(** A plan that skips steps but keeps the order is accepted. *)
Lemma validate_accepts_the_well_formed_plans_witness :
  Plan.Validate (planWith [" preflight"; "cdc_check "; "promote"]) = None.
Proof.
  apply validate_accepts_the_well_formed_plans.
  repeat split; try (vm_compute; discriminate).
  - repeat constructor. vm_compute. discriminate.
  - vm_compute. apply sublist_skip, sublist_cons, sublist_cons, sublist_skip, sublist_skip,
      sublist_cons, sublist_nil.
Defined.

End FurtherOnSamples.
